(** * Shairport-Sync-Player: the MQTT to socket.io bridge of app.py

    A shallow embedding of [python-flask-socketio-server/app.py] and the
    properties of its message router, event cache, volume scaler and
    remote-command validator.

    Conventions of the embedding.
    - Python [bytes] are [list byte]; Python [str] is [string]; a decoded
      text is represented by its UTF-8 encoding, so decoding checks
      well-formedness and keeps the octets.
    - Python [float] is [pyfloat]: a rational, an infinity or NaN. The
      code's arithmetic is binary64: [PyFloat.round64] rounds an exact
      result to the nearest binary64 value, ties to even, with overflow to
      an infinity, and [float], [add64], [sub64], [mul64] and [div64] round
      with it. The sign of a zero is not kept; nothing in this program can
      observe it. The operations without rounding are kept for the one
      claim that is stated in exact rational arithmetic.
    - A Python [dict] is an association list in insertion order, as
      [dict.items()] enumerates it.
    - Handlers run in the monad [M]: they thread the [World] (the cache
      [SAVED_INFO], the socket.io emits and the MQTT publishes) and may
      raise. What a handler changed before it raised stays changed.
    - [print] calls write to stdout only and are left out. *)

From Stdlib Require Import ZArith QArith Qround Qpower Lia Lqa Bool List.
From Stdlib.Strings Require Import Ascii String Byte.
From Stdlib Require Import DecimalString.
Import ListNotations.

Local Open Scope list_scope.
Local Open Scope string_scope.

(** ** Exceptions and results *)

Inductive exn : Type :=
| ValueError (reason : string)
| UnicodeDecodeError (codec : string)
| OverflowError (reason : string)
| ZeroDivisionError.

(** [except ValueError] also catches its subclass [UnicodeDecodeError]. *)
Definition is_ValueError (e : exn) : bool :=
  match e with
  | ValueError _ | UnicodeDecodeError _ => true
  | OverflowError _ | ZeroDivisionError => false
  end.

Inductive result (A : Type) : Type :=
| Ok (a : A)
| Raise (e : exn).
Arguments Ok {A} a.
Arguments Raise {A} e.

Definition rbind {A B} (r : result A) (k : A -> result B) : result B :=
  match r with
  | Ok a => k a
  | Raise e => Raise e
  end.

(** ** Bytes and strings *)

Module PyBytes.

Definition octet (b : byte) : N := Byte.to_N b.

(** [bytes.startswith(prefix)] *)
Fixpoint startswith (s prefix : list byte) {struct prefix} : bool :=
  match prefix, s with
  | [], _ => true
  | _ :: _, [] => false
  | p :: prefix', c :: s' => Byte.eqb c p && startswith s' prefix'
  end.

(** [bytes.decode("ascii")]: every octet must be below 128. *)
Definition decode_ascii (bs : list byte) : result string :=
  if forallb (fun b => (octet b <? 128)%N) bs
  then Ok (string_of_list_byte bs)
  else Raise (UnicodeDecodeError "ascii").

Definition between (lo hi b : N) : bool := ((lo <=? b) && (b <=? hi))%N.
Definition continuation : N -> bool := between 128 191.

(** Well-formed UTF-8 (Unicode table 3-7): no overlong forms, no
    surrogates, nothing above U+10FFFF. *)
Fixpoint utf8_wf (bs : list N) : bool :=
  match bs with
  | [] => true
  | b0 :: r0 =>
    if (b0 <=? 127)%N then utf8_wf r0 else
    match r0 with
    | [] => false
    | b1 :: r1 =>
      if between 194 223 b0 then continuation b1 && utf8_wf r1 else
      match r1 with
      | [] => false
      | b2 :: r2 =>
        if between 224 239 b0 then
          (if (b0 =? 224)%N then between 160 191 b1
           else if (b0 =? 237)%N then between 128 159 b1
           else continuation b1)
          && continuation b2 && utf8_wf r2
        else
        match r2 with
        | [] => false
        | b3 :: r3 =>
          if between 240 244 b0 then
            (if (b0 =? 240)%N then between 144 191 b1
             else if (b0 =? 244)%N then between 128 143 b1
             else continuation b1)
            && continuation b2 && continuation b3 && utf8_wf r3
          else false
        end
      end
    end
  end.

(** [bytes.decode("utf8")], strict. *)
Definition decode_utf8 (bs : list byte) : result string :=
  if utf8_wf (map octet bs)
  then Ok (string_of_list_byte bs)
  else Raise (UnicodeDecodeError "utf-8").

Definition b64_alphabet : string :=
  "ABCDEFGHIJKLMNOPQRSTUVWXYZabcdefghijklmnopqrstuvwxyz0123456789+/".

Definition b64_char (n : N) : ascii :=
  match String.get (N.to_nat n) b64_alphabet with
  | Some c => c
  | None => "="%char
  end.

(** [base64.b64encode(bs).decode("utf-8")] *)
Fixpoint b64encode (bs : list byte) : string :=
  match bs with
  | [] => ""
  | [a] =>
    let n := (octet a * 65536)%N in
    String (b64_char (n / 262144))
      (String (b64_char ((n / 4096) mod 64)) "==")
  | [a; b] =>
    let n := (octet a * 65536 + octet b * 256)%N in
    String (b64_char (n / 262144))
      (String (b64_char ((n / 4096) mod 64))
        (String (b64_char ((n / 64) mod 64)) "="))
  | a :: b :: c :: rest =>
    let n := (octet a * 65536 + octet b * 256 + octet c)%N in
    String (b64_char (n / 262144))
      (String (b64_char ((n / 4096) mod 64))
        (String (b64_char ((n / 64) mod 64))
          (String (b64_char (n mod 64)) (b64encode rest))))
  end.

End PyBytes.

Module PyStr.

(** [s.split(",")]: never empty; the empty string splits into [[""]]. *)
Fixpoint split_comma (s : string) : list string :=
  match s with
  | EmptyString => [""]
  | String c s' =>
    if Ascii.eqb c ","%char then "" :: split_comma s'
    else match split_comma s' with
         | [] => [String c ""]
         | field :: fields => String c field :: fields
         end
  end.

(** [x in xs] for a list of strings. *)
Definition mem (x : string) (xs : list string) : bool :=
  existsb (String.eqb x) xs.

Definition of_nat (n : nat) : string :=
  NilEmpty.string_of_uint (Nat.to_uint n).

End PyStr.

(** ** Floats *)

(** A Python [float]: a rational (kept in lowest terms, so that equal
    values are equal terms), an infinity with its sign, or NaN. *)
Inductive pyfloat : Type :=
| Fin (q : Q)
| Inf (negative : bool)
| NaN.

Module PyFloat.

Definition fneg (a : pyfloat) : pyfloat :=
  match a with
  | Fin x => Fin (Qred (- x)%Q)
  | Inf s => Inf (negb s)
  | NaN => NaN
  end.

Definition fadd (a b : pyfloat) : pyfloat :=
  match a, b with
  | NaN, _ | _, NaN => NaN
  | Fin x, Fin y => Fin (Qred (x + y)%Q)
  | Inf s, Fin _ | Fin _, Inf s => Inf s
  | Inf s, Inf t => if Bool.eqb s t then Inf s else NaN
  end.

Definition fsub (a b : pyfloat) : pyfloat :=
  match a, b with
  | NaN, _ | _, NaN => NaN
  | Fin x, Fin y => Fin (Qred (x - y)%Q)
  | Inf s, Fin _ => Inf s
  | Fin _, Inf s => Inf (negb s)
  | Inf s, Inf t => if Bool.eqb s t then NaN else Inf s
  end.

Definition fmul (a b : pyfloat) : pyfloat :=
  match a, b with
  | NaN, _ | _, NaN => NaN
  | Fin x, Fin y => Fin (Qred (x * y)%Q)
  | Inf s, Fin y | Fin y, Inf s =>
    match (y ?= 0)%Q with
    | Eq => NaN
    | Gt => Inf s
    | Lt => Inf (negb s)
    end
  | Inf s, Inf t => Inf (xorb s t)
  end.

(** [a / b]: Python raises on a zero divisor instead of returning an
    infinity. *)
Definition fdiv (a b : pyfloat) : result pyfloat :=
  match a, b with
  | NaN, Fin y => if Qeq_bool y 0 then Raise ZeroDivisionError else Ok NaN
  | NaN, _ | _, NaN => Ok NaN
  | Fin x, Fin y =>
    if Qeq_bool y 0 then Raise ZeroDivisionError else Ok (Fin (Qred (x / y)%Q))
  | Inf s, Fin y =>
    match (y ?= 0)%Q with
    | Eq => Raise ZeroDivisionError
    | Gt => Ok (Inf s)
    | Lt => Ok (Inf (negb s))
    end
  | Fin _, Inf _ => Ok (Fin 0)
  | Inf _, Inf _ => Ok NaN
  end.


(** Truncation towards zero. *)
Definition trunc (q : Q) : Z := Z.quot (Qnum q) (Zpos (Qden q)).

(** [int(x)] *)
Definition to_int (x : pyfloat) : result Z :=
  match x with
  | Fin q => Ok (trunc q)
  | Inf _ => Raise (OverflowError "cannot convert float infinity to integer")
  | NaN => Raise (ValueError "cannot convert float NaN to integer")
  end.

(** *** Binary64

    A positive rational a is rounded at the exponent [expo a], the one that
    puts a / 2^e in [2^52, 2^53), and not below -1074, where the subnormal
    numbers lie. *)

(** Round to the nearest integer, ties to the even one. *)
Definition rne (x : Q) : Z :=
  let f := Qfloor x in
  match (x - inject_Z f ?= 1 # 2)%Q with
  | Lt => f
  | Gt => (f + 1)%Z
  | Eq => if Z.even f then f else (f + 1)%Z
  end.

(** floor(log2 a) for a > 0. *)
Definition ilog2 (a : Q) : Z :=
  let k := (Z.log2 (Qnum a) - Z.log2 (Zpos (Qden a)))%Z in
  if Qle_bool (2 ^ k) a then k else (k - 1)%Z.

Definition expo (a : Q) : Z := Z.max (ilog2 a - 52) (-1074).

(** The nearest multiple of 2^[expo a] to a > 0. *)
Definition mag (a : Q) : Q :=
  (inject_Z (rne (a * 2 ^ (- expo a))) * 2 ^ expo a)%Q.

(** Rounding of a > 0: what reaches 2^1024 is an infinity. *)
Definition round_pos (a : Q) : pyfloat :=
  if Qle_bool (2 ^ 1024) (mag a) then Inf false else Fin (Qred (mag a)).

(** The binary64 value nearest to q. *)
Definition round64 (q : Q) : pyfloat :=
  match (q ?= 0)%Q with
  | Eq => Fin 0
  | Gt => round_pos q
  | Lt => fneg (round_pos (- q))
  end.

(** An exact result, rounded. *)
Definition rounded (x : pyfloat) : pyfloat :=
  match x with
  | Fin q => round64 q
  | Inf s => Inf s
  | NaN => NaN
  end.

(** [a + b], [a - b], [a * b] and [a / b] as the interpreter computes
    them. *)
Definition add64 (a b : pyfloat) : pyfloat := rounded (fadd a b).
Definition sub64 (a b : pyfloat) : pyfloat := rounded (fsub a b).
Definition mul64 (a b : pyfloat) : pyfloat := rounded (fmul a b).
Definition div64 (a b : pyfloat) : result pyfloat :=
  rbind (fdiv a b) (fun x => Ok (rounded x)).

(** [a <= b] *)
Definition fle (a b : pyfloat) : Prop :=
  match a, b with
  | NaN, _ | _, NaN => False
  | Inf true, _ => True
  | _, Inf false => True
  | Fin x, Fin y => (x <= y)%Q
  | Fin _, Inf true => False
  | Inf false, _ => False
  end.

(** *** [float(s)] for an ASCII string

    [floatvalue ::= [sign] (floatnumber | "inf" | "infinity" | "nan")],
    [floatnumber ::= number [exponent]],
    [number ::= [digitpart] "." digitpart | digitpart ["."]],
    [digitpart ::= digit (["_"] digit)*], between optional white space.
    The result is the binary64 value nearest to the number written. *)

Definition is_space (c : ascii) : bool :=
  let n := nat_of_ascii c in
  ((9 <=? n) && (n <=? 13) || (n =? 32))%nat.

Definition digit_of (c : ascii) : option Z :=
  let n := Z.of_nat (nat_of_ascii c) in
  if ((48 <=? n) && (n <=? 57))%Z then Some (n - 48)%Z else None.

Definition lower (c : ascii) : ascii :=
  let n := nat_of_ascii c in
  if ((65 <=? n) && (n <=? 90))%nat then ascii_of_nat (n + 32) else c.

Fixpoint lstrip (s : list ascii) : list ascii :=
  match s with
  | c :: s' => if is_space c then lstrip s' else s
  | [] => []
  end.

Definition strip (s : list ascii) : list ascii :=
  rev (lstrip (rev (lstrip s))).

(** The digits after the first one: value so far, digits read, rest. *)
Fixpoint more_digits (s : list ascii) (acc : Z) (count : nat)
  : Z * nat * list ascii :=
  match s with
  | [] => (acc, count, [])
  | c :: s' =>
    match digit_of c with
    | Some d => more_digits s' (10 * acc + d)%Z (S count)
    | None =>
      if Ascii.eqb c "_"%char then
        match s' with
        | [] => (acc, count, s)
        | c' :: s'' =>
          match digit_of c' with
          | Some d => more_digits s'' (10 * acc + d)%Z (S count)
          | None => (acc, count, s)
          end
        end
      else (acc, count, s)
    end
  end.

Definition digitpart (s : list ascii) : option (Z * nat * list ascii) :=
  match s with
  | [] => None
  | c :: s' =>
    match digit_of c with
    | Some d => Some (more_digits s' d 1%nat)
    | None => None
    end
  end.

Definition take_sign (s : list ascii) : bool * list ascii :=
  match s with
  | c :: s' =>
    if Ascii.eqb c "-"%char then (true, s')
    else if Ascii.eqb c "+"%char then (false, s')
    else (false, s)
  | [] => (false, [])
  end.

Definition pow10 (n : nat) : Z := (10 ^ Z.of_nat n)%Z.

Definition number (s : list ascii) : option (Q * list ascii) :=
  match digitpart s with
  | Some (ip, _, r) =>
    match r with
    | c :: r' =>
      if Ascii.eqb c "."%char then
        match digitpart r' with
        | Some (fp, n, r'') =>
          Some ((inject_Z (ip * pow10 n + fp) / inject_Z (pow10 n))%Q, r'')
        | None => Some (inject_Z ip, r')
        end
      else Some (inject_Z ip, r)
    | [] => Some (inject_Z ip, [])
    end
  | None =>
    match s with
    | c :: r' =>
      if Ascii.eqb c "."%char then
        match digitpart r' with
        | Some (fp, n, r'') => Some ((inject_Z fp / inject_Z (pow10 n))%Q, r'')
        | None => None
        end
      else None
    | [] => None
    end
  end.

Definition floatnumber (s : list ascii) : option Q :=
  match number s with
  | Some (m, []) => Some m
  | Some (m, c :: r) =>
    if Ascii.eqb (lower c) "e"%char then
      let (negative, r') := take_sign r in
      match digitpart r' with
      | Some (e, _, []) => Some (m * 10 ^ (if negative then - e else e)%Z)%Q
      | _ => None
      end
    else None
  | None => None
  end.

Definition float (s : string) : result pyfloat :=
  let (negative, body) := take_sign (strip (list_ascii_of_string s)) in
  let word := string_of_list_ascii (map lower body) in
  if String.eqb word "inf" || String.eqb word "infinity" then Ok (Inf negative)
  else if String.eqb word "nan" then Ok NaN
  else
    match floatnumber body with
    | Some q => Ok (round64 (if negative then (- q)%Q else q))
    | None => Raise (ValueError "could not convert string to float")
    end.

End PyFloat.

(** ** The interpolator (app.py, lines 214-233)

    [make_interpolator] and [volume_scaler] are the factory and the volume
    interpolator in exact rational arithmetic; [make_interpolator_binary64]
    and [volume_scaler_binary64] are the same with every operation rounded,
    as the interpreter runs them, and are what the bridge calls. *)

Definition make_interpolator (left_min left_max right_min right_max : pyfloat)
  : result (pyfloat -> pyfloat) :=
  let leftSpan := PyFloat.fsub left_max left_min in
  let rightSpan := PyFloat.fsub right_max right_min in
  rbind (PyFloat.fdiv rightSpan leftSpan) (fun scaleFactor =>
  let interp_fn := fun value =>
    PyFloat.fadd right_min
      (PyFloat.fmul (PyFloat.fsub value left_min) scaleFactor) in
  Ok interp_fn).

(** [volume_scaler = make_interpolator(-30.0, 0, -0.5, 100.0)]. The
    construction does not raise ([volume_scaler_built] below), so the
    second branch is never taken. *)
Definition volume_scaler : pyfloat -> pyfloat :=
  match make_interpolator (Fin (-30)) (Fin 0) (Fin (-1 # 2)) (Fin 100) with
  | Ok interp_fn => interp_fn
  | Raise _ => fun value => value
  end.

Definition make_interpolator_binary64
  (left_min left_max right_min right_max : pyfloat)
  : result (pyfloat -> pyfloat) :=
  let leftSpan := PyFloat.sub64 left_max left_min in
  let rightSpan := PyFloat.sub64 right_max right_min in
  rbind (PyFloat.div64 rightSpan leftSpan) (fun scaleFactor =>
  let interp_fn := fun value =>
    PyFloat.add64 right_min
      (PyFloat.mul64 (PyFloat.sub64 value left_min) scaleFactor) in
  Ok interp_fn).

(** [volume_scaler = make_interpolator(-30.0, 0, -0.5, 100.0)] as it runs;
    the four bounds are binary64 values and the construction does not
    raise. *)
Definition volume_scaler_binary64 : pyfloat -> pyfloat :=
  match
    make_interpolator_binary64 (Fin (-30)) (Fin 0) (Fin (-1 # 2)) (Fin 100)
  with
  | Ok interp_fn => interp_fn
  | Raise _ => fun value => value
  end.

(** ** The world the handlers act on *)

(** What [socketio.emit] sends as the event's argument. *)
Inductive Payload : Type :=
| PName (name : string)               (* the bare string of a play event *)
| PText (data : string)               (* [{"data": text}] *)
| PPercent (data : Z)                 (* [{"data": int}] *)
| PImage (data mimetype : string).    (* [{"data": b64, "mimetype": mime}] *)

(** A socket.io session id. *)
Definition sid : Type := nat.

(** One call of [SocketIO.emit(event, args, to=...)]. *)
Record Emit : Type := mkEmit {
  event : string;
  args : Payload;
  to : option sid
}.

Record Message : Type := mkMessage {
  topic : string;
  payload : list byte
}.

(** The JSON object a client sends with a request. The handlers only print
    it; [handle_my_custom_event] calls [json.get], which needs an object. *)
Definition Json : Type := list (string * string).

Record World : Type := mkWorld {
  SAVED_INFO : list (string * Payload);   (* the dict of line 47 *)
  emitted : list Emit;                    (* socket.io emits, oldest first *)
  published : list (string * string)      (* MQTT publishes (topic, payload) *)
}.

Module Dict.

(** [d[k] = v]: an existing key keeps its place, a new one goes last. *)
Fixpoint set {V} (d : list (string * V)) (k : string) (v : V)
  : list (string * V) :=
  match d with
  | [] => [(k, v)]
  | (k', v') :: d' =>
    if String.eqb k' k then (k', v) :: d' else (k', v') :: set d' k v
  end.

(** [d.get(k)] *)
Fixpoint get {V} (d : list (string * V)) (k : string) : option V :=
  match d with
  | [] => None
  | (k', v') :: d' => if String.eqb k' k then Some v' else get d' k
  end.

Definition keys {V} (d : list (string * V)) : list string := map fst d.

End Dict.

(** Flask-SocketIO's [SocketIO.emit]: without [to] the event goes to every
    connected client, with [to] to that session only. *)
Definition delivered_to (s : sid) (e : Emit) : bool :=
  match to e with
  | None => true
  | Some target => Nat.eqb target s
  end.

(** What session [s], connected throughout, receives of the emits [es]. *)
Definition inbox (s : sid) (es : list Emit) : list (string * Payload) :=
  map (fun e => (event e, args e)) (filter (delivered_to s) es).

(** ** The handler monad: state and exceptions *)

Definition M (A : Type) : Type := World -> World * result A.

Definition ret {A} (a : A) : M A := fun w => (w, Ok a).

Definition bind {A B} (m : M A) (k : A -> M B) : M B :=
  fun w =>
    match m w with
    | (w', Ok a) => k a w'
    | (w', Raise e) => (w', Raise e)
    end.

Definition lift {A} (r : result A) : M A := fun w => (w, r).

Declare Scope handler_scope.
Delimit Scope handler_scope with handler.
Notation "x <- m ;; k" := (bind m (fun x => k))
  (at level 61, m at next level, right associativity) : handler_scope.
Notation "' pat <- m ;; k" := (bind m (fun x => match x with pat => k end))
  (at level 61, pat pattern, m at next level, right associativity)
  : handler_scope.
Notation "m ;; k" := (bind m (fun _ => k))
  (at level 61, right associativity) : handler_scope.

(** A Python [if] without [else]. *)
Definition when (b : bool) (m : M unit) : M unit :=
  if b then m else ret tt.

(** [for x in xs: body(x)] *)
Fixpoint for_each {A} (xs : list A) (body : A -> M unit) : M unit :=
  match xs with
  | [] => ret tt
  | x :: xs' => bind (body x) (fun _ => for_each xs' body)
  end.

(** [try: body / except ValueError: handler], for a body without effects. *)
Definition try_except_ValueError {A} (body handler : result A) : result A :=
  match body with
  | Ok a => Ok a
  | Raise e => if is_ValueError e then handler else Raise e
  end.

(** [socketio.emit(event, args)]: the source never passes [to]. *)
Definition socketio_emit (ev : string) (msg : Payload) : M unit :=
  fun w =>
    (mkWorld (SAVED_INFO w)
             (emitted w ++ [mkEmit ev msg None])%list
             (published w),
     Ok tt).

(** [SAVED_INFO[key] = msg] *)
Definition SAVED_INFO_set (key : string) (msg : Payload) : M unit :=
  fun w =>
    (mkWorld (Dict.set (SAVED_INFO w) key msg) (emitted w) (published w),
     Ok tt).

(** [mqttc.publish(topic, msg)]: the publish is recorded; what the MQTT
    client library does with it is outside the model. *)
Definition mqttc_publish (tpc msg : string) : M unit :=
  fun w =>
    (mkWorld (SAVED_INFO w) (emitted w) (published w ++ [(tpc, msg)])%list,
     Ok tt).

(** The world at start-up: line 47 sets [SAVED_INFO = {}]. *)
Definition initial_world : World := mkWorld [] [] [].

(** ** The bridge (app.py, lines 53-293 and 362-470) *)

Definition known_play_metadata_types : list (string * string) :=
  [ ("songalbum", "songalbum"); ("volume", "volume");
    ("client_ip", "client_ip"); ("active_start", "active_start");
    ("active_end", "active_end"); ("play_start", "play_start");
    ("play_end", "play_end"); ("play_flush", "play_flush");
    ("play_resume", "play_resume") ].

Definition known_core_metadata_types : list (string * string) :=
  [ ("artist", "showArtist"); ("album", "showAlbum");
    ("title", "showTitle"); ("genre", "showGenre") ].

Definition known_remote_commands : list string :=
  [ "command"; "beginff"; "beginrew"; "mutetoggle"; "nextitem"; "previtem";
    "pause"; "playpause"; "play"; "stop"; "playresume"; "shuffle_songs";
    "volumedown"; "volumeup" ].

Definition _guessImageMime (magic : list byte) : string :=
  if PyBytes.startswith magic [xff; xd8] then "image/jpeg"
  else if PyBytes.startswith magic [x89; x50; x4e; x47; x0d; x0a; x1a; x0d]
  then "image/png"
  else "image/jpg".

Definition default_image_mime_type : string := "image/png".

(** [(a, b, c, d) = fields] *)
Definition unpack4 (fields : list string)
  : result (string * string * string * string) :=
  match fields with
  | [a; b; c; d] => Ok (a, b, c, d)
  | _ =>
    if (List.length fields <? 4)%nat
    then Raise (ValueError
                  ("not enough values to unpack (expected 4, got "
                   ++ PyStr.of_nat (List.length fields) ++ ")"))
    else Raise (ValueError "too many values to unpack (expected 4)")
  end.

(** ** Vocabulary of the statements *)

(** The subtopics [on_message] has a branch for, by strategy. *)
Definition text_subtopics : list string :=
  ["artist"; "album"; "genre"; "title"].

Definition play_subtopics : list string :=
  ["play_start"; "play_end"; "play_flush"; "play_resume"].

Definition handled_subtopics : list string :=
  (text_subtopics ++ play_subtopics ++ ["volume"; "cover"])%list.

(** The keys of [known_play_metadata_types] that carry text and that
    [on_message] has no branch for; [on_connect] subscribes to them. *)
Definition unhandled_text_subtopics : list string :=
  ["songalbum"; "client_ip"; "active_start"; "active_end"].

(** The socket.io event name a handled subtopic is sent under. *)
Definition emitted_name_of (subtopic : string) : string :=
  if PyStr.mem subtopic text_subtopics then "playing_" ++ subtopic
  else if String.eqb subtopic "cover" then "cover_art"
  else subtopic.

(** The handled subtopics whose event is also stored, and those whose event
    is only sent. *)
Definition caching_subtopics : list string :=
  (text_subtopics ++ ["cover"])%list.

Definition transient_subtopics : list string :=
  (play_subtopics ++ ["volume"])%list.

(** The event names [on_message] stores in [SAVED_INFO]. *)
Definition cached_kinds : list string :=
  ["playing_artist"; "playing_album"; "playing_genre"; "playing_title";
   "cover_art"].

(** The thirteen remote requests of a client and the token each handler
    passes to [_generate_remote_command]. *)
Definition remote_requests : list (string * string) :=
  [ ("remote_previtem", "previtem"); ("remote_nextitem", "nextitem");
    ("remote_stop", "stop"); ("remote_pause", "pause");
    ("remote_playpause", "playpause"); ("remote_play", "play");
    ("remote_playresume", "playresume"); ("remote_mutetoggle", "mutetoggle");
    ("remote_volumedown", "volumedown"); ("remote_volumeup", "volumeup");
    ("remote_beginrew", "beginrew"); ("remote_beginff", "beginff");
    ("remote_shuffle_songs", "shuffle_songs") ].

(** The signatures [_guessImageMime] looks for. *)
Definition jpeg_magic : list byte := [xff; xd8].
Definition png_magic : list byte :=
  [x89; x50; x4e; x47; x0d; x0a; x1a; x0d].

(** A configuration for the concrete runs: a topic root, a stand-in for
    the octets of the default image, and a message builder. *)
Definition demo_root : string := "shairport-sync/rpih1".

Definition demo_image : list byte := [x89; x50; x4e; x47].

Definition demo_message (subtopic text : string) : Message :=
  mkMessage (demo_root ++ "/" ++ subtopic) (list_byte_of_string text).

(** ** The web UI configuration (app.py, lines 76-118) *)

(** A value of [config.yaml] as [yaml.safe_load] returns it: [None], a
    [bool], an [int], a [float], a [str], the [bytes] of a binary scalar,
    the [date] or [datetime] of a timestamp (kept as its text), a [list], a
    [dict] (mapping keys are strings) or the [set] of a set node (its
    elements in the order the loop meets them). The pairs that the tags
    omap and pairs produce as list elements are left out. *)
#[warnings="-register-all"] Inductive YamlVal : Type :=
| YNull
| YBool (b : bool)
| YInt (n : Z)
| YFloat (x : pyfloat)
| YStr (s : string)
| YBytes (octets : list byte)
| YDate (iso : string)
| YList (items : list YamlVal)
| YDict (entries : list (string * YamlVal))
| YSet (elements : list YamlVal).

Definition Conf : Type := list (string * YamlVal).

(** The truth value an [if] gives a value. *)
Definition truthy (v : YamlVal) : bool :=
  match v with
  | YNull => false
  | YBool b => b
  | YInt n => negb (n =? 0)%Z
  | YFloat (Fin q) => negb (Qeq_bool q 0)
  | YFloat _ => true
  | YStr s => negb (String.eqb s "")
  | YBytes octets => match octets with [] => false | _ :: _ => true end
  | YDate _ => true
  | YList items => match items with [] => false | _ :: _ => true end
  | YDict entries => match entries with [] => false | _ :: _ => true end
  | YSet elements => match elements with [] => false | _ :: _ => true end
  end.

(** [config.get(key, default)]: a key that is present wins, whatever its
    value, [null] included. *)
Definition conf_get (config : Conf) (key : string) (default : YamlVal)
  : YamlVal :=
  match Dict.get config key with
  | Some v => v
  | None => default
  end.

(** The outcome of reading the configuration: a value or a [TypeError]. *)
Inductive loaded (A : Type) : Type :=
| Loaded (a : A)
| TypeError (reason : string).
Arguments Loaded {A} a.
Arguments TypeError {A} reason.

(** [for x in v]: the elements of a sequence or of a set, the characters of
    a string (here its octets, which makes no difference to a comparison
    with the keys of [known_core_metadata_types]), the octets of a binary
    value as integers, the keys of a mapping; any other value is not
    iterable. *)
Definition iterate (v : YamlVal) : loaded (list YamlVal) :=
  match v with
  | YList items => Loaded items
  | YSet elements => Loaded elements
  | YStr s => Loaded (map (fun c => YStr (String c "")) (list_ascii_of_string s))
  | YBytes octets =>
    Loaded (map (fun b => YInt (Z.of_N (Byte.to_N b))) octets)
  | YDict entries => Loaded (map (fun e => YStr (fst e)) entries)
  | YNull | YBool _ | YInt _ | YFloat _ | YDate _ =>
    TypeError "object is not iterable"
  end.

(** [x in d] for a dict with string keys: a sequence, a mapping or a set
    cannot be hashed; a scalar that is not a string equals no key. *)
Definition in_dict {V} (x : YamlVal) (d : list (string * V)) : loaded bool :=
  match x with
  | YStr s => Loaded (PyStr.mem s (Dict.keys d))
  | YList _ | YDict _ | YSet _ => TypeError "unhashable type"
  | YNull | YBool _ | YInt _ | YFloat _ | YBytes _ | YDate _ => Loaded false
  end.

(** [if config.get(key, default): templateData[name] = True] *)
Definition flag (config : Conf) (key : string) (default : bool)
  (name : string) (templateData : list (string * bool))
  : list (string * bool) :=
  if truthy (conf_get config key (YBool default))
  then Dict.set templateData name true
  else templateData.

(** The loop over [metadata_types]. *)
Fixpoint add_metadata_types (metadata_types : list YamlVal)
  (templateData : list (string * bool)) : loaded (list (string * bool)) :=
  match metadata_types with
  | [] => Loaded templateData
  | metadata_type :: rest =>
    match in_dict metadata_type known_core_metadata_types with
    | TypeError reason => TypeError reason
    | Loaded false => add_metadata_types rest templateData
    | Loaded true =>
      match metadata_type with
      | YStr name =>
        match Dict.get known_core_metadata_types name with
        | Some shown => add_metadata_types rest (Dict.set templateData shown true)
        | None => add_metadata_types rest templateData
        end
      | _ => add_metadata_types rest templateData
      end
    end
  end.

Definition default_track_metadata : YamlVal :=
  YList [YStr "artist"; YStr "album"; YStr "title"].

Definition populateTemplateData (config : Conf)
  : loaded (list (string * bool)) :=
  let templateData := [] in
  let templateData :=
    if truthy (conf_get config "show_player" (YBool true)) then
      let templateData := Dict.set templateData "showPlayer" true in
      let templateData :=
        flag config "show_player_extended" false "showPlayerExtended"
             templateData in
      let templateData :=
        flag config "show_player_shuffle" false "showPlayerShuffle"
             templateData in
      let templateData :=
        flag config "show_player_seeking" false "showPlayerSeeking"
             templateData in
      flag config "show_player_stop" false "showPlayerStop" templateData
    else templateData in
  let templateData := flag config "show_canvas" false "showCanvas" templateData in
  let templateData :=
    flag config "show_update_info" true "showUpdateInfo" templateData in
  let templateData := flag config "show_artwork" true "showCoverArt" templateData in
  let templateData :=
    flag config "artwork_rounded_corners" false "showCoverArtRoundedCorners"
         templateData in
  if truthy (conf_get config "show_track_metadata" (YBool true)) then
    match iterate (conf_get config "track_metadata" default_track_metadata) with
    | Loaded metadata_types => add_metadata_types metadata_types templateData
    | TypeError reason => TypeError reason
    end
  else Loaded templateData.

(** [templateData.get(name)] as a condition: [True] or the missing [None]. *)
Definition shown (templateData : list (string * bool)) (name : string) : bool :=
  match Dict.get templateData name with
  | Some b => b
  | None => false
  end.

(** The part of [populateTemplateData] before the loop. *)
Definition template_flags (config : Conf) : list (string * bool) :=
  let templateData := [] in
  let templateData :=
    if truthy (conf_get config "show_player" (YBool true)) then
      let templateData := Dict.set templateData "showPlayer" true in
      let templateData :=
        flag config "show_player_extended" false "showPlayerExtended"
             templateData in
      let templateData :=
        flag config "show_player_shuffle" false "showPlayerShuffle"
             templateData in
      let templateData :=
        flag config "show_player_seeking" false "showPlayerSeeking"
             templateData in
      flag config "show_player_stop" false "showPlayerStop" templateData
    else templateData in
  let templateData := flag config "show_canvas" false "showCanvas" templateData in
  let templateData :=
    flag config "show_update_info" true "showUpdateInfo" templateData in
  let templateData := flag config "show_artwork" true "showCoverArt" templateData in
  flag config "artwork_rounded_corners" false "showCoverArtRoundedCorners"
       templateData.

(** Every key [populateTemplateData] can set. *)
Definition template_keys : list string :=
  ["showPlayer"; "showPlayerExtended"; "showPlayerShuffle";
   "showPlayerSeeking"; "showPlayerStop"; "showCanvas"; "showUpdateInfo";
   "showCoverArt"; "showCoverArtRoundedCorners"; "showArtist"; "showAlbum";
   "showTitle"; "showGenre"].

(** What every step of [populateTemplateData] keeps: values are [True],
    keys are distinct and among [template_keys]. *)
Definition well_formed_template (td : list (string * bool)) : Prop :=
  (forall k b, In (k, b) td -> b = true)
  /\ NoDup (Dict.keys td)
  /\ incl (Dict.keys td) template_keys.

(** The values [in_dict] cannot hash. *)
Definition unhashable (x : YamlVal) : bool :=
  match x with
  | YList _ | YDict _ | YSet _ => true
  | _ => false
  end.

(** The configuration keys the flags are read from. *)
Definition flag_config_keys : list string :=
  ["show_player"; "show_player_extended"; "show_player_shuffle";
   "show_player_seeking"; "show_player_stop"; "show_canvas";
   "show_update_info"; "show_artwork"; "artwork_rounded_corners";
   "show_track_metadata"; "track_metadata"].

(** The signature a PNG file really starts with: its last octet is 0A where
    [_guessImageMime] has 0D. *)
Definition png_file_signature : list byte :=
  [x89; x50; x4e; x47; x0d; x0a; x1a; x0a].

(** Membership in a list given by its elements. *)
Ltac in_list := repeat first [left; reflexivity | right].

Section Bridge.

Local Open Scope handler_scope.

(** Configuration read at start-up: the topic root of [config.yaml], the
    octets of [static/img/default.png] and the [show_artwork] switch. *)
Variable TOPIC_ROOT : string.
Variable default_image_octets : list byte.
Variable show_artwork : bool.

Definition default_image_b64_str : string :=
  PyBytes.b64encode default_image_octets.

Definition _form_subtopic_topic (subtopic : string) : string :=
  TOPIC_ROOT ++ "/" ++ subtopic.

Definition _generate_remote_command (command : string)
  : result (string * string) :=
  if PyStr.mem command known_remote_commands then
    let tpc := TOPIC_ROOT ++ "/remote" in
    let msg := command in
    Ok (tpc, msg)
  else Raise (ValueError ("Unknown remote command: " ++ command)).

(** The topics [on_connect] subscribes to, in order. *)
Definition on_connect : list string :=
  let subtopic_list :=
    (Dict.keys known_core_metadata_types
     ++ Dict.keys known_play_metadata_types)%list in
  let subtopic_list :=
    if show_artwork then (subtopic_list ++ ["cover"])%list
    else subtopic_list in
  map _form_subtopic_topic subtopic_list.

Definition _send_and_store_playing_metadata
  (metadata_name : string) (message : Message) : M unit :=
  text <- lift (PyBytes.decode_utf8 (payload message)) ;;
  let msg := PText text in
  let emitted_metadata_name := "playing_" ++ metadata_name in
  SAVED_INFO_set emitted_metadata_name msg ;;
  socketio_emit emitted_metadata_name msg.

Definition _send_play_event (metadata_name : string) : M unit :=
  socketio_emit metadata_name (PName metadata_name).

(** The tuple assignment comes before the [try]; [int] comes after it. *)
Definition _send_volume_event
  (metadata_name : string) (message : Message) : M unit :=
  text <- lift (PyBytes.decode_ascii (payload message)) ;;
  ' (airplay_volume, volume, lowest_volume, highest_volume) <-
    lift (unpack4 (PyStr.split_comma text)) ;;
  volume_as_percent <-
    lift (try_except_ValueError
            (rbind (PyFloat.float airplay_volume)
               (fun airplay_volume_float =>
                  Ok (volume_scaler_binary64 airplay_volume_float)))
            (Ok (Fin 50))) ;;
  data <- lift (PyFloat.to_int volume_as_percent) ;;
  socketio_emit metadata_name (PPercent data).

(** The callback for a broker message: ten [if] statements in sequence,
    each comparing [message.topic] with one full topic. *)
Definition on_message (message : Message) : M unit :=
  let topic_is (subtopic : string) :=
    String.eqb (topic message) (_form_subtopic_topic subtopic) in
  when (topic_is "artist") (_send_and_store_playing_metadata "artist" message) ;;
  when (topic_is "album") (_send_and_store_playing_metadata "album" message) ;;
  when (topic_is "genre") (_send_and_store_playing_metadata "genre" message) ;;
  when (topic_is "title") (_send_and_store_playing_metadata "title" message) ;;
  when (topic_is "play_start") (_send_play_event "play_start") ;;
  when (topic_is "play_end") (_send_play_event "play_end") ;;
  when (topic_is "play_flush") (_send_play_event "play_flush") ;;
  when (topic_is "play_resume") (_send_play_event "play_resume") ;;
  when (topic_is "volume") (_send_volume_event "volume" message) ;;
  when (topic_is "cover")
    (let '(mime_type, image_b64_str) :=
       match payload message with
       | _ :: _ =>
         (_guessImageMime (payload message),
          PyBytes.b64encode (payload message))
       | [] => (default_image_mime_type, default_image_b64_str)
       end in
     let msg := PImage image_b64_str mime_type in
     SAVED_INFO_set "cover_art" msg ;;
     socketio_emit "cover_art" msg).

(** The handler of the client request [myevent]. *)
Definition handle_my_custom_event (json : Json) : M unit :=
  fun w =>
    for_each (SAVED_INFO w) (fun '(key, msg) => socketio_emit key msg) w.

Definition handle_previtem (json : Json) : M unit :=
  ' (tpc, msg) <- lift (_generate_remote_command "previtem") ;;
  mqttc_publish tpc msg.

Definition handle_nextitem (json : Json) : M unit :=
  ' (tpc, msg) <- lift (_generate_remote_command "nextitem") ;;
  mqttc_publish tpc msg.

Definition handle_stop (json : Json) : M unit :=
  ' (tpc, msg) <- lift (_generate_remote_command "stop") ;;
  mqttc_publish tpc msg.

Definition handle_pause (json : Json) : M unit :=
  ' (tpc, msg) <- lift (_generate_remote_command "pause") ;;
  mqttc_publish tpc msg.

Definition handle_playpause (json : Json) : M unit :=
  ' (tpc, msg) <- lift (_generate_remote_command "playpause") ;;
  mqttc_publish tpc msg.

Definition handle_play (json : Json) : M unit :=
  ' (tpc, msg) <- lift (_generate_remote_command "play") ;;
  mqttc_publish tpc msg.

Definition handle_playresume (json : Json) : M unit :=
  ' (tpc, msg) <- lift (_generate_remote_command "playresume") ;;
  mqttc_publish tpc msg.

Definition handle_mutetoggle (json : Json) : M unit :=
  ' (tpc, msg) <- lift (_generate_remote_command "mutetoggle") ;;
  mqttc_publish tpc msg.

Definition handle_volumedown (json : Json) : M unit :=
  ' (tpc, msg) <- lift (_generate_remote_command "volumedown") ;;
  mqttc_publish tpc msg.

Definition handle_volumeup (json : Json) : M unit :=
  ' (tpc, msg) <- lift (_generate_remote_command "volumeup") ;;
  mqttc_publish tpc msg.

Definition handle_beginrew (json : Json) : M unit :=
  ' (tpc, msg) <- lift (_generate_remote_command "beginrew") ;;
  mqttc_publish tpc msg.

Definition handle_beginff (json : Json) : M unit :=
  ' (tpc, msg) <- lift (_generate_remote_command "beginff") ;;
  mqttc_publish tpc msg.

Definition handle_shuffle_songs (json : Json) : M unit :=
  ' (tpc, msg) <- lift (_generate_remote_command "shuffle_songs") ;;
  mqttc_publish tpc msg.

(** The registry the [@socketio.on(name)] decorators fill. *)
Definition socketio_handlers : list (string * (Json -> M unit)) :=
  [ ("myevent", handle_my_custom_event);
    ("remote_previtem", handle_previtem);
    ("remote_nextitem", handle_nextitem);
    ("remote_stop", handle_stop);
    ("remote_pause", handle_pause);
    ("remote_playpause", handle_playpause);
    ("remote_play", handle_play);
    ("remote_playresume", handle_playresume);
    ("remote_mutetoggle", handle_mutetoggle);
    ("remote_volumedown", handle_volumedown);
    ("remote_volumeup", handle_volumeup);
    ("remote_beginrew", handle_beginrew);
    ("remote_beginff", handle_beginff);
    ("remote_shuffle_songs", handle_shuffle_songs) ].

(** What reaches the process: a broker message, or a request [name] with
    argument [json] from the client session [from]. No handler reads the
    session id of the request it serves. *)
Inductive Input : Type :=
| Mqtt (message : Message)
| Client (from : sid) (name : string) (json : Json).

Definition dispatch (i : Input) : M unit :=
  match i with
  | Mqtt message => on_message message
  | Client _ name json =>
    match Dict.get socketio_handlers name with
    | Some handler => handler json
    | None => ret tt
    end
  end.

(** The world after one input; an exception ends that handler only. *)
Definition step (w : World) (i : Input) : World := fst (dispatch i w).

Definition run (w : World) (inputs : list Input) : World :=
  fold_left step inputs w.

(** The emits a handler adds to the world. *)
Definition new_emits (before after : World) : list Emit :=
  skipn (List.length (emitted before)) (emitted after).

(** The branch of [on_message] that a message on [root/subtopic] takes: the
    sequence of [if] statements read as one dispatch on the subtopic. *)
Definition branch_of (subtopic : string) (message : Message) : M unit :=
  if PyStr.mem subtopic text_subtopics
  then _send_and_store_playing_metadata subtopic message
  else if PyStr.mem subtopic play_subtopics
  then _send_play_event subtopic
  else if String.eqb subtopic "volume"
  then _send_volume_event "volume" message
  else if String.eqb subtopic "cover"
  then
    (let '(mime_type, image_b64_str) :=
       match payload message with
       | _ :: _ =>
         (_guessImageMime (payload message),
          PyBytes.b64encode (payload message))
       | [] => (default_image_mime_type, default_image_b64_str)
       end in
     let msg := PImage image_b64_str mime_type in
     SAVED_INFO_set "cover_art" msg ;;
     socketio_emit "cover_art" msg)
  else ret tt.

(** The world after an event was stored under [key] and sent. *)
Definition stored_and_sent (w : World) (key : string) (msg : Payload) : World :=
  mkWorld (Dict.set (SAVED_INFO w) key msg)
          (emitted w ++ [mkEmit key msg None])%list
          (published w).

(** The world after an event was sent without being stored. *)
Definition sent_only (w : World) (ev : string) (msg : Payload) : World :=
  mkWorld (SAVED_INFO w) (emitted w ++ [mkEmit ev msg None])%list (published w).

(** The replay request of a client. *)
Definition replay_request (from : sid) (json : Json) : Input :=
  Client from "myevent" json.

(** What handling one broker message does to the world: nothing (no branch,
    or an exception before any effect), an event stored and sent, or an
    event sent only. *)
Inductive Effect (w : World) (message : Message) : World -> Prop :=
| Nothing : Effect w message w
| Stored (subtopic : string) (v : Payload) :
    In subtopic caching_subtopics ->
    topic message = _form_subtopic_topic subtopic ->
    Effect w message (stored_and_sent w (emitted_name_of subtopic) v)
| Sent (subtopic : string) (v : Payload) :
    In subtopic transient_subtopics ->
    topic message = _form_subtopic_topic subtopic ->
    Effect w message (sent_only w subtopic v).

(** The emits of a replay of the cache [d]. *)
Definition replay_emits (d : list (string * Payload)) : list Emit :=
  map (fun '(key, msg) => mkEmit key msg None) d.

(** The computation of [_send_volume_event] up to the value it sends: the
    effect-free part of its body. *)
Definition volume_data (message : Message) : result Z :=
  rbind (PyBytes.decode_ascii (payload message)) (fun text =>
  rbind (unpack4 (PyStr.split_comma text))
    (fun '(airplay_volume, volume, lowest_volume, highest_volume) =>
  rbind (try_except_ValueError
           (rbind (PyFloat.float airplay_volume)
              (fun airplay_volume_float =>
                 Ok (volume_scaler_binary64 airplay_volume_float)))
           (Ok (Fin 50)))
    PyFloat.to_int)).

(** The event the cover branch of [on_message] builds. *)
Definition cover_art_msg (message : Message) : Payload :=
  match payload message with
  | _ :: _ =>
    PImage (PyBytes.b64encode (payload message))
           (_guessImageMime (payload message))
  | [] => PImage default_image_b64_str default_image_mime_type
  end.


(** [on_connect] with the switch it really reads: the [showCoverArt] entry
    of [populateTemplateData(WEBUI_CONF)]. *)
Definition on_connect_from (WEBUI_CONF : Conf) : loaded (list string) :=
  let subtopic_list :=
    (Dict.keys known_core_metadata_types
     ++ Dict.keys known_play_metadata_types)%list in
  match populateTemplateData WEBUI_CONF with
  | TypeError reason => TypeError reason
  | Loaded templateData =>
    let subtopic_list :=
      if shown templateData "showCoverArt"
      then (subtopic_list ++ ["cover"])%list
      else subtopic_list in
    Loaded (map _form_subtopic_topic subtopic_list)
  end.

(** What one input makes the bridge publish to the broker. *)
Definition publishes_of (i : Input) : list (string * string) :=
  match i with
  | Mqtt _ => []
  | Client _ name _ =>
    match Dict.get remote_requests name with
    | Some token => [(TOPIC_ROOT ++ "/remote", token)]
    | None => []
    end
  end.

(** * Properties *)

(** ** Strings, lists and dictionaries *)

Lemma append_cancel_l (r a b : string) : r ++ a = r ++ b -> a = b.
Proof.
  induction r as [|c r IH]; simpl; intros H.
  - exact H.
  - injection H as H. auto.
Qed.

Lemma subtopic_topic_inj (a b : string) :
  _form_subtopic_topic a = _form_subtopic_topic b -> a = b.
Proof.
  unfold _form_subtopic_topic. intros H.
  apply append_cancel_l in H. apply append_cancel_l in H. exact H.
Qed.

Lemma subtopic_topic_eqb (a b : string) :
  String.eqb (_form_subtopic_topic a) (_form_subtopic_topic b)
  = String.eqb a b.
Proof.
  destruct (String.eqb_spec a b) as [->|Hne].
  - apply String.eqb_refl.
  - apply String.eqb_neq. intros H. apply Hne, subtopic_topic_inj, H.
Qed.

Lemma skipn_length_app {A} (l l' : list A) :
  skipn (List.length l) (l ++ l')%list = l'.
Proof. induction l; simpl; auto. Qed.

Lemma skipn_length_all {A} (l : list A) : skipn (List.length l) l = [].
Proof. induction l; simpl; auto. Qed.

Lemma Dict_get_set_same {V} (d : list (string * V)) k v :
  Dict.get (Dict.set d k v) k = Some v.
Proof.
  induction d as [|[k' v'] d IH]; simpl.
  - now rewrite String.eqb_refl.
  - destruct (String.eqb k' k) eqn:E; simpl; rewrite E; auto.
Qed.

Lemma Dict_get_set_other {V} (d : list (string * V)) k k' v :
  k <> k' -> Dict.get (Dict.set d k v) k' = Dict.get d k'.
Proof.
  intros Hne. induction d as [|[k0 v0] d IH]; simpl.
  - apply String.eqb_neq in Hne. now rewrite Hne.
  - destruct (String.eqb_spec k0 k) as [->|Hk]; simpl.
    + apply String.eqb_neq in Hne. now rewrite Hne.
    + now rewrite IH.
Qed.

Lemma Dict_keys_set_in {V} (d : list (string * V)) k v x :
  In x (Dict.keys (Dict.set d k v)) -> x = k \/ In x (Dict.keys d).
Proof.
  induction d as [|[k0 v0] d IH]; simpl.
  - intros [<-|[]]. now left.
  - destruct (String.eqb_spec k0 k) as [->|Hk]; simpl.
    + intros [<-|H]; auto.
    + intros [<-|H]; auto. destruct (IH H); auto.
Qed.

Lemma Dict_keys_set_NoDup {V} (d : list (string * V)) k v :
  NoDup (Dict.keys d) -> NoDup (Dict.keys (Dict.set d k v)).
Proof.
  induction d as [|[k0 v0] d IH]; simpl; intros H.
  - constructor; [intros []|constructor].
  - inversion H as [|? ? Hnotin Hnd]; subst.
    destruct (String.eqb_spec k0 k) as [->|Hk]; simpl.
    + now constructor.
    + constructor; auto.
      intros Hin. apply Dict_keys_set_in in Hin. destruct Hin as [->|Hin]; auto.
Qed.

Lemma Dict_get_None_filter {V} (d : list (string * V)) k :
  ~ In k (Dict.keys d) ->
  filter (fun e => String.eqb (fst e) k) d = [].
Proof.
  induction d as [|[k0 v0] d IH]; simpl; intros H; auto.
  destruct (String.eqb_spec k0 k) as [->|Hk].
  - exfalso. apply H. now left.
  - apply IH. intros Hin. apply H. now right.
Qed.

(** With unique keys the entries under [k] are the one [get] finds. *)
Lemma Dict_get_filter {V} (d : list (string * V)) k v :
  NoDup (Dict.keys d) -> Dict.get d k = Some v ->
  filter (fun e => String.eqb (fst e) k) d = [(k, v)].
Proof.
  induction d as [|[k0 v0] d IH]; simpl; intros Hnd Hget.
  - discriminate.
  - inversion Hnd as [|? ? Hnotin Hnd']; subst.
    destruct (String.eqb_spec k0 k) as [->|Hk].
    + injection Hget as ->. f_equal. now apply Dict_get_None_filter.
    + now apply IH.
Qed.

Lemma Dict_get_None_notin {V} (d : list (string * V)) k :
  Dict.get d k = None <-> ~ In k (Dict.keys d).
Proof.
  induction d as [|[k0 v0] d IH]; simpl.
  - split; auto.
  - destruct (String.eqb_spec k0 k) as [->|Hk].
    + split; [discriminate|]. intros H. exfalso. apply H. now left.
    + rewrite IH. split; intros H; [intros [?|?]; [contradiction|auto]|auto].
Qed.

(** ** The handler monad *)

Lemma bind_ret_tt (m : M unit) (w : World) :
  bind m (fun _ => ret tt) w = m w.
Proof. unfold bind, ret. destruct (m w) as [w' [[]|e]]; reflexivity. Qed.

(** ** [on_message] as a dispatch on the subtopic *)

Lemma on_message_branch (subtopic : string) (message : Message) (w : World) :
  topic message = _form_subtopic_topic subtopic ->
  on_message message w = branch_of subtopic message w.
Proof.
  intros Htopic. unfold on_message, branch_of. rewrite Htopic.
  rewrite !subtopic_topic_eqb.
  unfold PyStr.mem, text_subtopics, play_subtopics, existsb.
  destruct (String.eqb_spec subtopic "artist") as [->|?];
    [cbn [String.eqb Ascii.eqb Bool.eqb orb when]; apply bind_ret_tt|].
  destruct (String.eqb_spec subtopic "album") as [->|?];
    [cbn [String.eqb Ascii.eqb Bool.eqb orb when]; apply bind_ret_tt|].
  destruct (String.eqb_spec subtopic "genre") as [->|?];
    [cbn [String.eqb Ascii.eqb Bool.eqb orb when]; apply bind_ret_tt|].
  destruct (String.eqb_spec subtopic "title") as [->|?];
    [cbn [String.eqb Ascii.eqb Bool.eqb orb when]; apply bind_ret_tt|].
  destruct (String.eqb_spec subtopic "play_start") as [->|?];
    [cbn [String.eqb Ascii.eqb Bool.eqb orb when]; reflexivity|].
  destruct (String.eqb_spec subtopic "play_end") as [->|?];
    [cbn [String.eqb Ascii.eqb Bool.eqb orb when]; reflexivity|].
  destruct (String.eqb_spec subtopic "play_flush") as [->|?];
    [cbn [String.eqb Ascii.eqb Bool.eqb orb when]; reflexivity|].
  destruct (String.eqb_spec subtopic "play_resume") as [->|?];
    [cbn [String.eqb Ascii.eqb Bool.eqb orb when]; reflexivity|].
  destruct (String.eqb_spec subtopic "volume") as [->|?];
    [cbn [String.eqb Ascii.eqb Bool.eqb orb when]; apply bind_ret_tt|].
  destruct (String.eqb_spec subtopic "cover") as [->|?];
    [cbn [String.eqb Ascii.eqb Bool.eqb orb when]; reflexivity|].
  reflexivity.
Qed.


Lemma on_message_unhandled (message : Message) (w : World) :
  (forall subtopic, In subtopic handled_subtopics ->
                    topic message <> _form_subtopic_topic subtopic) ->
  on_message message w = (w, Ok tt).
Proof.
  intros H. unfold on_message.
  repeat match goal with
  | |- context [String.eqb (topic message) (_form_subtopic_topic ?lit)] =>
    rewrite (proj2 (String.eqb_neq (topic message) (_form_subtopic_topic lit))
               (H lit ltac:(in_list)))
  end.
  reflexivity.
Qed.

Lemma handled_or_not (message : Message) :
  (exists subtopic, In subtopic handled_subtopics
                    /\ topic message = _form_subtopic_topic subtopic)
  \/ (forall subtopic, In subtopic handled_subtopics ->
                       topic message <> _form_subtopic_topic subtopic).
Proof.
  induction handled_subtopics as [|s l IH].
  - right. intros ? [].
  - destruct (string_dec (topic message) (_form_subtopic_topic s)) as [E|NE].
    + left. exists s. split; [now left|exact E].
    + destruct IH as [(s' & Hin & E)|Hnone].
      * left. exists s'. split; [now right|exact E].
      * right. intros s' [<-|Hin]; auto.
Qed.

Lemma emitted_name_of_inj (a b : string) :
  In a handled_subtopics -> In b handled_subtopics ->
  emitted_name_of a = emitted_name_of b -> a = b.
Proof.
  unfold handled_subtopics, text_subtopics, play_subtopics. simpl.
  intros Ha Hb.
  repeat (destruct Ha as [<-|Ha]; [|]); try contradiction;
    repeat (destruct Hb as [<-|Hb]; [|]); try contradiction;
    vm_compute; congruence.
Qed.

Lemma caching_handled (s : string) :
  In s caching_subtopics -> In s handled_subtopics.
Proof.
  unfold caching_subtopics, handled_subtopics, text_subtopics. simpl.
  intros H. repeat (destruct H as [<-|H]; [in_list|]). contradiction.
Qed.

Lemma caching_name_cached (s : string) :
  In s caching_subtopics -> In (emitted_name_of s) cached_kinds.
Proof.
  unfold caching_subtopics, text_subtopics. simpl.
  intros H. repeat (destruct H as [<-|H]; [vm_compute; in_list|]).
  contradiction.
Qed.

Lemma transient_not_cached (s : string) :
  In s transient_subtopics -> ~ In s cached_kinds.
Proof.
  unfold transient_subtopics, play_subtopics. simpl.
  intros H.
  repeat (destruct H as [<-|H];
          [vm_compute; intuition discriminate|]).
  contradiction.
Qed.

(** ** The branches one by one *)

Lemma send_and_store_ok (name : string) (message : Message) (w : World) text :
  PyBytes.decode_utf8 (payload message) = Ok text ->
  _send_and_store_playing_metadata name message w
  = (stored_and_sent w ("playing_" ++ name) (PText text), Ok tt).
Proof.
  intros H. unfold _send_and_store_playing_metadata, bind, lift.
  rewrite H. reflexivity.
Qed.

Lemma send_and_store_raise (name : string) (message : Message) (w : World) e :
  PyBytes.decode_utf8 (payload message) = Raise e ->
  _send_and_store_playing_metadata name message w = (w, Raise e).
Proof.
  intros H. unfold _send_and_store_playing_metadata, bind, lift.
  rewrite H. reflexivity.
Qed.

Lemma send_play_event_ok (name : string) (w : World) :
  _send_play_event name w = (sent_only w name (PName name), Ok tt).
Proof. reflexivity. Qed.

Lemma send_volume_event_data (name : string) (message : Message) (w : World) :
  _send_volume_event name message w
  = match volume_data message with
    | Ok data => (sent_only w name (PPercent data), Ok tt)
    | Raise e => (w, Raise e)
    end.
Proof.
  unfold _send_volume_event, volume_data, bind, lift, rbind.
  destruct (PyBytes.decode_ascii (payload message)) as [text|e]; [|reflexivity].
  destruct (unpack4 (PyStr.split_comma text)) as [[[[a b] c] d]|e];
    [|reflexivity].
  destruct (try_except_ValueError _ _) as [x|e]; [|reflexivity].
  destruct (PyFloat.to_int x) as [z|e]; reflexivity.
Qed.

Lemma cover_branch_ok (message : Message) (w : World) :
  branch_of "cover" message w
  = (stored_and_sent w "cover_art" (cover_art_msg message), Ok tt).
Proof.
  unfold branch_of, cover_art_msg.
  cbn [PyStr.mem existsb text_subtopics play_subtopics String.eqb Ascii.eqb
       Bool.eqb orb].
  destruct (payload message); reflexivity.
Qed.

Lemma on_message_effect (message : Message) (w : World) :
  Effect w message (fst (on_message message w)).
Proof.
  destruct (handled_or_not message) as [(sub & Hin & Htopic)|Hnone].
  2:{ rewrite on_message_unhandled by exact Hnone. apply Nothing. }
  rewrite (on_message_branch sub) by exact Htopic.
  unfold handled_subtopics, text_subtopics, play_subtopics in Hin.
  simpl in Hin.
  destruct Hin as [<-|[<-|[<-|[<-|Hin]]]].
  1-4: unfold branch_of;
       cbn [PyStr.mem existsb text_subtopics String.eqb Ascii.eqb Bool.eqb orb];
       destruct (PyBytes.decode_utf8 (payload message)) as [text|e] eqn:D;
       [rewrite (send_and_store_ok _ _ _ text D)
       |rewrite (send_and_store_raise _ _ _ e D); apply Nothing].
  1: exact (Stored w message "artist" (PText text) ltac:(in_list) Htopic).
  1: exact (Stored w message "album" (PText text) ltac:(in_list) Htopic).
  1: exact (Stored w message "genre" (PText text) ltac:(in_list) Htopic).
  1: exact (Stored w message "title" (PText text) ltac:(in_list) Htopic).
  destruct Hin as [<-|[<-|[<-|[<-|Hin]]]].
  1: exact (Sent w message "play_start" _ ltac:(in_list) Htopic).
  1: exact (Sent w message "play_end" _ ltac:(in_list) Htopic).
  1: exact (Sent w message "play_flush" _ ltac:(in_list) Htopic).
  1: exact (Sent w message "play_resume" _ ltac:(in_list) Htopic).
  destruct Hin as [<-|[<-|[]]].
  - change (branch_of "volume" message w)
      with (_send_volume_event "volume" message w).
    rewrite send_volume_event_data.
    destruct (volume_data message) as [data|e]; [|apply Nothing].
    exact (Sent w message "volume" _ ltac:(in_list) Htopic).
  - rewrite cover_branch_ok.
    exact (Stored w message "cover" _ ltac:(in_list) Htopic).
Qed.

(** ** Client requests *)

Lemma for_each_emit (d : list (string * Payload)) (w : World) :
  for_each d (fun '(key, msg) => socketio_emit key msg) w
  = (mkWorld (SAVED_INFO w) (emitted w ++ replay_emits d)%list (published w),
     Ok tt).
Proof.
  revert w. induction d as [|[k m] d IH]; intros w; simpl.
  - rewrite app_nil_r. destruct w; reflexivity.
  - unfold bind. simpl. rewrite IH. simpl. now rewrite <- app_assoc.
Qed.

Lemma replay_world (from : sid) (json : Json) (w : World) :
  dispatch (replay_request from json) w
  = (mkWorld (SAVED_INFO w) (emitted w ++ replay_emits (SAVED_INFO w))%list
             (published w), Ok tt).
Proof. apply for_each_emit. Qed.

Lemma inbox_replay_emits (s : sid) (d : list (string * Payload)) :
  inbox s (replay_emits d) = d.
Proof.
  unfold inbox. induction d as [|[k m] d IH]; simpl; [reflexivity|].
  now f_equal.
Qed.

Lemma new_emits_app (w : World) saved extra pub :
  new_emits w (mkWorld saved (emitted w ++ extra)%list pub) = extra.
Proof. unfold new_emits. simpl. apply skipn_length_app. Qed.

Lemma new_emits_same (w : World) : new_emits w w = [].
Proof. apply skipn_length_all. Qed.

Lemma replay_inbox (from s : sid) (json : Json) (w : World) :
  inbox s (new_emits w (step w (replay_request from json))) = SAVED_INFO w.
Proof.
  unfold step. rewrite replay_world. simpl fst.
  rewrite new_emits_app. apply inbox_replay_emits.
Qed.

Lemma remote_publish (token : string) (w : World) :
  PyStr.mem token known_remote_commands = true ->
  bind (lift (_generate_remote_command token))
       (fun '(tpc, msg) => mqttc_publish tpc msg) w
  = (mkWorld (SAVED_INFO w) (emitted w)
             (published w ++ [((TOPIC_ROOT ++ "/remote")%string, token)])%list,
     Ok tt).
Proof.
  intros H. unfold bind, lift, _generate_remote_command. rewrite H.
  reflexivity.
Qed.

Lemma client_keeps_cache (from : sid) (name : string) (json : Json) (w : World) :
  SAVED_INFO (step w (Client from name json)) = SAVED_INFO w.
Proof.
  unfold step, dispatch, socketio_handlers, Dict.get.
  repeat match goal with
  | |- context [if String.eqb ?a name then _ else _] =>
    destruct (String.eqb a name)
  end;
  try reflexivity.
  unfold handle_my_custom_event. rewrite for_each_emit. reflexivity.
Qed.

(** ** Invariants of the cache *)

Lemma step_cache (w : World) (i : Input) :
  SAVED_INFO (step w i) = SAVED_INFO w
  \/ exists m subtopic v,
       i = Mqtt m /\ In subtopic caching_subtopics
       /\ topic m = _form_subtopic_topic subtopic
       /\ SAVED_INFO (step w i)
          = Dict.set (SAVED_INFO w) (emitted_name_of subtopic) v.
Proof.
  destruct i as [m|from name json].
  - unfold step, dispatch.
    destruct (on_message_effect m w) as [|sub v Hin Ht|sub v Hin Ht].
    + now left.
    + right. exists m, sub, v. auto.
    + now left.
  - left. apply client_keeps_cache.
Qed.

Lemma run_snoc (w : World) (inputs : list Input) (i : Input) :
  run w (inputs ++ [i])%list = step (run w inputs) i.
Proof. unfold run. now rewrite fold_left_app. Qed.

Lemma run_cons (w : World) (inputs : list Input) (i : Input) :
  run w (i :: inputs) = run (step w i) inputs.
Proof. reflexivity. Qed.

Lemma run_keys_NoDup (inputs : list Input) (w : World) :
  NoDup (Dict.keys (SAVED_INFO w)) ->
  NoDup (Dict.keys (SAVED_INFO (run w inputs))).
Proof.
  revert w. induction inputs as [|i inputs IH]; intros w H; [exact H|].
  rewrite run_cons. apply IH.
  destruct (step_cache w i) as [E|(m & sub & v & _ & _ & _ & E)]; rewrite E.
  - exact H.
  - now apply Dict_keys_set_NoDup.
Qed.

Lemma run_keys_cached (inputs : list Input) (w : World) :
  (forall k, In k (Dict.keys (SAVED_INFO w)) -> In k cached_kinds) ->
  forall k, In k (Dict.keys (SAVED_INFO (run w inputs))) -> In k cached_kinds.
Proof.
  revert w. induction inputs as [|i inputs IH]; intros w H; [exact H|].
  rewrite run_cons. apply IH.
  destruct (step_cache w i) as [E|(m & sub & v & _ & Hin & _ & E)]; rewrite E.
  - exact H.
  - intros k Hk. apply Dict_keys_set_in in Hk. destruct Hk as [->|Hk].
    + now apply caching_name_cached.
    + now apply H.
Qed.

(** Inputs other than a broker message on [root/subtopic] leave the entry of
    that subtopic's event alone. *)
Lemma run_keeps_entry (subtopic : string) (others : list Input) (w : World) :
  In subtopic caching_subtopics ->
  (forall m, In (Mqtt m) others ->
             topic m <> _form_subtopic_topic subtopic) ->
  Dict.get (SAVED_INFO (run w others)) (emitted_name_of subtopic)
  = Dict.get (SAVED_INFO w) (emitted_name_of subtopic).
Proof.
  intros Hsub. revert w.
  induction others as [|i others IH]; intros w Hother; [reflexivity|].
  rewrite run_cons, IH by (intros m Hm; apply Hother; now right).
  destruct (step_cache w i) as [E|(m & sub & v & -> & Hin & Ht & E)];
    rewrite E; [reflexivity|].
  apply Dict_get_set_other. intros Hname.
  apply emitted_name_of_inj in Hname; auto using caching_handled.
  subst sub. apply (Hother m); [now left|exact Ht].
Qed.

Lemma In_keys {V} (d : list (string * V)) k v :
  In (k, v) d -> In k (Dict.keys d).
Proof. intros H. apply (in_map fst) in H. exact H. Qed.

(** ** The claims *)

(** C1 (as amended): for the five kinds the bridge stores -- playing_artist,
    playing_album, playing_genre, playing_title and cover_art -- a broker
    message that produces the event [K] with value [v], followed by any
    client requests and broker messages on other topics and then by a
    replay, makes the replay deliver exactly one event of kind [K], carrying
    [v], to every connected session. Events of any other kind (volume,
    play_start, play_end, play_flush, play_resume) are never part of a
    replay. *)
Theorem C1_cached_kinds_replayed :
  (forall (history others : list Input) (message : Message)
          (K : string) (v : Payload) (from s : sid) (json : Json),
      let w := run initial_world history in
      let w1 := step w (Mqtt message) in
      let w2 := run w1 others in
      In K cached_kinds ->
      new_emits w w1 = [mkEmit K v None] ->
      (forall m, In (Mqtt m) others -> topic m <> topic message) ->
      filter (fun e => String.eqb (fst e) K)
             (inbox s (new_emits w2 (step w2 (replay_request from json))))
      = [(K, v)])
  /\
  (forall (history : list Input) (K : string) (v : Payload)
          (from s : sid) (json : Json),
      let w := run initial_world history in
      In (K, v) (inbox s (new_emits w (step w (replay_request from json)))) ->
      In K cached_kinds).
Proof.
  split.
  - intros history others message K v from s json w w1 w2 HK Hemit Hothers.
    subst w2. rewrite replay_inbox.
    assert (Hnd : NoDup (Dict.keys (SAVED_INFO w)))
      by (apply run_keys_NoDup; constructor).
    assert (Hnd1 : NoDup (Dict.keys (SAVED_INFO w1)))
      by (apply (run_keys_NoDup [Mqtt message]), Hnd).
    apply Dict_get_filter; [now apply run_keys_NoDup|].
    subst w1. unfold step, dispatch in *.
    destruct (on_message_effect message w) as [|sub v' Hin Ht|sub v' Hin Ht].
    + rewrite new_emits_same in Hemit. discriminate.
    + unfold stored_and_sent in Hemit. rewrite new_emits_app in Hemit.
      injection Hemit as <- <-.
      rewrite run_keeps_entry; auto.
      * apply Dict_get_set_same.
      * intros m Hm. rewrite <- Ht. now apply Hothers.
    + unfold sent_only in Hemit. rewrite new_emits_app in Hemit.
      injection Hemit as <- <-.
      exfalso. exact (transient_not_cached _ Hin HK).
  - intros history K v from s json w Hin.
    rewrite replay_inbox in Hin. apply In_keys in Hin.
    revert Hin. apply run_keys_cached. intros k [].
Qed.

Lemma mem_In (x : string) (xs : list string) :
  PyStr.mem x xs = true <-> In x xs.
Proof.
  unfold PyStr.mem. rewrite existsb_exists. split.
  - intros (y & Hy & E). apply String.eqb_eq in E. now subst.
  - intros H. exists x. split; [exact H|apply String.eqb_refl].
Qed.

Lemma startswith_prefix (s prefix : list byte) :
  PyBytes.startswith s prefix = true <-> exists rest, s = (prefix ++ rest)%list.
Proof.
  revert s. induction prefix as [|p prefix IH]; intros s; simpl.
  - split; [intros _; now exists s|reflexivity].
  - destruct s as [|c s].
    + split; [discriminate|intros (rest & E); discriminate].
    + rewrite andb_true_iff, IH. split.
      * intros (E & rest & ->). apply Byte.byte_dec_bl in E. subst.
        now exists rest.
      * intros (rest & E). injection E as -> ->.
        split; [now apply Byte.byte_dec_lb|now exists rest].
Qed.

Lemma startswith_no_prefix (s prefix : list byte) :
  (forall rest, s <> (prefix ++ rest)%list) ->
  PyBytes.startswith s prefix = false.
Proof.
  intros H. destruct (PyBytes.startswith s prefix) eqn:E; [|reflexivity].
  apply startswith_prefix in E. destruct E as (rest & E).
  now apply H in E.
Qed.

(** C2 (as amended): for each of the ten subtopics [on_message] has a branch
    for -- artist, album, genre, title, play_start, play_end, play_flush,
    play_resume, volume and cover -- a message on root/<subtopic> whose
    handling completes produces exactly one event, named by the subtopic
    through the injective map [emitted_name_of]; a handling that raises
    changes nothing. The text subtopics artist, album, genre and title are
    sent (and stored) as playing_<subtopic> with the UTF-8-decoded payload
    whenever the payload is well-formed UTF-8; play and cover messages always
    complete. A message on any other topic, among them songalbum, client_ip,
    active_start and active_end, produces no event and changes no state. *)
Theorem C2_handled_subtopics_routed :
  (forall (subtopic : string) (payload : list byte) (w : World),
      In subtopic handled_subtopics ->
      match on_message (mkMessage (_form_subtopic_topic subtopic) payload) w
      with
      | (w', Ok _) =>
        exists v, new_emits w w' = [mkEmit (emitted_name_of subtopic) v None]
      | (w', Raise _) => w' = w
      end)
  /\ (forall (subtopic : string) (payload : list byte) (text : string)
             (w : World),
         In subtopic text_subtopics ->
         PyBytes.decode_utf8 payload = Ok text ->
         on_message (mkMessage (_form_subtopic_topic subtopic) payload) w
         = (stored_and_sent w ("playing_" ++ subtopic) (PText text), Ok tt))
  /\ (forall (subtopic : string) (payload : list byte) (w : World),
         In subtopic play_subtopics \/ subtopic = "cover" ->
         snd (on_message (mkMessage (_form_subtopic_topic subtopic) payload) w)
         = Ok tt)
  /\ (forall a b : string,
         In a handled_subtopics -> In b handled_subtopics ->
         emitted_name_of a = emitted_name_of b -> a = b)
  /\ (forall (message : Message) (w : World),
         (forall subtopic, In subtopic handled_subtopics ->
                           topic message <> _form_subtopic_topic subtopic) ->
         on_message message w = (w, Ok tt))
  /\ (forall (subtopic : string) (payload : list byte) (w : World),
         In subtopic unhandled_text_subtopics ->
         on_message (mkMessage (_form_subtopic_topic subtopic) payload) w
         = (w, Ok tt)).
Proof.
  repeat apply conj.
  - intros sub payload w Hin.
    rewrite (on_message_branch sub) by reflexivity.
    unfold handled_subtopics, text_subtopics, play_subtopics in Hin.
    simpl in Hin.
    destruct Hin as [<-|[<-|[<-|[<-|Hin]]]].
    1-4: unfold branch_of;
         cbn [PyStr.mem existsb text_subtopics String.eqb Ascii.eqb Bool.eqb
              orb];
         destruct (PyBytes.decode_utf8 payload) as [text|e] eqn:D;
         [rewrite (send_and_store_ok _ (mkMessage _ payload) _ text D);
          eexists; apply new_emits_app
         |rewrite (send_and_store_raise _ (mkMessage _ payload) _ e D);
          reflexivity].
    destruct Hin as [<-|[<-|[<-|[<-|Hin]]]].
    1-4: eexists; apply new_emits_app.
    destruct Hin as [<-|[<-|[]]].
    + change (branch_of "volume" ?m w)
        with (_send_volume_event "volume" m w).
      rewrite send_volume_event_data.
      destruct (volume_data _) as [data|e]; [|reflexivity].
      eexists; apply new_emits_app.
    + rewrite cover_branch_ok. eexists; apply new_emits_app.
  - intros sub payload text w Hin D.
    rewrite (on_message_branch sub) by reflexivity.
    unfold branch_of. rewrite (proj2 (mem_In _ _) Hin).
    now apply send_and_store_ok.
  - intros sub payload w Hin.
    rewrite (on_message_branch sub) by reflexivity.
    destruct Hin as [Hin| ->]; [|now rewrite cover_branch_ok].
    unfold play_subtopics in Hin. simpl in Hin.
    destruct Hin as [<-|[<-|[<-|[<-|[]]]]]; reflexivity.
  - exact emitted_name_of_inj.
  - exact on_message_unhandled.
  - intros sub payload w Hin.
    rewrite (on_message_branch sub) by reflexivity.
    unfold unhandled_text_subtopics in Hin. simpl in Hin.
    destruct Hin as [<-|[<-|[<-|[<-|[]]]]]; reflexivity.
Qed.

(** C3 (as amended): when a session issues the resend request, every cached
    event is emitted once, in cache order, as a broadcast without a target:
    the requesting session and every other connected session receive all of
    them; the cache and the broker traffic are unchanged. *)
Theorem C3_replay_is_broadcast :
  forall (from s : sid) (json : Json) (w : World),
    let w' := step w (replay_request from json) in
    new_emits w w' = replay_emits (SAVED_INFO w)
    /\ Forall (fun e => to e = None) (new_emits w w')
    /\ inbox s (new_emits w w') = SAVED_INFO w
    /\ SAVED_INFO w' = SAVED_INFO w
    /\ published w' = published w.
Proof.
  intros from s json w w'.
  assert (E : new_emits w w' = replay_emits (SAVED_INFO w)).
  { subst w'. unfold step. rewrite replay_world. apply new_emits_app. }
  repeat apply conj.
  - exact E.
  - rewrite E. unfold replay_emits. apply Forall_forall.
    intros e He. apply in_map_iff in He. destruct He as ([k m] & <- & _).
    reflexivity.
  - apply replay_inbox.
  - apply client_keeps_cache.
  - subst w'. unfold step. now rewrite replay_world.
Qed.

(** C5: every cover-art message is stored and sent as the event cover_art
    with a payload [{data, mimetype}]. An empty payload gives the base64
    text of the default image and its mime type; a non-empty payload gives
    its own base64 text, with image/jpeg when it starts with FF D8,
    image/png when it starts with 89 50 4E 47 0D 0A 1A 0D, and the fallback
    image/jpg otherwise. *)
Theorem C5_cover_art :
  forall (octets : list byte) (w : World),
  exists data mimetype : string,
    on_message (mkMessage (_form_subtopic_topic "cover") octets) w
    = (stored_and_sent w "cover_art" (PImage data mimetype), Ok tt)
    /\ (octets = [] ->
        data = PyBytes.b64encode default_image_octets
        /\ mimetype = default_image_mime_type)
    /\ (octets <> [] -> data = PyBytes.b64encode octets)
    /\ (forall rest, octets = (jpeg_magic ++ rest)%list ->
                     mimetype = "image/jpeg")
    /\ (forall rest, octets = (png_magic ++ rest)%list ->
                     mimetype = "image/png")
    /\ (octets <> [] ->
        (forall rest, octets <> (jpeg_magic ++ rest)%list) ->
        (forall rest, octets <> (png_magic ++ rest)%list) ->
        mimetype = "image/jpg").
Proof.
  intros octets w.
  rewrite (on_message_branch "cover") by reflexivity.
  rewrite cover_branch_ok. unfold cover_art_msg. cbn [payload].
  destruct octets as [|c rest0].
  - exists default_image_b64_str, default_image_mime_type.
    repeat apply conj.
    + reflexivity.
    + intros _. split; reflexivity.
    + intros H. now contradiction H.
    + intros rest E. discriminate.
    + intros rest E. discriminate.
    + intros H. now contradiction H.
  - eexists _, _. split; [reflexivity|].
    repeat apply conj.
    + discriminate.
    + reflexivity.
    + intros rest E. unfold _guessImageMime.
      change [xff; xd8] with jpeg_magic.
      now rewrite (proj2 (startswith_prefix _ _) (ex_intro _ rest E)).
    + intros rest E. unfold _guessImageMime.
      change [x89; x50; x4e; x47; x0d; x0a; x1a; x0d] with png_magic.
      rewrite (proj2 (startswith_prefix _ png_magic) (ex_intro _ rest E)).
      rewrite E. reflexivity.
    + intros _ Hj Hp. unfold _guessImageMime.
      change [xff; xd8] with jpeg_magic.
      change [x89; x50; x4e; x47; x0d; x0a; x1a; x0d] with png_magic.
      now rewrite (startswith_no_prefix _ _ Hj), (startswith_no_prefix _ _ Hp).
Qed.

(** C6: the token stop is accepted and the stop handler publishes exactly
    the string stop to root/remote and succeeds; a token outside
    [known_remote_commands] makes [_generate_remote_command] raise a
    ValueError whose message names the token, and a caller that publishes
    what the validator returns publishes nothing. *)
Theorem C6_issue_command :
  _generate_remote_command "stop" = Ok (TOPIC_ROOT ++ "/remote", "stop")
  /\ (forall (json : Json) (w : World),
         handle_stop json w
         = (mkWorld (SAVED_INFO w) (emitted w)
              (published w ++ [((TOPIC_ROOT ++ "/remote")%string, "stop")])%list,
            Ok tt))
  /\ (forall token : string,
         ~ In token known_remote_commands ->
         _generate_remote_command token
         = Raise (ValueError ("Unknown remote command: " ++ token))
         /\ forall w : World,
             bind (lift (_generate_remote_command token))
                  (fun '(tpc, msg) => mqttc_publish tpc msg) w
             = (w, Raise (ValueError ("Unknown remote command: " ++ token)))).
Proof.
  repeat apply conj.
  - reflexivity.
  - intros json w. reflexivity.
  - intros token Hnot.
    assert (E : _generate_remote_command token
                = Raise (ValueError ("Unknown remote command: " ++ token))).
    { unfold _generate_remote_command.
      destruct (PyStr.mem token known_remote_commands) eqn:Hm;
        [|reflexivity].
      apply mem_In in Hm. contradiction. }
    split; [exact E|].
    intros w. unfold bind, lift. now rewrite E.
Qed.

(** A cover_art entry of the cache was written by a cover message of the
    history and is the event the cover branch builds from that message. *)
Lemma cover_art_entry_origin (history : list Input) (v : Payload) :
  Dict.get (SAVED_INFO (run initial_world history)) "cover_art" = Some v ->
  exists m : Message,
    In (Mqtt m) history
    /\ topic m = _form_subtopic_topic "cover"
    /\ v = cover_art_msg m.
Proof.
  induction history as [|i history IH] using rev_ind; [discriminate|].
  rewrite run_snoc. intros Hget.
  assert (Hold : (exists m, i = Mqtt m
                            /\ topic m = _form_subtopic_topic "cover")
                 \/ (forall m, In (Mqtt m) [i] ->
                               topic m <> _form_subtopic_topic "cover")).
  { destruct i as [m|from name json].
    - destruct (string_dec (topic m) (_form_subtopic_topic "cover"))
        as [E|NE].
      + left. now exists m.
      + right. intros m' [E|[]]. injection E as <-. exact NE.
    - right. intros m' [E|[]]. discriminate E. }
  destruct Hold as [(m & -> & Ht)|Hother].
  - exists m. split; [apply in_or_app; right; now left|].
    split; [exact Ht|].
    unfold step, dispatch in Hget.
    rewrite (on_message_branch "cover") in Hget by exact Ht.
    rewrite cover_branch_ok in Hget.
    unfold stored_and_sent in Hget. cbn [fst SAVED_INFO] in Hget.
    rewrite Dict_get_set_same in Hget. now injection Hget.
  - change (step (run initial_world history) i)
      with (run (run initial_world history) [i]) in Hget.
    change "cover_art" with (emitted_name_of "cover") in Hget.
    rewrite run_keeps_entry in Hget by (solve [in_list] || exact Hother).
    destruct (IH Hget) as (m & Hin & Ht & Hv).
    exists m. split; [apply in_or_app; now left|]. now split.
Qed.

(** C7 (as amended): the cache starts empty. As long as no cover-art
    message has arrived it holds no cover_art entry and a replay sends no
    cover-art event to anyone. A cover message with an empty payload stores
    the default image and its mime type, and a cover_art entry is only ever
    written by a cover message: it is the event built from the payload of
    a cover message that arrived. *)
Theorem C7_no_cover_art_before_first_cover_message :
  forall (history : list Input) (from s : sid) (json : Json),
    (forall m, In (Mqtt m) history ->
               topic m <> _form_subtopic_topic "cover") ->
    let w := run initial_world history in
    Dict.get (SAVED_INFO w) "cover_art" = None
    /\ (forall v,
           ~ In ("cover_art", v)
                (inbox s (new_emits w (step w (replay_request from json)))))
    /\ step w (Mqtt (mkMessage (_form_subtopic_topic "cover") []))
       = stored_and_sent w "cover_art"
           (PImage default_image_b64_str default_image_mime_type)
    /\ (forall (past : list Input) (v : Payload),
           Dict.get (SAVED_INFO (run initial_world past)) "cover_art"
           = Some v ->
           exists m : Message,
             In (Mqtt m) past
             /\ topic m = _form_subtopic_topic "cover"
             /\ v = cover_art_msg m).
Proof.
  intros history from s json Hnone w.
  assert (E : Dict.get (SAVED_INFO w) "cover_art" = None).
  { subst w.
    change "cover_art" with (emitted_name_of "cover").
    rewrite run_keeps_entry; [reflexivity|in_list|exact Hnone]. }
  repeat apply conj.
  - exact E.
  - intros v Hin. rewrite replay_inbox in Hin.
    apply In_keys in Hin. now apply Dict_get_None_notin in E.
  - unfold step, dispatch.
    rewrite (on_message_branch "cover") by reflexivity.
    now rewrite cover_branch_ok.
  - apply cover_art_entry_origin.
Qed.

(** ** Rounding to binary64 *)

Local Open Scope Q_scope.

Lemma rne_bounds (x : Q) : (Qfloor x <= PyFloat.rne x <= Qfloor x + 1)%Z.
Proof.
  unfold PyFloat.rne. destruct (x - inject_Z (Qfloor x) ?= 1 # 2);
    [destruct (Z.even (Qfloor x))| |]; lia.
Qed.

Lemma rne_Z (z : Z) : PyFloat.rne (inject_Z z) = z.
Proof.
  unfold PyFloat.rne. rewrite Qfloor_Z.
  assert (E : (inject_Z z - inject_Z z ?= 1 # 2) = Lt).
  { apply (proj1 (Qlt_alt _ _)). unfold Qminus. rewrite Qplus_opp_r.
    reflexivity. }
  now rewrite E.
Qed.

Lemma rne_mono (x y : Q) : x <= y -> (PyFloat.rne x <= PyFloat.rne y)%Z.
Proof.
  intros H.
  pose proof (Qfloor_resp_le x y H) as Hf.
  destruct (Z.eq_dec (Qfloor x) (Qfloor y)) as [E|NE].
  - unfold PyFloat.rne. rewrite E.
    destruct (Qcompare_spec (x - inject_Z (Qfloor y)) (1 # 2));
      destruct (Qcompare_spec (y - inject_Z (Qfloor y)) (1 # 2));
      try (destruct (Z.even (Qfloor y)));
      first [lia | exfalso; lra].
  - pose proof (rne_bounds x). pose proof (rne_bounds y). lia.
Qed.

Lemma two_pow_pos (z : Z) : 0 < 2 ^ z.
Proof. apply Qpower_0_lt. reflexivity. Qed.

Lemma two_pow_plus (a b : Z) : 2 ^ (a + b) == 2 ^ a * 2 ^ b.
Proof. apply Qpower_plus. discriminate. Qed.

Lemma two_pow_le (a b : Z) : (a <= b)%Z -> 2 ^ a <= 2 ^ b.
Proof. intros H. apply Qpower_le_compat_l; [exact H|discriminate]. Qed.

Lemma two_pow_cancel (e : Z) : 2 ^ e * 2 ^ (- e) == 1.
Proof.
  rewrite <- two_pow_plus. replace (e + - e)%Z with 0%Z by lia. reflexivity.
Qed.

Lemma two_pow_Z (n : Z) : (0 <= n)%Z -> inject_Z (2 ^ n) == 2 ^ n.
Proof. intros H. now rewrite Zpower_Qpower. Qed.

Lemma ilog2_spec (a : Q) :
  0 < a -> 2 ^ PyFloat.ilog2 a <= a /\ a < 2 ^ (PyFloat.ilog2 a + 1).
Proof.
  intros Ha. destruct a as [n d]. unfold PyFloat.ilog2. cbn [Qnum Qden].
  assert (Hn : (0 < n)%Z) by (unfold Qlt in Ha; simpl in Ha; lia).
  set (ln := Z.log2 n). set (ld := Z.log2 (Z.pos d)).
  destruct (Z.log2_spec n Hn) as [Hn1 Hn2]. fold ln in Hn1, Hn2.
  destruct (Z.log2_spec (Z.pos d) ltac:(lia)) as [Hd1 Hd2].
  fold ld in Hd1, Hd2.
  assert (Hln : (0 <= ln)%Z) by apply Z.log2_nonneg.
  assert (Hld : (0 <= ld)%Z) by apply Z.log2_nonneg.
  assert (Ead : (n # d) * inject_Z (Z.pos d) == inject_Z n).
  { unfold Qeq, Qmult, inject_Z. simpl. lia. }
  assert (Hdpos : 0 < inject_Z (Z.pos d)) by reflexivity.
  assert (Qn1 : 2 ^ ln <= inject_Z n)
    by (rewrite <- two_pow_Z by lia; now rewrite <- Zle_Qle).
  assert (Qn2 : inject_Z n < 2 ^ (ln + 1))
    by (rewrite <- two_pow_Z by lia; rewrite <- Zlt_Qlt; lia).
  assert (Qd1 : 2 ^ ld <= inject_Z (Z.pos d))
    by (rewrite <- two_pow_Z by lia; now rewrite <- Zle_Qle).
  assert (Qd2 : inject_Z (Z.pos d) < 2 ^ (ld + 1))
    by (rewrite <- two_pow_Z by lia; rewrite <- Zlt_Qlt; lia).
  set (k := (ln - ld)%Z).
  assert (Hup : (n # d) < 2 ^ (k + 1)).
  { apply (Qmult_lt_r _ _ (inject_Z (Z.pos d)) Hdpos). rewrite Ead.
    apply (Qlt_le_trans _ _ _ Qn2).
    replace (ln + 1)%Z with ((k + 1) + ld)%Z by (unfold k; lia).
    rewrite two_pow_plus. apply Qmult_le_l; [apply two_pow_pos|exact Qd1]. }
  assert (Hlow : 2 ^ (k - 1) < (n # d)).
  { apply (Qmult_lt_r _ _ (inject_Z (Z.pos d)) Hdpos). rewrite Ead.
    apply (Qlt_le_trans _ (2 ^ (k - 1) * 2 ^ (ld + 1))).
    - apply Qmult_lt_l; [apply two_pow_pos|exact Qd2].
    - rewrite <- two_pow_plus.
      replace (k - 1 + (ld + 1))%Z with ln by (unfold k; lia). exact Qn1. }
  destruct (Qle_bool (2 ^ k) (n # d)) eqn:C.
  - apply Qle_bool_iff in C. split; assumption.
  - split; [now apply Qlt_le_weak|].
    replace (k - 1 + 1)%Z with k by lia.
    apply Qnot_le_lt. intros H. apply Qle_bool_iff in H. congruence.
Qed.

Lemma ilog2_mono (a b : Q) : 0 < a -> a <= b -> (PyFloat.ilog2 a <= PyFloat.ilog2 b)%Z.
Proof.
  intros Ha Hab.
  destruct (ilog2_spec a Ha) as [A1 _].
  destruct (ilog2_spec b ltac:(lra)) as [_ B2].
  assert (H : 2 ^ PyFloat.ilog2 a < 2 ^ (PyFloat.ilog2 b + 1)) by lra.
  apply Qpower_lt_compat_l_inv in H; [lia|reflexivity].
Qed.

Lemma expo_mono (a b : Q) : 0 < a -> a <= b -> (PyFloat.expo a <= PyFloat.expo b)%Z.
Proof.
  intros Ha Hab. unfold PyFloat.expo. pose proof (ilog2_mono a b Ha Hab). lia.
Qed.

Lemma mag_mono (a b : Q) : 0 < a -> a <= b -> PyFloat.mag a <= PyFloat.mag b.
Proof.
  intros Ha Hab. unfold PyFloat.mag.
  pose proof (expo_mono a b Ha Hab) as He.
  destruct (Z.eq_dec (PyFloat.expo a) (PyFloat.expo b)) as [E|NE].
  - rewrite E. apply Qmult_le_r; [apply two_pow_pos|].
    rewrite <- Zle_Qle. apply rne_mono.
    apply Qmult_le_r; [apply two_pow_pos|exact Hab].
  - assert (Hlt : (PyFloat.expo a < PyFloat.expo b)%Z) by lia.
    assert (Hb : 0 < b) by lra.
    destruct (ilog2_spec a Ha) as [_ A2].
    destruct (ilog2_spec b Hb) as [B1 _].
    (* the left side is at most 2^(PyFloat.expo a + 53) *)
    assert (HA : inject_Z (PyFloat.rne (a * 2 ^ (- PyFloat.expo a))) <= inject_Z (2 ^ 53)).
    { rewrite <- Zle_Qle. rewrite <- (rne_Z (2 ^ 53)). apply rne_mono.
      change (inject_Z (2 ^ 53)) with (2 ^ 53).
      apply Qlt_le_weak.
      apply (Qmult_lt_r _ _ (2 ^ PyFloat.expo a) (two_pow_pos _)).
      rewrite <- Qmult_assoc, (Qmult_comm (2 ^ (- PyFloat.expo a))), two_pow_cancel.
      rewrite Qmult_1_r, <- two_pow_plus.
      assert (Hexp : (PyFloat.ilog2 a + 1 <= 53 + PyFloat.expo a)%Z) by (unfold PyFloat.expo; lia).
      exact (Qlt_le_trans _ _ _ A2 (two_pow_le _ _ Hexp)). }
    (* the right side is at least 2^(PyFloat.expo b + 52) *)
    assert (HB : inject_Z (2 ^ 52) <= inject_Z (PyFloat.rne (b * 2 ^ (- PyFloat.expo b)))).
    { rewrite <- Zle_Qle. rewrite <- (rne_Z (2 ^ 52)) at 1. apply rne_mono.
      change (inject_Z (2 ^ 52)) with (2 ^ 52).
      apply (Qmult_le_r _ _ (2 ^ PyFloat.expo b) (two_pow_pos _)).
      rewrite <- Qmult_assoc, (Qmult_comm (2 ^ (- PyFloat.expo b))), two_pow_cancel.
      rewrite Qmult_1_r, <- two_pow_plus.
      assert (Hexp : (52 + PyFloat.expo b <= PyFloat.ilog2 b)%Z) by (unfold PyFloat.expo in *; lia).
      exact (Qle_trans _ _ _ (two_pow_le _ _ Hexp) B1). }
    apply (Qle_trans _ (inject_Z (2 ^ 53) * 2 ^ PyFloat.expo a)).
    { apply Qmult_le_r; [apply two_pow_pos|exact HA]. }
    apply (Qle_trans _ (inject_Z (2 ^ 52) * 2 ^ PyFloat.expo b)).
    2:{ apply Qmult_le_r; [apply two_pow_pos|exact HB]. }
    change (inject_Z (2 ^ 53)) with (2 ^ 53).
    change (inject_Z (2 ^ 52)) with (2 ^ 52).
    rewrite <- !two_pow_plus. apply two_pow_le. lia.
Qed.

Lemma round_pos_mag (a : Q) :
  PyFloat.round_pos a
  = if Qle_bool (2 ^ 1024) (PyFloat.mag a) then Inf false else Fin (Qred (PyFloat.mag a)).
Proof. reflexivity. Qed.

Lemma mag_nonneg (a : Q) : 0 < a -> 0 <= PyFloat.mag a.
Proof.
  intros Ha. unfold PyFloat.mag. apply Qmult_le_0_compat.
  - change 0 with (inject_Z 0). rewrite <- Zle_Qle.
    rewrite <- (rne_Z 0). apply rne_mono.
    apply Qmult_le_0_compat; [lra|apply Qlt_le_weak, two_pow_pos].
  - apply Qlt_le_weak, two_pow_pos.
Qed.

Lemma round_pos_mono (a b : Q) :
  0 < a -> a <= b -> PyFloat.fle (PyFloat.round_pos a) (PyFloat.round_pos b).
Proof.
  intros Ha Hab. rewrite !round_pos_mag.
  pose proof (mag_mono a b Ha Hab) as Hm.
  destruct (Qle_bool (2 ^ 1024) (PyFloat.mag a)) eqn:Ca;
    destruct (Qle_bool (2 ^ 1024) (PyFloat.mag b)) eqn:Cb; unfold PyFloat.fle; auto.
  - apply Qle_bool_iff in Ca.
    assert (Qle_bool (2 ^ 1024) (PyFloat.mag b) = true)
      by (apply Qle_bool_iff; lra).
    congruence.
  - now rewrite !Qred_correct.
Qed.

Lemma round_pos_nonneg (a : Q) : 0 < a -> PyFloat.fle (Fin 0) (PyFloat.round_pos a).
Proof.
  intros Ha. rewrite round_pos_mag.
  destruct (Qle_bool (2 ^ 1024) (PyFloat.mag a)); unfold PyFloat.fle;
    [exact I|].
  rewrite Qred_correct. now apply mag_nonneg.
Qed.

Lemma fle_fneg (a b : pyfloat) : PyFloat.fle a b -> PyFloat.fle (PyFloat.fneg b) (PyFloat.fneg a).
Proof.
  destruct a as [x|[|]|], b as [y|[|]|]; unfold PyFloat.fle, PyFloat.fneg, negb; auto.
  rewrite !Qred_correct. lra.
Qed.

Lemma fle_trans (a b c : pyfloat) : PyFloat.fle a b -> PyFloat.fle b c -> PyFloat.fle a c.
Proof.
  destruct a as [x|[|]|], b as [y|[|]|], c as [z|[|]|]; simpl; auto;
    try contradiction.
  lra.
Qed.

Lemma fle_refl_round_pos (a : Q) : PyFloat.fle (PyFloat.round_pos a) (PyFloat.round_pos a).
Proof.
  rewrite round_pos_mag.
  destruct (Qle_bool _ _); unfold PyFloat.fle; [exact I|lra].
Qed.

(** Rounding to binary64 keeps the order. *)
Lemma round64_mono (x y : Q) : x <= y -> PyFloat.fle (PyFloat.round64 x) (PyFloat.round64 y).
Proof.
  intros H. unfold PyFloat.round64.
  destruct (Qcompare_spec x 0) as [Hx|Hx|Hx];
    destruct (Qcompare_spec y 0) as [Hy|Hy|Hy];
    try (exfalso; lra).
  - simpl. lra.
  - now apply round_pos_nonneg.
  - change (Fin 0) with (PyFloat.fneg (Fin 0)). apply fle_fneg.
    apply round_pos_nonneg. lra.
  - apply fle_fneg. apply round_pos_mono; lra.
  - apply (fle_trans _ (Fin 0)).
    + change (Fin 0) with (PyFloat.fneg (Fin 0)). apply fle_fneg.
      apply round_pos_nonneg. lra.
    + now apply round_pos_nonneg.
  - apply round_pos_mono; lra.
Qed.

Lemma round64_not_nan (x : Q) : PyFloat.round64 x <> NaN.
Proof.
  unfold PyFloat.round64. destruct (x ?= 0); try discriminate;
    rewrite round_pos_mag; destruct (Qle_bool _ _); discriminate.
Qed.

Lemma Fin_inj (a b : Q) : Fin a = Fin b -> a = b.
Proof. intros H. now injection H. Qed.





(** [rne] is within one half of its argument. *)
Lemma rne_nearest (x : Q) :
  inject_Z (PyFloat.rne x) - x <= 1 # 2
  /\ x - inject_Z (PyFloat.rne x) <= 1 # 2.
Proof.
  unfold PyFloat.rne.
  pose proof (Qfloor_le x) as Hlo. pose proof (Qlt_floor x) as Hhi.
  rewrite inject_Z_plus in Hhi. change (inject_Z 1) with 1 in Hhi.
  destruct (Qcompare_spec (x - inject_Z (Qfloor x)) (1 # 2)) as [E|E|E];
    [destruct (Z.even (Qfloor x))| |];
    rewrite ?inject_Z_plus; change (inject_Z 1) with 1; split; lra.
Qed.

Lemma rne_Qeq (x y : Q) : x == y -> PyFloat.rne x = PyFloat.rne y.
Proof.
  intros E.
  assert (H1 : x <= y) by (rewrite E; apply Qle_refl).
  assert (H2 : y <= x) by (rewrite E; apply Qle_refl).
  apply rne_mono in H1, H2. lia.
Qed.

(** Rounding a positive number moves it by at most half a unit of its
    last place. *)
Lemma mag_nearest (a : Q) :
  PyFloat.mag a - a <= (1 # 2) * 2 ^ PyFloat.expo a
  /\ a - PyFloat.mag a <= (1 # 2) * 2 ^ PyFloat.expo a.
Proof.
  unfold PyFloat.mag. set (e := PyFloat.expo a).
  destruct (rne_nearest (a * 2 ^ (- e))) as [H1 H2].
  pose proof (two_pow_pos e) as He.
  assert (Ea : a == a * 2 ^ (- e) * 2 ^ e).
  { rewrite <- Qmult_assoc, (Qmult_comm (2 ^ (- e))), two_pow_cancel. ring. }
  set (y := a * 2 ^ (- e)) in *. set (m := inject_Z (PyFloat.rne y)) in *.
  apply (Qmult_le_compat_r _ _ (2 ^ e)) in H1; [|lra].
  apply (Qmult_le_compat_r _ _ (2 ^ e)) in H2; [|lra].
  split.
  - setoid_replace (m * 2 ^ e - a) with ((m - y) * 2 ^ e); [exact H1|].
    rewrite Ea at 1. ring.
  - setoid_replace (a - m * 2 ^ e) with ((y - m) * 2 ^ e); [exact H2|].
    rewrite Ea at 1. ring.
Qed.

Lemma ilog2_unique (a : Q) (k : Z) :
  0 < a -> 2 ^ k <= a -> a < 2 ^ (k + 1) -> PyFloat.ilog2 a = k.
Proof.
  intros Ha H1 H2. destruct (ilog2_spec a Ha) as [S1 S2].
  assert (A : 2 ^ PyFloat.ilog2 a < 2 ^ (k + 1)) by lra.
  assert (B : 2 ^ k < 2 ^ (PyFloat.ilog2 a + 1)) by lra.
  apply Qpower_lt_compat_l_inv in A; [|reflexivity].
  apply Qpower_lt_compat_l_inv in B; [|reflexivity].
  lia.
Qed.

(** A multiple m * 2^e with at most 53 bits, at an exponent the format
    has, is rounded to itself. *)
Lemma mag_fixed (a : Q) (m e : Z) :
  a == inject_Z m * 2 ^ e ->
  (-1074 <= e)%Z -> (0 < m <= 2 ^ 53)%Z ->
  (e = (-1074)%Z \/ (2 ^ 52 <= m)%Z) ->
  PyFloat.mag a == a.
Proof.
  intros Ea He Hm Hnorm.
  pose proof (two_pow_pos e) as Hpe.
  assert (Hmq : 0 < inject_Z m)
    by (change 0 with (inject_Z 0); rewrite <- Zlt_Qlt; lia).
  assert (Ha : 0 < a) by (rewrite Ea; now apply Qmult_lt_0_compat).
  destruct (Z.eq_dec m (2 ^ 53)) as [->|Hne].
  - assert (Ea' : a == 2 ^ (53 + e)).
    { rewrite Ea, two_pow_plus. now rewrite two_pow_Z by lia. }
    assert (Hl : PyFloat.ilog2 a = (53 + e)%Z).
    { apply ilog2_unique; [exact Ha|rewrite Ea'; apply Qle_refl|].
      rewrite Ea'. apply Qpower_lt_compat_l; [lia|reflexivity]. }
    assert (Hx : PyFloat.expo a = (e + 1)%Z)
      by (unfold PyFloat.expo; rewrite Hl; lia).
    unfold PyFloat.mag. rewrite Hx.
    rewrite (rne_Qeq _ (inject_Z (2 ^ 52))).
    + rewrite rne_Z, Ea'. rewrite two_pow_Z by lia.
      rewrite <- two_pow_plus.
      now replace (52 + (e + 1))%Z with (53 + e)%Z by lia.
    + rewrite Ea', <- two_pow_plus, two_pow_Z by lia.
      now replace (53 + e + - (e + 1))%Z with 52%Z by lia.
  - assert (Hup : a < 2 ^ (53 + e)).
    { rewrite Ea, two_pow_plus. apply Qmult_lt_compat_r; [exact Hpe|].
      rewrite <- two_pow_Z by lia. rewrite <- Zlt_Qlt. lia. }
    assert (Hx : PyFloat.expo a = e).
    { unfold PyFloat.expo. destruct Hnorm as [->|Hn].
      - destruct (ilog2_spec a Ha) as [S1 _].
        assert (A : 2 ^ PyFloat.ilog2 a < 2 ^ (53 + -1074)) by lra.
        apply Qpower_lt_compat_l_inv in A; [lia|reflexivity].
      - assert (Hl : PyFloat.ilog2 a = (52 + e)%Z).
        { apply ilog2_unique; [exact Ha| |].
          - rewrite Ea, two_pow_plus. apply Qmult_le_compat_r; [|lra].
            rewrite <- two_pow_Z by lia. rewrite <- Zle_Qle. exact Hn.
          - now replace (52 + e + 1)%Z with (53 + e)%Z by lia. }
        rewrite Hl. lia. }
    unfold PyFloat.mag. rewrite Hx.
    rewrite (rne_Qeq _ (inject_Z m)).
    + now rewrite rne_Z, Ea.
    + rewrite Ea, <- Qmult_assoc, two_pow_cancel. ring.
Qed.

Lemma round_pos_Qeq (a b : Q) :
  0 < a -> a == b -> PyFloat.round_pos a = PyFloat.round_pos b.
Proof.
  intros Ha E.
  assert (H1 : a <= b) by (rewrite E; apply Qle_refl).
  assert (H2 : b <= a) by (rewrite E; apply Qle_refl).
  apply round_pos_mono in H1; [|exact Ha].
  apply round_pos_mono in H2; [|rewrite <- E; exact Ha].
  revert H1 H2. rewrite !round_pos_mag.
  destruct (Qle_bool _ (PyFloat.mag a)), (Qle_bool _ (PyFloat.mag b));
    unfold PyFloat.fle; intros H1 H2; try contradiction; try reflexivity.
  f_equal. rewrite !Qred_correct in H1, H2.
  apply Qred_complete. now apply Qle_antisym.
Qed.

Lemma round_pos_idem (x y : Q) :
  0 < x -> PyFloat.round_pos x = Fin y ->
  (y == 0 /\ y = 0) \/ (0 < y /\ PyFloat.round_pos y = Fin y).
Proof.
  intros Hx. rewrite round_pos_mag.
  destruct (Qle_bool (2 ^ 1024) (PyFloat.mag x)) eqn:C; [discriminate|].
  intros H. apply Fin_inj in H.
  assert (Hlt : PyFloat.mag x < 2 ^ 1024).
  { apply Qnot_le_lt. intros L. apply Qle_bool_iff in L. congruence. }
  set (e := PyFloat.expo x) in *.
  set (m := PyFloat.rne (x * 2 ^ (- e))) in *.
  assert (Em : PyFloat.mag x = inject_Z m * 2 ^ e) by reflexivity.
  pose proof (two_pow_pos e) as Hpe.
  destruct (ilog2_spec x Hx) as [S1 S2].
  assert (Hm0 : (0 <= m)%Z).
  { unfold m. rewrite <- (rne_Z 0). apply rne_mono.
    apply Qmult_le_0_compat; [lra|apply Qlt_le_weak, two_pow_pos]. }
  assert (Hm53 : (m <= 2 ^ 53)%Z).
  { unfold m. rewrite <- (rne_Z (2 ^ 53)). apply rne_mono.
    change (inject_Z (2 ^ 53)) with (2 ^ 53).
    apply Qlt_le_weak.
    apply (Qmult_lt_r _ _ (2 ^ e) Hpe).
    rewrite <- Qmult_assoc, (Qmult_comm (2 ^ (- e))), two_pow_cancel.
    rewrite Qmult_1_r, <- two_pow_plus.
    assert (Hexp : (PyFloat.ilog2 x + 1 <= 53 + e)%Z)
      by (unfold e, PyFloat.expo; lia).
    exact (Qlt_le_trans _ _ _ S2 (two_pow_le _ _ Hexp)). }
  assert (Hnorm : e = (-1074)%Z \/ (2 ^ 52 <= m)%Z).
  { destruct (Z.eq_dec e (-1074)) as [E|NE]; [now left|right].
    unfold m. rewrite <- (rne_Z (2 ^ 52)). apply rne_mono.
    change (inject_Z (2 ^ 52)) with (2 ^ 52).
    apply (Qmult_le_r _ _ (2 ^ e) Hpe).
    rewrite <- Qmult_assoc, (Qmult_comm (2 ^ (- e))), two_pow_cancel.
    rewrite Qmult_1_r, <- two_pow_plus.
    assert (Hexp : (52 + e <= PyFloat.ilog2 x)%Z)
      by (unfold e, PyFloat.expo in *; lia).
    exact (Qle_trans _ _ _ (two_pow_le _ _ Hexp) S1). }
  assert (Ey : y == inject_Z m * 2 ^ e)
    by (rewrite <- H, Qred_correct, Em; reflexivity).
  destruct (Z.eq_dec m 0) as [Z0|NZ].
  - left. assert (E0 : y == 0) by (rewrite Ey, Z0; ring).
    split; [exact E0|]. rewrite <- H. rewrite <- H in E0.
    rewrite Qred_correct in E0. exact (Qred_complete _ 0 E0).
  - right.
    assert (Hy : 0 < y).
    { rewrite Ey. apply Qmult_lt_0_compat; [|exact Hpe].
      change 0 with (inject_Z 0). rewrite <- Zlt_Qlt. lia. }
    split; [exact Hy|].
    assert (Hfix : PyFloat.mag y == y).
    { apply (mag_fixed y m e Ey);
        [unfold e, PyFloat.expo; lia|lia|exact Hnorm]. }
    rewrite round_pos_mag.
    assert (C' : Qle_bool (2 ^ 1024) (PyFloat.mag y) = false).
    { destruct (Qle_bool (2 ^ 1024) (PyFloat.mag y)) eqn:C'; [|reflexivity].
      apply Qle_bool_iff in C'. rewrite Hfix, Ey, <- Em in C'. lra. }
    rewrite C'. f_equal. rewrite <- H at 2. apply Qred_complete.
    rewrite Hfix, <- H. apply Qred_correct.
Qed.

(** Rounding is a projection: a binary64 value is rounded to itself. *)
Lemma round64_idem (x y : Q) :
  PyFloat.round64 x = Fin y -> PyFloat.round64 y = Fin y.
Proof.
  unfold PyFloat.round64 at 1.
  destruct (Qcompare_spec x 0) as [E|L|G].
  - intros H. apply Fin_inj in H. now subst y.
  - destruct (PyFloat.round_pos (- x)) as [z|s|] eqn:R;
      unfold PyFloat.fneg; try discriminate.
    intros H. apply Fin_inj in H.
    destruct (round_pos_idem (- x) z ltac:(lra) R) as [[_ ->]|[Hz Rz]].
    + now subst y.
    + assert (Ey : y == - z) by (rewrite <- H; apply Qred_correct).
      unfold PyFloat.round64.
      assert (C : (y ?= 0) = Lt) by (apply (proj1 (Qlt_alt _ _)); lra).
      rewrite C.
      rewrite (round_pos_Qeq (- y) z); [|lra|rewrite Ey; ring].
      rewrite Rz. unfold PyFloat.fneg. now rewrite H.
  - intros R.
    destruct (round_pos_idem x y G R) as [[_ ->]|[Hy Ry]]; [reflexivity|].
    unfold PyFloat.round64.
    assert (C : (y ?= 0) = Gt) by (apply (proj1 (Qgt_alt _ _)); lra).
    now rewrite C.
Qed.

Lemma fle_Inf_true (b : pyfloat) : b <> NaN -> PyFloat.fle (Inf true) b.
Proof. destruct b as [y|[|]|]; unfold PyFloat.fle; auto. Qed.

Lemma fle_Inf_false (a : pyfloat) : a <> NaN -> PyFloat.fle a (Inf false).
Proof. destruct a as [x|[|]|]; unfold PyFloat.fle; auto. Qed.

Lemma rounded_mono (a b : pyfloat) :
  PyFloat.fle a b -> PyFloat.fle (PyFloat.rounded a) (PyFloat.rounded b).
Proof.
  destruct a as [x|[|]|], b as [y|[|]|];
    unfold PyFloat.rounded; intros H;
    try (unfold PyFloat.fle in H; contradiction);
    try exact H.
  - now apply round64_mono.
  - apply fle_Inf_false, round64_not_nan.
  - apply fle_Inf_true, round64_not_nan.
Qed.

Lemma fsub_mono (a b : pyfloat) (c : Q) :
  PyFloat.fle a b ->
  PyFloat.fle (PyFloat.fsub a (Fin c)) (PyFloat.fsub b (Fin c)).
Proof.
  destruct a as [x|[|]|], b as [y|[|]|];
    unfold PyFloat.fle, PyFloat.fsub; intros H;
    try contradiction; try exact I.
  rewrite !Qred_correct. lra.
Qed.

Lemma fmul_mono (a b : pyfloat) (s : Q) :
  0 < s ->
  PyFloat.fle a b ->
  PyFloat.fle (PyFloat.fmul a (Fin s)) (PyFloat.fmul b (Fin s)).
Proof.
  intros Hs.
  assert (C : (s ?= 0) = Gt) by now apply (proj1 (Qgt_alt s 0)).
  destruct a as [x|[|]|], b as [y|[|]|];
    unfold PyFloat.fle, PyFloat.fmul; rewrite ?C; intros H;
    try contradiction; try exact I.
  rewrite !Qred_correct. now apply Qmult_le_compat_r; [|apply Qlt_le_weak].
Qed.

Lemma fadd_mono (a b : pyfloat) (c : Q) :
  PyFloat.fle a b ->
  PyFloat.fle (PyFloat.fadd (Fin c) a) (PyFloat.fadd (Fin c) b).
Proof.
  destruct a as [x|[|]|], b as [y|[|]|];
    unfold PyFloat.fle, PyFloat.fadd; intros H;
    try contradiction; try exact I.
  rewrite !Qred_correct. lra.
Qed.

Lemma sub64_mono (a b : pyfloat) (c : Q) :
  PyFloat.fle a b ->
  PyFloat.fle (PyFloat.sub64 a (Fin c)) (PyFloat.sub64 b (Fin c)).
Proof. intros H. now apply rounded_mono, fsub_mono. Qed.

Lemma mul64_mono (a b : pyfloat) (s : Q) :
  0 < s ->
  PyFloat.fle a b ->
  PyFloat.fle (PyFloat.mul64 a (Fin s)) (PyFloat.mul64 b (Fin s)).
Proof. intros Hs H. now apply rounded_mono, fmul_mono. Qed.

Lemma add64_mono (a b : pyfloat) (c : Q) :
  PyFloat.fle a b ->
  PyFloat.fle (PyFloat.add64 (Fin c) a) (PyFloat.add64 (Fin c) b).
Proof. intros H. now apply rounded_mono, fadd_mono. Qed.

Local Close Scope Q_scope.

(** ** The volume pipeline *)

Lemma volume_scaler_built :
  make_interpolator (Fin (-30)) (Fin 0) (Fin (-1 # 2)) (Fin 100)
  = Ok volume_scaler.
Proof. reflexivity. Qed.



Lemma trunc_nonpos (q : Q) : (q < 0)%Q -> (PyFloat.trunc q <= 0)%Z.
Proof.
  destruct q as [n d]. unfold Qlt, PyFloat.trunc. simpl. intros H.
  assert (Hn : (n < 0)%Z) by lia.
  replace n with (- - n)%Z by lia.
  rewrite Z.quot_opp_l by lia.
  assert (0 <= (- n) ÷ Z.pos d)%Z by (apply Z.quot_pos; lia).
  lia.
Qed.

Lemma trunc_floor (q : Q) : (0 <= q)%Q -> PyFloat.trunc q = Qfloor q.
Proof.
  destruct q as [n d]. unfold Qle, PyFloat.trunc, Qfloor. simpl. intros H.
  apply Z.quot_div_nonneg; lia.
Qed.

Lemma trunc_ceiling (q : Q) : (q <= 0)%Q -> PyFloat.trunc q = Qceiling q.
Proof.
  destruct q as [n d]. unfold Qle, PyFloat.trunc, Qceiling, Qfloor. simpl.
  intros H.
  replace n with (- - n)%Z at 1 by lia.
  rewrite Z.quot_opp_l by lia. f_equal.
  apply Z.quot_div_nonneg; lia.
Qed.

Lemma trunc_mono (x y : Q) :
  (x <= y)%Q -> (PyFloat.trunc x <= PyFloat.trunc y)%Z.
Proof.
  intros H.
  destruct (Qlt_le_dec x 0) as [Hx|Hx]; destruct (Qlt_le_dec y 0) as [Hy|Hy].
  - rewrite (trunc_ceiling x), (trunc_ceiling y) by lra.
    now apply Qceiling_resp_le.
  - pose proof (trunc_nonpos x Hx) as Hneg.
    rewrite (trunc_floor y Hy).
    assert (Hfl : (Qfloor 0 <= Qfloor y)%Z) by now apply Qfloor_resp_le.
    change (Qfloor 0) with 0%Z in Hfl. lia.
  - lra.
  - rewrite (trunc_floor x), (trunc_floor y) by assumption.
    now apply Qfloor_resp_le.
Qed.

Lemma trunc_below (q : Q) (n : Z) :
  (q < inject_Z n)%Q -> (0 < n)%Z -> (PyFloat.trunc q < n)%Z.
Proof.
  intros Hq Hn.
  destruct (Qlt_le_dec q 0) as [Hneg|Hpos].
  - pose proof (trunc_nonpos q Hneg). lia.
  - rewrite (trunc_floor q Hpos).
    pose proof (Qfloor_le q) as Hf.
    assert (H : (inject_Z (Qfloor q) < inject_Z n)%Q) by lra.
    now rewrite <- Zlt_Qlt in H.
Qed.

Lemma Ok_inj {A} (a b : A) : Ok a = Ok b -> a = b.
Proof. intros H. now injection H. Qed.

Lemma float_raises_ValueError (s : string) (e : exn) :
  PyFloat.float s = Raise e -> is_ValueError e = true.
Proof.
  unfold PyFloat.float.
  destruct (PyFloat.take_sign _) as [negative body].
  destruct (_ || _); [discriminate|].
  destruct (String.eqb _ "nan"); [discriminate|].
  destruct (PyFloat.floatnumber body); [discriminate|].
  intros H. injection H as <-. reflexivity.
Qed.

(** [float] returns a binary64 value: one that rounding leaves as it
    is. *)
Lemma float_is_binary64 (s : string) (v : Q) :
  PyFloat.float s = Ok (Fin v) -> PyFloat.round64 v = Fin v.
Proof.
  unfold PyFloat.float.
  destruct (PyFloat.take_sign _) as [negative body].
  destruct (_ || _); [discriminate|].
  destruct (String.eqb _ "nan"); [discriminate|].
  destruct (PyFloat.floatnumber body) as [q|]; [|discriminate].
  intros H. apply Ok_inj in H. exact (round64_idem _ _ H).
Qed.

(** The scale factor of the volume interpolator: 100.5 / 30.0 in binary64,
    the value nearest to 3.35. *)
Lemma volume_scale_factor :
  PyFloat.div64 (PyFloat.sub64 (Fin 100) (Fin (-1 # 2)))
                (PyFloat.sub64 (Fin 0) (Fin (-30)))
  = Ok (Fin (7543529375845581 # 2251799813685248))
  /\ PyFloat.round64 (67 # 20) = Fin (7543529375845581 # 2251799813685248).
Proof. split; vm_compute; reflexivity. Qed.

Lemma volume_scaler_binary64_built :
  make_interpolator_binary64 (Fin (-30)) (Fin 0) (Fin (-1 # 2)) (Fin 100)
  = Ok volume_scaler_binary64.
Proof.
  unfold volume_scaler_binary64, make_interpolator_binary64.
  rewrite (proj1 volume_scale_factor). reflexivity.
Qed.

Lemma volume_scaler_binary64_line (x : pyfloat) :
  volume_scaler_binary64 x
  = PyFloat.add64 (Fin (-1 # 2))
      (PyFloat.mul64 (PyFloat.sub64 x (Fin (-30)))
                     (Fin (7543529375845581 # 2251799813685248))).
Proof.
  unfold volume_scaler_binary64, make_interpolator_binary64.
  rewrite (proj1 volume_scale_factor). reflexivity.
Qed.

(** The interpolator is non-decreasing as it runs, over all floats but
    NaN. *)
Lemma volume_scaler_binary64_mono (x y : pyfloat) :
  PyFloat.fle x y ->
  PyFloat.fle (volume_scaler_binary64 x) (volume_scaler_binary64 y).
Proof.
  intros H. rewrite !volume_scaler_binary64_line.
  apply add64_mono, mul64_mono; [reflexivity|]. now apply sub64_mono.
Qed.

Lemma volume_scaler_binary64_samples :
  volume_scaler_binary64 (Fin (-30)) = Fin (-1 # 2)
  /\ volume_scaler_binary64 (Fin 0) = Fin 100
  /\ PyFloat.to_int (volume_scaler_binary64 (Fin (-31))) = Ok (-3)%Z
  /\ PyFloat.to_int (volume_scaler_binary64 (Fin 1)) = Ok 103%Z
  /\ PyFloat.to_int (volume_scaler_binary64 (Fin (-144))) = Ok (-382)%Z.
Proof. repeat split; vm_compute; reflexivity. Qed.

Lemma to_int_mono (x y : pyfloat) (p1 p2 : Z) :
  PyFloat.fle x y ->
  PyFloat.to_int x = Ok p1 -> PyFloat.to_int y = Ok p2 -> (p1 <= p2)%Z.
Proof.
  destruct x as [a|s|], y as [b|t|]; try discriminate.
  unfold PyFloat.fle, PyFloat.to_int. intros H H1 H2.
  apply Ok_inj in H1, H2. subst p1 p2. now apply trunc_mono.
Qed.

Lemma to_int_Ok (x : pyfloat) (p : Z) :
  PyFloat.to_int x = Ok p -> exists q : Q, x = Fin q /\ p = PyFloat.trunc q.
Proof.
  destruct x as [q|s|]; try discriminate.
  intros H. apply Ok_inj in H. eauto.
Qed.

Lemma volume_data_fields (message : Message) (text a b c d : string) :
  PyBytes.decode_ascii (payload message) = Ok text ->
  PyStr.split_comma text = [a; b; c; d] ->
  volume_data message
  = rbind (try_except_ValueError
             (rbind (PyFloat.float a)
                    (fun x => Ok (volume_scaler_binary64 x)))
             (Ok (Fin 50)))
      PyFloat.to_int.
Proof.
  intros Hd Hs. unfold volume_data. rewrite Hd. simpl. rewrite Hs.
  reflexivity.
Qed.

Lemma on_message_volume (octets : list byte) (w : World) :
  on_message (mkMessage (_form_subtopic_topic "volume") octets) w
  = match volume_data (mkMessage (_form_subtopic_topic "volume") octets) with
    | Ok data => (sent_only w "volume" (PPercent data), Ok tt)
    | Raise e => (w, Raise e)
    end.
Proof.
  rewrite (on_message_branch "volume") by reflexivity.
  change (branch_of "volume" ?m w) with (_send_volume_event "volume" m w).
  apply send_volume_event_data.
Qed.

(** The part of the fallback that the code does implement: with exactly
    four ASCII fields, a first field that [float] rejects gives 50. *)
Lemma volume_fallback_with_four_fields
      (octets : list byte) (text a b c d : string) (w : World) :
  PyBytes.decode_ascii octets = Ok text ->
  PyStr.split_comma text = [a; b; c; d] ->
  (forall x, PyFloat.float a <> Ok x) ->
  on_message (mkMessage (_form_subtopic_topic "volume") octets) w
  = (sent_only w "volume" (PPercent 50), Ok tt).
Proof.
  intros Hd Hs Hf. rewrite on_message_volume.
  rewrite (volume_data_fields (mkMessage _ octets) text a b c d Hd Hs).
  destruct (PyFloat.float a) as [x|e] eqn:F; [now elim (Hf x)|].
  simpl. rewrite (float_raises_ValueError _ _ F). reflexivity.
Qed.

Lemma on_message_volume_number
      (octets : list byte) (text a b c d : string) (x : pyfloat) (w : World) :
  PyBytes.decode_ascii octets = Ok text ->
  PyStr.split_comma text = [a; b; c; d] ->
  PyFloat.float a = Ok x ->
  on_message (mkMessage (_form_subtopic_topic "volume") octets) w
  = match PyFloat.to_int (volume_scaler_binary64 x) with
    | Ok data => (sent_only w "volume" (PPercent data), Ok tt)
    | Raise e => (w, Raise e)
    end.
Proof.
  intros Hd Hs Hf. rewrite on_message_volume.
  rewrite (volume_data_fields (mkMessage _ octets) text a b c d Hd Hs), Hf.
  reflexivity.
Qed.

(** C8 (as amended): a volume below -30.0 is neither clamped nor
    special-cased. The pipeline applies the same line to it in binary64
    arithmetic, -0.5 + (v - -30.0) * s with s the float nearest to 3.35 and
    each operation rounded. Either the scaled value is finite, and then it
    is at most -0.5 and the percentage sent is its truncation towards zero,
    which is at most 0, and at most -3 once v <= -31; or the product
    overflows to minus infinity, [int] raises OverflowError and nothing is
    sent. The mute sentinel -144.00 is sent as -382, and -1e308 is a volume
    that overflows. *)
Theorem C8_volume_below_range_is_extrapolated :
  forall (octets : list byte) (text a b c d : string) (v : Q) (w : World),
    PyBytes.decode_ascii octets = Ok text ->
    PyStr.split_comma text = [a; b; c; d] ->
    PyFloat.float a = Ok (Fin v) ->
    (v < -30)%Q ->
    (volume_scaler_binary64 (Fin v)
     = PyFloat.add64 (Fin (-1 # 2))
         (PyFloat.mul64 (PyFloat.sub64 (Fin v) (Fin (-30)))
                        (Fin (7543529375845581 # 2251799813685248)))
     /\ PyFloat.round64 (67 # 20)
        = Fin (7543529375845581 # 2251799813685248))
    /\ ((exists q : Q,
            volume_scaler_binary64 (Fin v) = Fin q
            /\ (q <= -1 # 2)%Q
            /\ on_message (mkMessage (_form_subtopic_topic "volume") octets) w
               = (sent_only w "volume" (PPercent (PyFloat.trunc q)), Ok tt)
            /\ (PyFloat.trunc q <= 0)%Z
            /\ ((v <= -31)%Q -> (PyFloat.trunc q <= -3)%Z))
        \/ (volume_scaler_binary64 (Fin v) = Inf true
            /\ on_message (mkMessage (_form_subtopic_topic "volume") octets) w
               = (w, Raise (OverflowError
                              "cannot convert float infinity to integer"))))
    /\ (PyFloat.float "-144.00" = Ok (Fin (-144))
        /\ PyFloat.to_int (volume_scaler_binary64 (Fin (-144)))
           = Ok (-382)%Z)
    /\ rbind (PyFloat.float "-1e308")
             (fun x => Ok (volume_scaler_binary64 x))
       = Ok (Inf true).
Proof.
  intros octets text a b c d v w Hd Hs Hf Hv.
  split; [split; [apply volume_scaler_binary64_line
                 |apply volume_scale_factor]|].
  split; [|split; [split|]; vm_compute; reflexivity].
  rewrite (on_message_volume_number octets text a b c d (Fin v) w Hd Hs Hf).
  pose proof (volume_scaler_binary64_mono (Fin v) (Fin (-30))
                (Qlt_le_weak _ _ Hv)) as Hlow.
  rewrite (proj1 volume_scaler_binary64_samples) in Hlow.
  destruct (volume_scaler_binary64 (Fin v)) as [q|[|]|] eqn:R;
    unfold PyFloat.fle in Hlow; try contradiction.
  - left. exists q. split; [reflexivity|]. split; [exact Hlow|].
    split; [reflexivity|]. split; [apply trunc_nonpos; lra|].
    intros H31.
    destruct volume_scaler_binary64_samples as (_ & _ & E31 & _).
    apply (to_int_mono (Fin q) (volume_scaler_binary64 (Fin (-31))));
      [|reflexivity|exact E31].
    rewrite <- R. now apply volume_scaler_binary64_mono.
  - right. split; reflexivity.
Qed.


(** C10: each of the thirteen remote requests a client can send reaches a
    handler whose hard-coded token is in [known_remote_commands]; the
    handler does not raise and publishes exactly one message, the token, to
    root/remote, leaving the cache and the emits as they were. *)
Theorem C10_remote_requests_publish_once :
  List.length remote_requests = 13%nat
  /\ Forall
       (fun '(name, token) =>
          In token known_remote_commands
          /\ forall (from : sid) (json : Json) (w : World),
              dispatch (Client from name json) w
              = (mkWorld (SAVED_INFO w) (emitted w)
                   (published w
                    ++ [((TOPIC_ROOT ++ "/remote")%string, token)])%list,
                 Ok tt))
       remote_requests.
Proof.
  split; [reflexivity|].
  unfold remote_requests.
  repeat (apply Forall_cons; [split; [in_list|intros; reflexivity]|]).
  apply Forall_nil.
Qed.

(** * Further properties of the bridge *)

(** ** One broker message *)

Lemma on_message_outcome (message : Message) (w : World) :
  (exists e, on_message message w = (w, Raise e))
  \/ (Effect w message (fst (on_message message w))
      /\ snd (on_message message w) = Ok tt).
Proof.
  destruct (handled_or_not message) as [(sub & Hin & Htopic)|Hnone].
  2:{ right. rewrite on_message_unhandled by exact Hnone.
      split; [apply Nothing|reflexivity]. }
  rewrite (on_message_branch sub) by exact Htopic.
  unfold handled_subtopics, text_subtopics, play_subtopics in Hin.
  simpl in Hin.
  destruct Hin as [<-|[<-|[<-|[<-|Hin]]]].
  1-4: unfold branch_of;
       cbn [PyStr.mem existsb text_subtopics String.eqb Ascii.eqb Bool.eqb orb];
       destruct (PyBytes.decode_utf8 (payload message)) as [text|e] eqn:D;
       [rewrite (send_and_store_ok _ _ _ text D); right
       |rewrite (send_and_store_raise _ _ _ e D); left; now exists e].
  1: split; [exact (Stored w message "artist" (PText text) ltac:(in_list) Htopic)
            |reflexivity].
  1: split; [exact (Stored w message "album" (PText text) ltac:(in_list) Htopic)
            |reflexivity].
  1: split; [exact (Stored w message "genre" (PText text) ltac:(in_list) Htopic)
            |reflexivity].
  1: split; [exact (Stored w message "title" (PText text) ltac:(in_list) Htopic)
            |reflexivity].
  destruct Hin as [<-|[<-|[<-|[<-|Hin]]]].
  1: right; split;
     [exact (Sent w message "play_start" _ ltac:(in_list) Htopic)|reflexivity].
  1: right; split;
     [exact (Sent w message "play_end" _ ltac:(in_list) Htopic)|reflexivity].
  1: right; split;
     [exact (Sent w message "play_flush" _ ltac:(in_list) Htopic)|reflexivity].
  1: right; split;
     [exact (Sent w message "play_resume" _ ltac:(in_list) Htopic)|reflexivity].
  destruct Hin as [<-|[<-|[]]].
  - change (branch_of "volume" message w)
      with (_send_volume_event "volume" message w).
    rewrite send_volume_event_data.
    destruct (volume_data message) as [data|e]; [right|left; now exists e].
    split; [exact (Sent w message "volume" _ ltac:(in_list) Htopic)|reflexivity].
  - rewrite cover_branch_ok. right.
    split; [exact (Stored w message "cover" _ ltac:(in_list) Htopic)|reflexivity].
Qed.

Lemma effect_shape (message : Message) (w w' : World) :
  Effect w message w' ->
  published w' = published w
  /\ exists extra,
       emitted w' = (emitted w ++ extra)%list
       /\ (List.length extra <= 1)%nat
       /\ Forall (fun e => to e = None) extra.
Proof.
  intros [|sub v _ _|sub v _ _]; (split; [reflexivity|]).
  - exists []. rewrite app_nil_r. repeat split; auto.
  - eexists. split; [reflexivity|]. split; [apply le_n|]. repeat constructor.
  - eexists. split; [reflexivity|]. split; [apply le_n|]. repeat constructor.
Qed.

(** X1: handling a broker message never publishes to the broker, adds at
    most one emit, which is a broadcast, and is all or nothing: when the
    handler raises, the cache, the emits and the publishes are exactly as
    before. *)
Theorem X1_on_message_is_atomic :
  forall (message : Message) (w : World),
    published (fst (on_message message w)) = published w
    /\ (exists extra,
           emitted (fst (on_message message w)) = (emitted w ++ extra)%list
           /\ (List.length extra <= 1)%nat
           /\ Forall (fun e => to e = None) extra)
    /\ (forall e, snd (on_message message w) = Raise e ->
                  fst (on_message message w) = w).
Proof.
  intros message w.
  destruct (effect_shape _ _ _ (on_message_effect message w)) as [Hp He].
  repeat apply conj; [exact Hp|exact He|].
  intros e Hr.
  destruct (on_message_outcome message w) as [(e' & E)|[_ Hok]].
  - now rewrite E.
  - rewrite Hok in Hr. discriminate.
Qed.

(** X2: a broker message makes its handler raise in exactly two ways: a
    message on one of the four text topics whose payload is not well-formed
    UTF-8, or a message on the volume topic whose volume computation
    raises. Play, cover and all other messages never raise. *)
Theorem X2_on_message_raises_iff :
  forall (message : Message) (w : World) (e : exn),
    snd (on_message message w) = Raise e
    <-> (exists subtopic,
            In subtopic text_subtopics
            /\ topic message = _form_subtopic_topic subtopic
            /\ PyBytes.decode_utf8 (payload message) = Raise e)
        \/ (topic message = _form_subtopic_topic "volume"
            /\ volume_data message = Raise e).
Proof.
  intros message w e. split.
  - destruct (handled_or_not message) as [(sub & Hin & Htopic)|Hnone].
    2:{ rewrite on_message_unhandled by exact Hnone. discriminate. }
    rewrite (on_message_branch sub) by exact Htopic.
    unfold handled_subtopics, text_subtopics, play_subtopics in Hin.
    simpl in Hin.
    destruct Hin as [<-|[<-|[<-|[<-|Hin]]]].
    1-4: unfold branch_of;
         cbn [PyStr.mem existsb text_subtopics String.eqb Ascii.eqb Bool.eqb
              orb];
         destruct (PyBytes.decode_utf8 (payload message)) as [text|e'] eqn:D;
         [rewrite (send_and_store_ok _ _ _ text D); discriminate
         |rewrite (send_and_store_raise _ _ _ e' D); intros H;
          injection H as <-; left;
          match type of Htopic with
          | _ = _form_subtopic_topic ?s => exists s
          end;
          split; [in_list|split; [exact Htopic|reflexivity]]].
    destruct Hin as [<-|[<-|[<-|[<-|Hin]]]].
    1-4: intros H; vm_compute in H; discriminate H.
    destruct Hin as [<-|[<-|[]]].
    + change (branch_of "volume" message w)
        with (_send_volume_event "volume" message w).
      rewrite send_volume_event_data.
      destruct (volume_data message) as [data|e']; [discriminate|].
      intros H. injection H as <-. right. auto.
    + rewrite cover_branch_ok. discriminate.
  - intros [(sub & Hin & Htopic & D)|[Htopic D]].
    + rewrite (on_message_branch sub) by exact Htopic.
      unfold branch_of. rewrite (proj2 (mem_In _ _) Hin).
      now rewrite (send_and_store_raise _ _ _ e D).
    + rewrite (on_message_branch "volume") by exact Htopic.
      change (branch_of "volume" message w)
        with (_send_volume_event "volume" message w).
      rewrite send_volume_event_data, D. reflexivity.
Qed.

(** ** The cache over a run *)

Lemma Dict_set_In {V} (d : list (string * V)) k v k' v' :
  In (k', v') (Dict.set d k v) -> (k', v') = (k, v) \/ In (k', v') d.
Proof.
  induction d as [|[k0 v0] d IH]; simpl.
  - intros [E|[]]. left. now symmetry.
  - destruct (String.eqb_spec k0 k) as [->|Hk]; simpl.
    + intros [E|H]; [left; now symmetry|now right; right].
    + intros [E|H]; [now right; left|].
      destruct (IH H); [now left|now right; right].
Qed.

Lemma Dict_set_keys_present {V} (d : list (string * V)) k v :
  In k (Dict.keys d) -> Dict.keys (Dict.set d k v) = Dict.keys d.
Proof.
  induction d as [|[k0 v0] d IH]; simpl; intros H; [contradiction|].
  destruct (String.eqb_spec k0 k) as [->|Hk]; simpl; [reflexivity|].
  f_equal. apply IH. destruct H as [E|H]; [contradiction|exact H].
Qed.

Lemma Dict_keys_set_same {V} (d : list (string * V)) k v :
  In k (Dict.keys (Dict.set d k v)).
Proof.
  induction d as [|[k0 v0] d IH]; simpl; [now left|].
  destruct (String.eqb_spec k0 k) as [->|Hk]; simpl; auto.
Qed.

Lemma client_emits_grow (from : sid) (name : string) (json : Json) (w : World) :
  exists extra,
    emitted (step w (Client from name json)) = (emitted w ++ extra)%list.
Proof.
  unfold step, dispatch, socketio_handlers, Dict.get.
  repeat match goal with
  | |- context [if String.eqb ?a name then _ else _] =>
    destruct (String.eqb a name)
  end;
  try (exists []; rewrite app_nil_r; reflexivity).
  unfold handle_my_custom_event. rewrite for_each_emit. simpl. eauto.
Qed.

(** X3: in every world the bridge can reach from start-up, the cache holds
    each event name at most once and only the five names playing_artist,
    playing_album, playing_genre, playing_title and cover_art, so it never
    has more than five entries, however many messages arrived. *)
Theorem X3_cache_is_bounded :
  forall history : list Input,
    NoDup (Dict.keys (SAVED_INFO (run initial_world history)))
    /\ incl (Dict.keys (SAVED_INFO (run initial_world history))) cached_kinds
    /\ (List.length (SAVED_INFO (run initial_world history)) <= 5)%nat.
Proof.
  intros history.
  assert (Hnd : NoDup (Dict.keys (SAVED_INFO (run initial_world history))))
    by (apply run_keys_NoDup; constructor).
  assert (Hin : incl (Dict.keys (SAVED_INFO (run initial_world history)))
                     cached_kinds)
    by (intros k; apply run_keys_cached; intros k' []).
  repeat apply conj; [exact Hnd|exact Hin|].
  pose proof (NoDup_incl_length Hnd Hin) as H.
  unfold Dict.keys in H. rewrite length_map in H. exact H.
Qed.

Lemma run_entries_were_sent (inputs : list Input) (w : World) :
  (forall K v, In (K, v) (SAVED_INFO w) -> In (mkEmit K v None) (emitted w)) ->
  forall K v, In (K, v) (SAVED_INFO (run w inputs)) ->
              In (mkEmit K v None) (emitted (run w inputs)).
Proof.
  revert w. induction inputs as [|i inputs IH]; intros w H; [exact H|].
  rewrite run_cons. apply IH. clear IH. intros K v.
  destruct i as [m|from name json].
  - unfold step, dispatch.
    destruct (on_message_effect m w) as [|sub v' _ _|sub v' _ _].
    + apply H.
    + unfold stored_and_sent. simpl. intros Hin.
      apply Dict_set_In in Hin. apply in_or_app.
      destruct Hin as [E|Hin]; [right|left; now apply H].
      injection E as -> ->. now left.
    + unfold sent_only. simpl. intros Hin. apply in_or_app. left. now apply H.
  - rewrite client_keeps_cache.
    destruct (client_emits_grow from name json w) as (extra & ->).
    intros Hin. apply in_or_app. left. now apply H.
Qed.

(** X4: the cache never holds a value the clients were not sent: in every
    reachable world each cached entry (K, v) occurs among the emits as a
    broadcast of event K with payload v. *)
Theorem X4_cached_entries_were_sent :
  forall (history : list Input) (K : string) (v : Payload),
    In (K, v) (SAVED_INFO (run initial_world history)) ->
    In (mkEmit K v None) (emitted (run initial_world history)).
Proof.
  intros history. apply run_entries_were_sent. intros K v [].
Qed.

(** X5: a second event of a cached kind overwrites the first: when two
    broker messages in a row each produce an event of the same cached kind
    K, the cache afterwards has the same keys in the same order as after the
    first, and its entry for K is the second value. *)
Theorem X5_second_update_overwrites :
  forall (w : World) (first second : Message) (K : string) (v1 v2 : Payload),
    In K cached_kinds ->
    new_emits w (step w (Mqtt first)) = [mkEmit K v1 None] ->
    new_emits (step w (Mqtt first))
              (step (step w (Mqtt first)) (Mqtt second))
    = [mkEmit K v2 None] ->
    Dict.keys (SAVED_INFO (step (step w (Mqtt first)) (Mqtt second)))
    = Dict.keys (SAVED_INFO (step w (Mqtt first)))
    /\ Dict.get (SAVED_INFO (step (step w (Mqtt first)) (Mqtt second))) K
       = Some v2.
Proof.
  intros w first second K v1 v2 HK H1 H2.
  assert (Hkey : In K (Dict.keys (SAVED_INFO (step w (Mqtt first))))).
  { revert H1. unfold step, dispatch.
    destruct (on_message_effect first w) as [|sub v _ _|sub v Hin _].
    - rewrite new_emits_same. discriminate.
    - unfold stored_and_sent. rewrite new_emits_app. intros E.
      injection E as -> _. simpl. apply Dict_keys_set_same.
    - unfold sent_only. rewrite new_emits_app. intros E.
      injection E as -> _. exfalso. exact (transient_not_cached _ Hin HK). }
  revert H2. generalize dependent (step w (Mqtt first)). intros w1 _ Hkey.
  unfold step, dispatch.
  destruct (on_message_effect second w1) as [|sub v _ _|sub v Hin _].
  - rewrite new_emits_same. discriminate.
  - unfold stored_and_sent. rewrite new_emits_app. intros E.
    injection E as -> ->. simpl.
    split; [now apply Dict_set_keys_present|apply Dict_get_set_same].
  - unfold sent_only. rewrite new_emits_app. intros E.
    injection E as -> _. exfalso. exact (transient_not_cached _ Hin HK).
Qed.

(** ** The broker traffic over a run *)

Lemma step_publishes (w : World) (i : Input) :
  published (step w i) = (published w ++ publishes_of i)%list.
Proof.
  destruct i as [m|from name json].
  - unfold step, dispatch. simpl publishes_of. rewrite app_nil_r.
    exact (proj1 (effect_shape _ _ _ (on_message_effect m w))).
  - unfold step, dispatch, publishes_of, socketio_handlers, remote_requests,
      Dict.get.
    destruct (String.eqb "myevent" name) eqn:E0.
    { apply String.eqb_eq in E0. subst name.
      unfold handle_my_custom_event. rewrite for_each_emit. simpl.
      now rewrite app_nil_r. }
    repeat match goal with
    | |- context [if String.eqb ?a name then _ else _] =>
      destruct (String.eqb a name)
    end;
    try reflexivity.
    simpl. now rewrite app_nil_r.
Qed.

Lemma run_publishes (inputs : list Input) (w : World) :
  published (run w inputs)
  = (published w ++ flat_map publishes_of inputs)%list.
Proof.
  revert w. induction inputs as [|i inputs IH]; intros w.
  - simpl. now rewrite app_nil_r.
  - rewrite run_cons, IH, step_publishes. simpl. now rewrite app_assoc.
Qed.

(** X6: what the bridge publishes to the broker is a function of the client
    requests alone: a run from start-up has published, in order, one message
    (root/remote, token) for each of the thirteen remote requests received,
    and nothing for broker messages, replays or unknown requests. Every
    publish goes to root/remote and none carries the token command, which
    [known_remote_commands] accepts but no handler sends. *)
Theorem X6_publishes_follow_remote_requests :
  forall history : list Input,
    published (run initial_world history) = flat_map publishes_of history
    /\ Forall (fun p => fst p = TOPIC_ROOT ++ "/remote"
                        /\ In (snd p) known_remote_commands
                        /\ snd p <> "command")
              (published (run initial_world history)).
Proof.
  intros history. rewrite run_publishes. simpl. split; [reflexivity|].
  apply Forall_forall. intros p Hp. apply in_flat_map in Hp.
  destruct Hp as (i & _ & Hp). destruct i as [m|from name json]; [destruct Hp|].
  unfold publishes_of in Hp.
  destruct (Dict.get remote_requests name) as [token|] eqn:G; [|destruct Hp].
  destruct Hp as [<-|[]]. simpl.
  revert G. unfold remote_requests, Dict.get.
  repeat match goal with
  | |- context [if String.eqb ?a name then _ else _] =>
    destruct (String.eqb a name)
  end;
  intros G; try discriminate G; injection G as <-;
  (split; [reflexivity|split; [in_list|discriminate]]).
Qed.

(** X7: a client request other than the replay never reaches the clients or
    the cache: it leaves the emits and [SAVED_INFO] as they were; and a
    request name that no handler is registered for changes nothing at
    all. *)
Theorem X7_remote_requests_keep_clients_and_cache :
  forall (from : sid) (name : string) (json : Json) (w : World),
    (name <> "myevent" ->
     emitted (step w (Client from name json)) = emitted w
     /\ SAVED_INFO (step w (Client from name json)) = SAVED_INFO w)
    /\ (Dict.get socketio_handlers name = None ->
        step w (Client from name json) = w).
Proof.
  intros from name json w. split.
  - intros Hname. split; [|apply client_keeps_cache].
    unfold step, dispatch, socketio_handlers, Dict.get.
    destruct (String.eqb_spec "myevent" name) as [E|_];
      [now elim Hname|].
    repeat match goal with
    | |- context [if String.eqb ?a name then _ else _] =>
      destruct (String.eqb a name)
    end;
    reflexivity.
  - intros Hnone. unfold step, dispatch. now rewrite Hnone.
Qed.

(** ** Subscriptions *)

Lemma map_topic_NoDup (l : list string) :
  NoDup l -> NoDup (map _form_subtopic_topic l).
Proof.
  induction 1 as [|x l Hx Hl IH]; simpl; constructor; [|exact IH].
  intros Hin. apply in_map_iff in Hin. destruct Hin as (y & E & Hy).
  apply subtopic_topic_inj in E. now subst.
Qed.

Ltac no_dup_strings :=
  repeat (constructor;
          [simpl; intros H;
           repeat (destruct H as [H|H]; [discriminate H|]); exact H|]);
  constructor.

(** X8: on every (re)connect the bridge subscribes to each topic exactly
    once: the subscription list has no duplicates; it holds the thirteen
    topics of the core and play metadata whatever the configuration, and
    root/cover exactly when artwork is shown. All ten topics [on_message]
    has a branch for are subscribed, the cover topic only with artwork. *)
Theorem X8_on_connect_subscribes_once :
  NoDup on_connect
  /\ List.length on_connect = (if show_artwork then 14 else 13)%nat
  /\ (forall subtopic : string,
         In (_form_subtopic_topic subtopic) on_connect
         <-> In subtopic (Dict.keys known_core_metadata_types)
             \/ In subtopic (Dict.keys known_play_metadata_types)
             \/ (subtopic = "cover" /\ show_artwork = true))
  /\ (forall subtopic : string,
         In subtopic handled_subtopics -> subtopic <> "cover" ->
         In (_form_subtopic_topic subtopic) on_connect).
Proof.
  assert (Hiff : forall subtopic : string,
             In (_form_subtopic_topic subtopic) on_connect
             <-> In subtopic (Dict.keys known_core_metadata_types)
                 \/ In subtopic (Dict.keys known_play_metadata_types)
                 \/ (subtopic = "cover" /\ show_artwork = true)).
  { intros sub. unfold on_connect. split.
    - intros H. apply in_map_iff in H. destruct H as (y & E & Hy).
      apply subtopic_topic_inj in E. subst y.
      destruct show_artwork.
      + apply in_app_or in Hy. destruct Hy as [Hy|[<-|[]]].
        * apply in_app_or in Hy. tauto.
        * auto.
      + apply in_app_or in Hy. tauto.
    - intros H. apply in_map.
      destruct show_artwork.
      + apply in_or_app. destruct H as [H|[H|[-> _]]].
        * left. apply in_or_app. now left.
        * left. apply in_or_app. now right.
        * right. now left.
      + apply in_or_app. destruct H as [H|[H|[_ H]]];
          [now left|now right|discriminate]. }
  repeat apply conj.
  - unfold on_connect. apply map_topic_NoDup.
    destruct show_artwork; simpl; no_dup_strings.
  - unfold on_connect. rewrite length_map. destruct show_artwork; reflexivity.
  - exact Hiff.
  - intros sub Hin Hcover. apply Hiff.
    unfold handled_subtopics, text_subtopics, play_subtopics in Hin.
    simpl in Hin.
    repeat (destruct Hin as [<-|Hin];
            [first [solve [left; in_list] | solve [right; left; in_list]
                   | now elim Hcover]|]);
      try contradiction.
Qed.

(** ** The volume percentage *)

(** X9: a volume message of four ASCII fields whose first field is a number
    v within the documented range, -30 <= v <= 0, is sent as an integer
    percentage between 0 and 100 and the handler does not raise; -30 is
    sent as 0 and 0 as 100. *)
Theorem X9_volume_in_range_gives_percentage :
  forall (octets : list byte) (text a b c d : string) (v : Q) (w : World),
    PyBytes.decode_ascii octets = Ok text ->
    PyStr.split_comma text = [a; b; c; d] ->
    PyFloat.float a = Ok (Fin v) ->
    (-30 <= v)%Q -> (v <= 0)%Q ->
    exists p : Z,
      on_message (mkMessage (_form_subtopic_topic "volume") octets) w
      = (sent_only w "volume" (PPercent p), Ok tt)
      /\ (0 <= p <= 100)%Z
      /\ ((v == -30)%Q -> p = 0%Z)
      /\ ((v == 0)%Q -> p = 100%Z).
Proof.
  intros octets text a b c d v w Hd Hs Hf Hlo Hhi.
  rewrite (on_message_volume_number octets text a b c d (Fin v) w Hd Hs Hf).
  destruct volume_scaler_binary64_samples as (E30 & E0 & _).
  pose proof (volume_scaler_binary64_mono (Fin (-30)) (Fin v) Hlo) as Hlow.
  pose proof (volume_scaler_binary64_mono (Fin v) (Fin 0) Hhi) as Hhigh.
  assert (Hlow' : (v == -30)%Q ->
                  PyFloat.fle (volume_scaler_binary64 (Fin v))
                              (volume_scaler_binary64 (Fin (-30)))).
  { intros E. apply volume_scaler_binary64_mono. unfold PyFloat.fle.
    rewrite E. apply Qle_refl. }
  assert (Hhigh' : (v == 0)%Q ->
                   PyFloat.fle (volume_scaler_binary64 (Fin 0))
                               (volume_scaler_binary64 (Fin v))).
  { intros E. apply volume_scaler_binary64_mono. unfold PyFloat.fle.
    rewrite E. apply Qle_refl. }
  rewrite E30 in Hlow, Hlow'. rewrite E0 in Hhigh, Hhigh'.
  destruct (volume_scaler_binary64 (Fin v)) as [q|[|]|];
    unfold PyFloat.fle in *; try contradiction.
  exists (PyFloat.trunc q). split; [reflexivity|].
  assert (H0 : (PyFloat.trunc (-1 # 2) <= PyFloat.trunc q)%Z)
    by now apply trunc_mono.
  assert (H100 : (PyFloat.trunc q <= PyFloat.trunc 100)%Z)
    by now apply trunc_mono.
  change (PyFloat.trunc (-1 # 2)) with 0%Z in H0.
  change (PyFloat.trunc 100) with 100%Z in H100.
  split; [lia|]. split.
  - intros E.
    assert (PyFloat.trunc q <= PyFloat.trunc (-1 # 2))%Z
      by (apply trunc_mono; auto).
    change (PyFloat.trunc (-1 # 2)) with 0%Z in *. lia.
  - intros E.
    assert (PyFloat.trunc 100 <= PyFloat.trunc q)%Z
      by (apply trunc_mono; auto).
    change (PyFloat.trunc 100) with 100%Z in *. lia.
Qed.

(** X10: the percentage never decreases when the volume increases, whenever
    both volumes are sent as a percentage, and 100 is not a cap: a volume of
    1 or more that is sent at all is sent as 103 or more. *)
Theorem X10_volume_percentage_is_monotone :
  forall (v1 v2 : Q) (p1 p2 : Z),
    PyFloat.to_int (volume_scaler_binary64 (Fin v1)) = Ok p1 ->
    PyFloat.to_int (volume_scaler_binary64 (Fin v2)) = Ok p2 ->
    (v1 <= v2)%Q ->
    (p1 <= p2)%Z /\ ((1 <= v1)%Q -> (103 <= p1)%Z).
Proof.
  intros v1 v2 p1 p2 H1 H2 Hv. split.
  - apply (to_int_mono _ _ _ _
             (volume_scaler_binary64_mono (Fin v1) (Fin v2) Hv) H1 H2).
  - intros Hone.
    destruct volume_scaler_binary64_samples as (_ & _ & _ & E1 & _).
    apply (to_int_mono _ _ _ _
             (volume_scaler_binary64_mono (Fin 1) (Fin v1) Hone) E1 H1).
Qed.

(** X11: a first field that [float] accepts as NaN or as an infinity is not
    caught by the fallback: [int] raises after the [try], ValueError for
    NaN and OverflowError for an infinity, and no volume event is sent. *)
Theorem X11_volume_nan_and_infinity_raise :
  forall (octets : list byte) (text a b c d : string) (w : World),
    PyBytes.decode_ascii octets = Ok text ->
    PyStr.split_comma text = [a; b; c; d] ->
    (PyFloat.float a = Ok NaN ->
     on_message (mkMessage (_form_subtopic_topic "volume") octets) w
     = (w, Raise (ValueError "cannot convert float NaN to integer")))
    /\ (forall negative : bool,
           PyFloat.float a = Ok (Inf negative) ->
           on_message (mkMessage (_form_subtopic_topic "volume") octets) w
           = (w, Raise (OverflowError
                          "cannot convert float infinity to integer"))).
Proof.
  intros octets text a b c d w Hd Hs. split.
  - intros Hf.
    now rewrite (on_message_volume_number octets text a b c d NaN w Hd Hs Hf).
  - intros negative Hf.
    rewrite (on_message_volume_number octets text a b c d _ w Hd Hs Hf).
    destruct negative; reflexivity.
Qed.

(** X12: a volume payload that does not split into exactly four
    comma-separated fields makes the handler raise a ValueError at the tuple
    assignment, whatever the fields hold, and nothing is sent or stored. *)
Theorem X12_volume_needs_four_fields :
  forall (octets : list byte) (text : string) (w : World),
    PyBytes.decode_ascii octets = Ok text ->
    List.length (PyStr.split_comma text) <> 4%nat ->
    exists reason : string,
      on_message (mkMessage (_form_subtopic_topic "volume") octets) w
      = (w, Raise (ValueError reason)).
Proof.
  intros octets text w Hd Hn. rewrite on_message_volume.
  unfold volume_data. cbn [payload]. rewrite Hd. simpl rbind.
  destruct (PyStr.split_comma text) as [|f1 [|f2 [|f3 [|f4 [|f5 l]]]]];
    try (eexists; reflexivity).
  now elim Hn.
Qed.

(** X13: a volume payload with any octet of 128 or more makes the handler
    raise UnicodeDecodeError before anything else is looked at, whatever
    its first field is, and nothing is sent. *)
Theorem X13_volume_needs_ascii :
  forall (octets : list byte) (b : byte) (w : World),
    In b octets -> (128 <= PyBytes.octet b)%N ->
    on_message (mkMessage (_form_subtopic_topic "volume") octets) w
    = (w, Raise (UnicodeDecodeError "ascii")).
Proof.
  intros octets b w Hin Hb. rewrite on_message_volume.
  unfold volume_data, PyBytes.decode_ascii. cbn [payload].
  destruct (forallb _ octets) eqn:F; [|reflexivity].
  rewrite forallb_forall in F. apply F in Hin.
  apply N.ltb_lt in Hin. lia.
Qed.

(** ** Cover art of a PNG file *)

(** X19: a cover image that is a PNG file, which starts with the octets
    89 50 4E 47 0D 0A 1A 0A, is not recognised by the PNG test, whose
    signature ends in 0D: it is stored and sent with the base64 text of the
    file and the fallback type image/jpg. *)
Theorem X19_png_file_is_sent_as_jpg :
  forall (rest : list byte) (w : World),
    on_message
      (mkMessage (_form_subtopic_topic "cover")
                 (png_file_signature ++ rest)%list) w
    = (stored_and_sent w "cover_art"
         (PImage (PyBytes.b64encode (png_file_signature ++ rest)%list)
                 "image/jpg"),
       Ok tt).
Proof.
  intros rest w.
  rewrite (on_message_branch "cover") by reflexivity.
  rewrite cover_branch_ok. reflexivity.
Qed.

End Bridge.

(** * Concrete runs *)

(** ** The library models on known values *)

Example b64encode_Man :
  PyBytes.b64encode (list_byte_of_string "Man") = "TWFu".
Proof. reflexivity. Qed.

Example b64encode_padding :
  PyBytes.b64encode (list_byte_of_string "Ma") = "TWE="
  /\ PyBytes.b64encode (list_byte_of_string "M") = "TQ==".
Proof. split; reflexivity. Qed.

Example split_comma_keeps_empty_fields :
  PyStr.split_comma "a,,b" = ["a"; ""; "b"] /\ PyStr.split_comma "" = [""].
Proof. split; reflexivity. Qed.

Example utf8_wf_samples :
  PyBytes.utf8_wf [195; 169]%N = true
  /\ PyBytes.utf8_wf [255]%N = false
  /\ PyBytes.utf8_wf [192; 128]%N = false
  /\ PyBytes.utf8_wf [237; 160; 128]%N = false.
Proof. repeat split; reflexivity. Qed.

Example float_accepts :
  PyFloat.float "-144.00" = Ok (Fin (-144))
  /\ PyFloat.float " 1_0.5e1 " = Ok (Fin 105)
  /\ PyFloat.float "-.5" = Ok (Fin (-1 # 2))
  /\ PyFloat.float "1." = Ok (Fin 1)
  /\ PyFloat.float "2.5E-1" = Ok (Fin (1 # 4))
  /\ PyFloat.float "-Inf" = Ok (Inf true)
  /\ PyFloat.float "NaN" = Ok NaN.
Proof. repeat split; reflexivity. Qed.

Example float_rejects :
  Forall (fun s => PyFloat.float s
                   = Raise (ValueError "could not convert string to float"))
         [""; "."; "abc"; "1__0"; "_1"; "1e"; "1 2"; "0x10"; "--1"].
Proof. repeat constructor. Qed.

(** Literals are rounded to the nearest binary64 value; what is too large
    becomes an infinity and what is too small a zero. *)
Example float_rounds :
  PyFloat.float "0.1" = Ok (Fin (3602879701896397 # 36028797018963968))
  /\ PyFloat.float "3.35" = Ok (Fin (7543529375845581 # 2251799813685248))
  /\ PyFloat.float "1e400" = Ok (Inf false)
  /\ PyFloat.float "-1e400" = Ok (Inf true)
  /\ PyFloat.float "1e-400" = Ok (Fin 0)
  /\ PyFloat.float "9007199254740993" = Ok (Fin 9007199254740992)
  /\ PyFloat.float "9007199254740995" = Ok (Fin 9007199254740996).
Proof. repeat split; vm_compute; reflexivity. Qed.

(** The percentage [int(volume_scaler(float(s)))] for some first fields. *)
Example volume_percentage_samples :
  map (fun s => rbind (PyFloat.float s)
                      (fun x => PyFloat.to_int (volume_scaler_binary64 x)))
      ["-30.0"; "-15.0"; "0.0"; "-144.00"; "-39.1044776119403";
       "-9.55223880597015"; "-1e-21"; "1e308"]
  = [Ok 0%Z; Ok 49%Z; Ok 100%Z; Ok (-382)%Z; Ok (-30)%Z; Ok 68%Z; Ok 100%Z;
     Raise (OverflowError "cannot convert float infinity to integer")].
Proof. vm_compute. reflexivity. Qed.

Example volume_scaler_samples :
  volume_scaler (Fin (-15)) = Fin (199 # 4)
  /\ volume_scaler NaN = NaN
  /\ volume_scaler (Inf true) = Inf true.
Proof. repeat split; reflexivity. Qed.

(** ** C1 *)

(** C1, counterexample: a volume message and a play_start message are sent
    to the clients when they arrive, yet a replay requested right after
    delivers neither: nothing at all is replayed. *)
Lemma C1_volume_and_play_events_not_replayed :
  emitted (step demo_root demo_image initial_world
             (Mqtt (demo_message "volume" "-15.0,0.0,0.0,0.0")))
  = [mkEmit "volume" (PPercent 49) None]
  /\ inbox 1%nat
       (new_emits
          (step demo_root demo_image initial_world
             (Mqtt (demo_message "volume" "-15.0,0.0,0.0,0.0")))
          (step demo_root demo_image
             (step demo_root demo_image initial_world
                (Mqtt (demo_message "volume" "-15.0,0.0,0.0,0.0")))
             (replay_request 1%nat [])))
     = []
  /\ emitted (step demo_root demo_image initial_world
                (Mqtt (demo_message "play_start" "--")))
     = [mkEmit "play_start" (PName "play_start") None]
  /\ inbox 1%nat
       (new_emits
          (step demo_root demo_image initial_world
             (Mqtt (demo_message "play_start" "--")))
          (step demo_root demo_image
             (step demo_root demo_image initial_world
                (Mqtt (demo_message "play_start" "--")))
             (replay_request 1%nat [])))
     = [].
Proof. repeat split; vm_compute; reflexivity. Qed.

Lemma C1_cached_kinds_replayed_witness :
  In "playing_artist" cached_kinds
  /\ new_emits initial_world
       (step demo_root demo_image initial_world
          (Mqtt (demo_message "artist" "Queen")))
     = [mkEmit "playing_artist" (PText "Queen") None]
  /\ filter (fun e => String.eqb (fst e) "playing_artist")
       (inbox 7%nat
          (new_emits
             (run demo_root demo_image
                (step demo_root demo_image initial_world
                   (Mqtt (demo_message "artist" "Queen")))
                [Mqtt (demo_message "volume" "-15.0,0.0,0.0,0.0");
                 Client 2%nat "remote_play" [];
                 Mqtt (demo_message "album" "Jazz")])
             (step demo_root demo_image
                (run demo_root demo_image
                   (step demo_root demo_image initial_world
                      (Mqtt (demo_message "artist" "Queen")))
                   [Mqtt (demo_message "volume" "-15.0,0.0,0.0,0.0");
                    Client 2%nat "remote_play" [];
                    Mqtt (demo_message "album" "Jazz")])
                (replay_request 3%nat []))))
     = [("playing_artist", PText "Queen")].
Proof.
  assert (H1 : In "playing_artist" cached_kinds) by (left; reflexivity).
  assert (H2 : new_emits initial_world
                 (step demo_root demo_image initial_world
                    (Mqtt (demo_message "artist" "Queen")))
               = [mkEmit "playing_artist" (PText "Queen") None])
    by (vm_compute; reflexivity).
  split; [exact H1|]. split; [exact H2|].
  apply (proj1 (C1_cached_kinds_replayed demo_root demo_image) []
           [Mqtt (demo_message "volume" "-15.0,0.0,0.0,0.0");
            Client 2%nat "remote_play" [];
            Mqtt (demo_message "album" "Jazz")]
           (demo_message "artist" "Queen") "playing_artist" (PText "Queen")
           3%nat 7%nat [] H1 H2).
  intros m [E|[E|[E|[]]]]; try discriminate E;
    injection E as <-; vm_compute; discriminate.
Defined.

(** ** C2 *)

(** C2, counterexample: songalbum is subscribed to by [on_connect], yet a
    message on root/songalbum produces no event and leaves the world as it
    was; and an artist message whose payload is not UTF-8 produces no event
    either, its handler raises. *)
Lemma C2_songalbum_message_produces_nothing :
  In (demo_root ++ "/songalbum") (on_connect demo_root true)
  /\ on_message demo_root demo_image (demo_message "songalbum" "Abbey Road")
       initial_world
     = (initial_world, Ok tt)
  /\ on_message demo_root demo_image
       (mkMessage (demo_root ++ "/artist") [xff]) initial_world
     = (initial_world, Raise (UnicodeDecodeError "utf-8")).
Proof.
  split; [vm_compute; in_list|]. split; vm_compute; reflexivity.
Qed.

Lemma C2_handled_subtopics_routed_witness :
  on_message demo_root demo_image (demo_message "title" "Bicycle Race")
    initial_world
  = (stored_and_sent initial_world "playing_title" (PText "Bicycle Race"),
     Ok tt)
  /\ on_message demo_root demo_image (demo_message "client_ip" "10.0.0.7")
       initial_world
     = (initial_world, Ok tt)
  /\ on_message demo_root demo_image (demo_message "elapsed" "12")
       initial_world
     = (initial_world, Ok tt).
Proof.
  destruct (C2_handled_subtopics_routed demo_root demo_image)
    as (_ & Htext & _ & _ & Hother & Hlisted).
  split; [|split].
  - apply (Htext "title" (list_byte_of_string "Bicycle Race") "Bicycle Race").
    + right; right; right; left; reflexivity.
    + vm_compute; reflexivity.
  - apply (Hlisted "client_ip"). right; left; reflexivity.
  - apply Hother. intros sub Hin E.
    apply (append_cancel_l demo_root) in E.
    simpl in Hin.
    repeat (destruct Hin as [<-|Hin]; [discriminate E|]). exact Hin.
Defined.

(** ** C3 *)

(** C3, counterexample: session 1 asks for the replay and session 2, which
    asked for nothing, receives the cached event. *)
Lemma C3_replay_reaches_other_session :
  inbox 2%nat
    (new_emits
       (step demo_root demo_image initial_world
          (Mqtt (demo_message "artist" "Queen")))
       (step demo_root demo_image
          (step demo_root demo_image initial_world
             (Mqtt (demo_message "artist" "Queen")))
          (replay_request 1%nat [])))
  = [("playing_artist", PText "Queen")].
Proof. vm_compute; reflexivity. Qed.

(** ** C4 *)

(** C4, the code at the failing inputs: a volume payload with fewer or more
    than four fields raises at the tuple assignment, before the [try], and
    the first field "nan" passes [float] and raises at [int]; in each case
    no volume event is sent. A payload of four fields whose first is not a
    number gives the fallback 50. *)
Lemma C4_volume_payload_without_four_fields_raises :
  on_message demo_root demo_image (demo_message "volume" "abc") initial_world
  = (initial_world,
     Raise (ValueError "not enough values to unpack (expected 4, got 1)"))
  /\ on_message demo_root demo_image (demo_message "volume" "x,0,0,0,0")
       initial_world
     = (initial_world,
        Raise (ValueError "too many values to unpack (expected 4)"))
  /\ on_message demo_root demo_image (demo_message "volume" "nan,0,0,0")
       initial_world
     = (initial_world,
        Raise (ValueError "cannot convert float NaN to integer"))
  /\ on_message demo_root demo_image (demo_message "volume" "abc,0,0,0")
       initial_world
     = (sent_only initial_world "volume" (PPercent 50), Ok tt).
Proof. repeat split; vm_compute; reflexivity. Qed.

(** ** C5 *)

Lemma C5_cover_art_witness :
  on_message demo_root demo_image
    (mkMessage (demo_root ++ "/cover") [xff; xd8; xff; xe0]) initial_world
  = (stored_and_sent initial_world "cover_art"
       (PImage "/9j/4A==" "image/jpeg"), Ok tt)
  /\ on_message demo_root demo_image (mkMessage (demo_root ++ "/cover") [])
       initial_world
     = (stored_and_sent initial_world "cover_art"
          (PImage "iVBORw==" "image/png"), Ok tt).
Proof.
  split.
  - destruct (C5_cover_art demo_root demo_image [xff; xd8; xff; xe0]
                initial_world)
      as (data & mime & E & _ & Hdata & Hjpeg & _).
    rewrite (Hdata ltac:(discriminate)) in E.
    rewrite (Hjpeg [xff; xe0] eq_refl) in E.
    exact E.
  - destruct (C5_cover_art demo_root demo_image [] initial_world)
      as (data & mime & E & Hempty & _).
    destruct (Hempty eq_refl) as [Hdata Hmime].
    rewrite Hdata, Hmime in E. exact E.
Defined.

(** ** C6 *)

Lemma C6_issue_command_witness :
  ~ In "not_a_real_command" known_remote_commands
  /\ _generate_remote_command demo_root "not_a_real_command"
     = Raise (ValueError "Unknown remote command: not_a_real_command")
  /\ handle_stop demo_root [] initial_world
     = (mkWorld [] [] [("shairport-sync/rpih1/remote", "stop")], Ok tt).
Proof.
  assert (H : ~ In "not_a_real_command" known_remote_commands).
  { simpl. intros H.
    repeat (destruct H as [H|H]; [discriminate H|]). exact H. }
  split; [exact H|]. split.
  - exact (proj1 (proj2 (proj2 (C6_issue_command demo_root))
                    "not_a_real_command" H)).
  - exact (proj1 (proj2 (C6_issue_command demo_root)) [] initial_world).
Defined.

(** ** C7 *)

(** C7, counterexample: at start-up the cache has no cover_art entry and a
    replay to a session that joins then sends it nothing. *)
Lemma C7_cache_starts_without_cover_art :
  Dict.get (SAVED_INFO initial_world) "cover_art" = None
  /\ inbox 1%nat
       (new_emits initial_world
          (step demo_root demo_image initial_world (replay_request 1%nat [])))
     = [].
Proof. split; vm_compute; reflexivity. Qed.

Lemma C7_no_cover_art_before_first_cover_message_witness :
  Dict.get
    (SAVED_INFO
       (run demo_root demo_image initial_world
          [Mqtt (demo_message "artist" "Queen");
           Client 1%nat "myevent" []]))
    "cover_art"
  = None.
Proof.
  refine (proj1 (C7_no_cover_art_before_first_cover_message
                   demo_root demo_image
                   [Mqtt (demo_message "artist" "Queen");
                    Client 1%nat "myevent" []] 1%nat 1%nat [] _)).
  intros m [E|[E|[]]]; try discriminate E.
  injection E as <-. vm_compute. discriminate.
Defined.

(** ** C8 *)

(** C8, counterexample: the mute sentinel -144.00 is sent as -382, the
    truncation of the extrapolated -0.5 + (-144 + 30) * 3.35, about -382.4,
    which lies below the destination range; the bottom of the range, -30.0,
    is sent as 0, and so would a volume clamped there. *)
Lemma C8_mute_sentinel_extrapolated :
  on_message demo_root demo_image
    (demo_message "volume" "-144.00,0.00,0.00,0.00") initial_world
  = (sent_only initial_world "volume" (PPercent (-382)), Ok tt)
  /\ PyFloat.float "-144.00" = Ok (Fin (-144))
  /\ (exists q : Q,
         volume_scaler_binary64 (Fin (-144)) = Fin q
         /\ (-383 < q)%Q /\ (q < -382)%Q)
  /\ PyFloat.to_int (volume_scaler_binary64 (Fin (-30))) = Ok 0%Z.
Proof.
  split; [vm_compute; reflexivity|].
  split; [vm_compute; reflexivity|].
  split; [|vm_compute; reflexivity].
  eexists. split; [vm_compute; reflexivity|]. split; reflexivity.
Qed.

Lemma C8_volume_below_range_is_extrapolated_witness :
  (-144 < -30)%Q
  /\ on_message demo_root demo_image
       (demo_message "volume" "-144.00,0.00,0.00,0.00") initial_world
     = (sent_only initial_world "volume" (PPercent (-382)), Ok tt).
Proof.
  assert (Hv : (-144 < -30)%Q) by reflexivity.
  split; [exact Hv|].
  destruct (C8_volume_below_range_is_extrapolated demo_root demo_image
              (list_byte_of_string "-144.00,0.00,0.00,0.00")
              "-144.00,0.00,0.00,0.00" "-144.00" "0.00" "0.00" "0.00"
              (-144) initial_world eq_refl eq_refl eq_refl Hv)
    as (_ & [(q & Hq & _ & E & _)|(Hinf & _)] & _).
  - vm_compute in Hq. apply Fin_inj in Hq. subst q. exact E.
  - vm_compute in Hinf. discriminate Hinf.
Defined.

(** ** C9 *)


(** * The interpolator factory *)

Local Open Scope Q_scope.









Lemma rounded_not_nan (x : pyfloat) :
  PyFloat.rounded x <> NaN -> x <> NaN.
Proof. intros H E. subst x. now apply H. Qed.

Lemma nan_rounded (x : pyfloat) :
  x <> NaN -> PyFloat.rounded x <> NaN.
Proof.
  destruct x as [q|s|]; unfold PyFloat.rounded; intros H;
    [apply round64_not_nan|discriminate|exact H].
Qed.

Lemma fle_not_nan (x y : pyfloat) :
  PyFloat.fle x y -> x <> NaN /\ y <> NaN.
Proof.
  destruct x as [a|[|]|], y as [b|[|]|]; unfold PyFloat.fle; intros H;
    try contradiction; split; discriminate.
Qed.

(** Multiplying by a factor that is not negative keeps the order, and by
    one that is not positive reverses it, wherever the products are
    numbers. *)
Lemma fmul_mono_nonneg (t1 t2 sf : pyfloat) :
  PyFloat.fle (Fin 0) sf -> PyFloat.fle t1 t2 ->
  PyFloat.fmul t1 sf <> NaN -> PyFloat.fmul t2 sf <> NaN ->
  PyFloat.fle (PyFloat.fmul t1 sf) (PyFloat.fmul t2 sf).
Proof.
  destruct sf as [s|[|]|]; unfold PyFloat.fle at 1; intros Hs;
    try contradiction;
    destruct t1 as [x|[|]|], t2 as [y|[|]|];
    unfold PyFloat.fle at 1; intros Ht; try contradiction;
    unfold PyFloat.fmul, xorb, negb;
    repeat match goal with
           | |- context [(?q ?= 0)] => destruct (Qcompare_spec q 0)
           end;
    intros H1 H2; unfold PyFloat.fle;
    try exact I; try (now elim H1); try (now elim H2); try lra.
  rewrite !Qred_correct. now apply Qmult_le_compat_r.
Qed.

Lemma fmul_mono_nonpos (t1 t2 sf : pyfloat) :
  PyFloat.fle sf (Fin 0) -> PyFloat.fle t1 t2 ->
  PyFloat.fmul t1 sf <> NaN -> PyFloat.fmul t2 sf <> NaN ->
  PyFloat.fle (PyFloat.fmul t2 sf) (PyFloat.fmul t1 sf).
Proof.
  destruct sf as [s|[|]|]; unfold PyFloat.fle at 1; intros Hs;
    try contradiction;
    destruct t1 as [x|[|]|], t2 as [y|[|]|];
    unfold PyFloat.fle at 1; intros Ht; try contradiction;
    unfold PyFloat.fmul, xorb, negb;
    repeat match goal with
           | |- context [(?q ?= 0)] => destruct (Qcompare_spec q 0)
           end;
    intros H1 H2; unfold PyFloat.fle;
    try exact I; try (now elim H1); try (now elim H2); try lra.
  rewrite !Qred_correct.
  assert (H : y * s == - (y * - s)) by ring.
  assert (H' : x * s == - (x * - s)) by ring.
  assert (x * - s <= y * - s) by (apply Qmult_le_compat_r; lra).
  lra.
Qed.

Lemma round64_nonneg (q : Q) : 0 <= q -> PyFloat.fle (Fin 0) (PyFloat.round64 q).
Proof. intros H. now apply (round64_mono 0 q). Qed.

Lemma round64_nonpos (q : Q) : q <= 0 -> PyFloat.fle (PyFloat.round64 q) (Fin 0).
Proof. intros H. now apply (round64_mono q 0). Qed.

(** The sign of a quotient whose divisor is not negative. *)
Lemma div64_nonneg (rs ls sf : pyfloat) :
  PyFloat.fle (Fin 0) rs -> PyFloat.fle (Fin 0) ls ->
  PyFloat.div64 rs ls = Ok sf ->
  sf = NaN \/ PyFloat.fle (Fin 0) sf.
Proof.
  unfold PyFloat.div64.
  destruct rs as [x|[|]|], ls as [y|[|]|]; unfold PyFloat.fle;
    intros Hr Hl; try contradiction; unfold PyFloat.fdiv.
  - destruct (Qeq_bool y 0) eqn:E; [discriminate|].
    apply Qeq_bool_neq in E.
    cbn [rbind PyFloat.rounded]. intros Hok. apply Ok_inj in Hok. subst sf.
    right. apply round64_nonneg. rewrite Qred_correct.
    apply Qle_shift_div_l; lra.
  - cbn [rbind PyFloat.rounded]. intros Hok. apply Ok_inj in Hok. subst sf.
    right. apply (round64_nonneg 0). apply Qle_refl.
  - destruct (Qcompare_spec y 0); [discriminate| |];
      cbn [rbind PyFloat.rounded]; intros Hok; apply Ok_inj in Hok; subst sf.
    + exfalso. lra.
    + right. exact I.
  - cbn [rbind PyFloat.rounded]. intros Hok. apply Ok_inj in Hok. now left.
Qed.

Lemma div64_nonpos (rs ls sf : pyfloat) :
  PyFloat.fle rs (Fin 0) -> PyFloat.fle (Fin 0) ls ->
  PyFloat.div64 rs ls = Ok sf ->
  sf = NaN \/ PyFloat.fle sf (Fin 0).
Proof.
  unfold PyFloat.div64.
  destruct rs as [x|[|]|], ls as [y|[|]|]; unfold PyFloat.fle;
    intros Hr Hl; try contradiction; unfold PyFloat.fdiv.
  - destruct (Qeq_bool y 0) eqn:E; [discriminate|].
    apply Qeq_bool_neq in E.
    cbn [rbind PyFloat.rounded]. intros Hok. apply Ok_inj in Hok. subst sf.
    right. apply round64_nonpos. rewrite Qred_correct.
    apply Qle_shift_div_r; lra.
  - cbn [rbind PyFloat.rounded]. intros Hok. apply Ok_inj in Hok. subst sf.
    right. apply (round64_nonpos 0). apply Qle_refl.
  - destruct (Qcompare_spec y 0); [discriminate| |];
      cbn [rbind PyFloat.rounded]; intros Hok; apply Ok_inj in Hok; subst sf.
    + exfalso. lra.
    + right. exact I.
  - cbn [rbind PyFloat.rounded]. intros Hok. apply Ok_inj in Hok. now left.
Qed.

Lemma add64_of_nan (c : pyfloat) : PyFloat.add64 c NaN = NaN.
Proof. destruct c; reflexivity. Qed.

Lemma mul64_by_nan (t : pyfloat) : PyFloat.mul64 t NaN = NaN.
Proof. destruct t; reflexivity. Qed.

(** X16: an interpolator over a source range with left_min < left_max
    follows the order of its destination range, on all finite values and
    not only inside the source range: it never decreases when right_min <=
    right_max and never increases when right_max <= right_min, wherever its
    results are numbers. The order is not strict: the volume interpolator
    maps both -1e-15 and 0 to 100. *)
Theorem X16_interpolator_follows_the_destination_order :
  forall (a b c d : Q) (f : pyfloat -> pyfloat) (v1 v2 : Q),
    a < b ->
    make_interpolator_binary64 (Fin a) (Fin b) (Fin c) (Fin d) = Ok f ->
    v1 <= v2 ->
    f (Fin v1) <> NaN -> f (Fin v2) <> NaN ->
    (c <= d -> PyFloat.fle (f (Fin v1)) (f (Fin v2)))
    /\ (d <= c -> PyFloat.fle (f (Fin v2)) (f (Fin v1)))
    /\ (make_interpolator_binary64 (Fin (-30)) (Fin 0) (Fin (-1 # 2))
                                   (Fin 100)
        = Ok volume_scaler_binary64
        /\ rbind (PyFloat.float "-1e-15")
                 (fun x => Ok (volume_scaler_binary64 x))
           = Ok (Fin 100)
        /\ volume_scaler_binary64 (Fin 0) = Fin 100).
Proof.
  intros a b c d f v1 v2 Hab Hf Hv N1 N2.
  unfold make_interpolator_binary64 in Hf.
  destruct (PyFloat.div64 _ _) as [sf|e] eqn:D; [|discriminate].
  cbn [rbind] in Hf. apply Ok_inj in Hf. subst f. cbv beta in N1, N2.
  assert (Hsf : sf <> NaN).
  { intros E. subst sf. rewrite mul64_by_nan, add64_of_nan in N1.
    now apply N1. }
  assert (M1 : PyFloat.fmul (PyFloat.sub64 (Fin v1) (Fin a)) sf <> NaN).
  { intros E. unfold PyFloat.mul64 in N1. rewrite E in N1.
    rewrite add64_of_nan in N1. now apply N1. }
  assert (M2 : PyFloat.fmul (PyFloat.sub64 (Fin v2) (Fin a)) sf <> NaN).
  { intros E. unfold PyFloat.mul64 in N2. rewrite E in N2.
    rewrite add64_of_nan in N2. now apply N2. }
  assert (Ht : PyFloat.fle (PyFloat.sub64 (Fin v1) (Fin a))
                           (PyFloat.sub64 (Fin v2) (Fin a)))
    by now apply sub64_mono.
  assert (Hl : PyFloat.fle (Fin 0) (PyFloat.sub64 (Fin b) (Fin a))).
  { unfold PyFloat.sub64, PyFloat.fsub, PyFloat.rounded.
    apply round64_nonneg. rewrite Qred_correct. lra. }
  split; [|split].
  - intros Hcd.
    assert (Hr : PyFloat.fle (Fin 0) (PyFloat.sub64 (Fin d) (Fin c))).
    { unfold PyFloat.sub64, PyFloat.fsub, PyFloat.rounded.
      apply round64_nonneg. rewrite Qred_correct. lra. }
    destruct (div64_nonneg _ _ _ Hr Hl D) as [E|Hs]; [contradiction|].
    apply add64_mono. unfold PyFloat.mul64. apply rounded_mono.
    now apply fmul_mono_nonneg.
  - intros Hcd.
    assert (Hr : PyFloat.fle (PyFloat.sub64 (Fin d) (Fin c)) (Fin 0)).
    { unfold PyFloat.sub64, PyFloat.fsub, PyFloat.rounded.
      apply round64_nonpos. rewrite Qred_correct. lra. }
    destruct (div64_nonpos _ _ _ Hr Hl D) as [E|Hs]; [contradiction|].
    apply add64_mono. unfold PyFloat.mul64. apply rounded_mono.
    now apply fmul_mono_nonpos.
  - split; [apply volume_scaler_binary64_built|].
    split; vm_compute; reflexivity.
Qed.

(** X17: in binary64 an interpolator need not reach right_max at left_max,
    and two interpolators built over swapped ranges do not invert each
    other exactly: make_interpolator(0, 49, 0, 1) maps 49 to 1 - 2^-53, and
    make_interpolator(0, 1, 0, 49) maps that value to 49 - 2^-47, not back
    to 49. *)
Theorem X17_interpolators_do_not_invert_exactly :
  rbind (make_interpolator_binary64 (Fin 0) (Fin 49) (Fin 0) (Fin 1))
        (fun f => Ok (f (Fin 49)))
  = Ok (Fin (9007199254740991 # 9007199254740992))
  /\ rbind (make_interpolator_binary64 (Fin 0) (Fin 1) (Fin 0) (Fin 49))
           (fun g => Ok (g (Fin (9007199254740991 # 9007199254740992))))
     = Ok (Fin (6896136929411071 # 140737488355328))
  /\ (9007199254740991 # 9007199254740992) == 1 - 2 ^ (-53)
  /\ (6896136929411071 # 140737488355328) == 49 - 2 ^ (-47)
  /\ PyFloat.round64 49 = Fin 49.
Proof. repeat split; vm_compute; reflexivity. Qed.

Local Close Scope Q_scope.

(** * The image type guess *)

(** X18: [_guessImageMime] answers image/jpeg exactly for data that starts
    with FF D8, image/png exactly for data that starts with the eight
    octets 89 50 4E 47 0D 0A 1A 0D, and image/jpg for everything else, the
    empty data and data of one octet included. *)
Theorem X18_guessImageMime_by_prefix :
  forall magic : list byte,
    (_guessImageMime magic = "image/jpeg"
     <-> exists rest, magic = (jpeg_magic ++ rest)%list)
    /\ (_guessImageMime magic = "image/png"
        <-> exists rest, magic = (png_magic ++ rest)%list)
    /\ (_guessImageMime magic = "image/jpg"
        <-> (forall rest, magic <> (jpeg_magic ++ rest)%list)
            /\ (forall rest, magic <> (png_magic ++ rest)%list)).
Proof.
  intros magic. unfold _guessImageMime.
  change [xff; xd8] with jpeg_magic.
  change [x89; x50; x4e; x47; x0d; x0a; x1a; x0d] with png_magic.
  pose proof (startswith_prefix magic jpeg_magic) as Hj.
  pose proof (startswith_prefix magic png_magic) as Hp.
  destruct (PyBytes.startswith magic jpeg_magic) eqn:Ej.
  - assert (Hjr : exists rest, magic = (jpeg_magic ++ rest)%list)
      by now apply Hj.
    repeat split; try discriminate; auto.
    + intros (rest & E). destruct Hjr as (rest' & E'). rewrite E in E'.
      discriminate E'.
    + intros [H _]. destruct Hjr as (rest & E). now apply H in E.
  - assert (Hnj : forall rest, magic <> (jpeg_magic ++ rest)%list).
    { intros rest E. assert (false = true) by (apply Hj; eauto).
      discriminate. }
    destruct (PyBytes.startswith magic png_magic) eqn:Ep.
    + assert (Hpr : exists rest, magic = (png_magic ++ rest)%list)
        by now apply Hp.
      repeat split; try discriminate; auto.
      * intros (rest & E). now apply Hnj in E.
      * intros [_ H]. destruct Hpr as (rest & E). now apply H in E.
    + assert (Hnp : forall rest, magic <> (png_magic ++ rest)%list).
      { intros rest E. assert (false = true) by (apply Hp; eauto).
        discriminate. }
      repeat split; try discriminate; auto.
      * intros (rest & E). now apply Hnj in E.
      * intros (rest & E). now apply Hnp in E.
Qed.

(** * The web UI configuration *)

Lemma populateTemplateData_parts (config : Conf) :
  populateTemplateData config
  = if truthy (conf_get config "show_track_metadata" (YBool true)) then
      match iterate (conf_get config "track_metadata" default_track_metadata)
      with
      | Loaded metadata_types =>
        add_metadata_types metadata_types (template_flags config)
      | TypeError reason => TypeError reason
      end
    else Loaded (template_flags config).
Proof. reflexivity. Qed.

Lemma get_flag (config : Conf) key dflt name td k :
  Dict.get (flag config key dflt name td) k
  = if String.eqb name k && truthy (conf_get config key (YBool dflt))
    then Some true else Dict.get td k.
Proof.
  unfold flag. destruct (truthy _); [|now rewrite andb_false_r].
  rewrite andb_true_r. destruct (String.eqb_spec name k) as [->|Hne].
  - apply Dict_get_set_same.
  - now apply Dict_get_set_other.
Qed.

Lemma well_formed_set (td : list (string * bool)) (k : string) :
  In k template_keys -> well_formed_template td ->
  well_formed_template (Dict.set td k true).
Proof.
  intros Hk (Ht & Hnd & Hin). repeat split.
  - intros k' b H. apply Dict_set_In in H. destruct H as [E|H].
    + now injection E.
    + now apply (Ht k').
  - now apply Dict_keys_set_NoDup.
  - intros k' H. apply Dict_keys_set_in in H. destruct H as [->|H]; auto.
Qed.

Lemma well_formed_flag config key dflt name td :
  In name template_keys -> well_formed_template td ->
  well_formed_template (flag config key dflt name td).
Proof.
  intros Hk H. unfold flag. destruct (truthy _); [|exact H].
  now apply well_formed_set.
Qed.

Lemma well_formed_flags (config : Conf) :
  well_formed_template (template_flags config).
Proof.
  assert (H0 : well_formed_template []).
  { repeat split; [intros k b []|constructor|intros k []]. }
  unfold template_flags.
  repeat (apply well_formed_flag; [in_list|]).
  destruct (truthy (conf_get config "show_player" (YBool true)));
    [|exact H0].
  repeat (apply well_formed_flag; [in_list|]).
  apply well_formed_set; [in_list|exact H0].
Qed.

Lemma known_core_shown (name shownkey : string) :
  Dict.get known_core_metadata_types name = Some shownkey ->
  In shownkey template_keys
  /\ In shownkey ["showArtist"; "showAlbum"; "showTitle"; "showGenre"].
Proof.
  unfold known_core_metadata_types, Dict.get.
  repeat match goal with
  | |- context [if String.eqb ?a name then _ else _] =>
    destruct (String.eqb a name)
  end;
  intros H; try discriminate H; injection H as <-; split; in_list.
Qed.

Lemma mem_keys_get {V} (d : list (string * V)) (k : string) :
  PyStr.mem k (Dict.keys d)
  = match Dict.get d k with Some _ => true | None => false end.
Proof.
  unfold PyStr.mem. induction d as [|[k0 v0] d IH]; simpl; [reflexivity|].
  rewrite String.eqb_sym. destruct (String.eqb k0 k); [reflexivity|exact IH].
Qed.

(** One turn of the loop: it raises on a value that cannot be hashed, sets
    the key of a known name, and passes over anything else. *)
Lemma add_metadata_types_step (x : YamlVal) (l : list YamlVal)
      (td : list (string * bool)) :
  (unhashable x = true
   /\ exists r, add_metadata_types (x :: l) td = TypeError r)
  \/ (unhashable x = false
      /\ ((exists name k,
              x = YStr name
              /\ Dict.get known_core_metadata_types name = Some k
              /\ add_metadata_types (x :: l) td
                 = add_metadata_types l (Dict.set td k true))
          \/ ((forall name, x = YStr name ->
                            Dict.get known_core_metadata_types name = None)
              /\ add_metadata_types (x :: l) td = add_metadata_types l td))).
Proof.
  destruct x as [| b | n | f | s | octets | iso | items | entries | elements].
  1-4, 6-7: right; split; [reflexivity|]; right; split;
            [intros name E; discriminate E|reflexivity].
  - right. split; [reflexivity|].
    cbn [add_metadata_types in_dict]. rewrite mem_keys_get.
    destruct (Dict.get known_core_metadata_types s) as [k|] eqn:G.
    + left. exists s, k. auto.
    + right. split; [|reflexivity]. intros name E. now injection E as <-.
  - left. split; [reflexivity|]. eexists. reflexivity.
  - left. split; [reflexivity|]. eexists. reflexivity.
  - left. split; [reflexivity|]. eexists. reflexivity.
Qed.

Lemma well_formed_loop (l : list YamlVal) (td td' : list (string * bool)) :
  add_metadata_types l td = Loaded td' ->
  well_formed_template td -> well_formed_template td'.
Proof.
  revert td. induction l as [|x l IH]; intros td.
  - intros H. injection H as <-. auto.
  - destruct (add_metadata_types_step x l td)
      as [[_ (r & ->)]|[_ [(name & k & _ & G & ->)|[_ ->]]]].
    + discriminate.
    + intros H Hw. apply (IH _ H).
      apply well_formed_set; [|exact Hw]. now apply (known_core_shown name).
    + apply IH.
Qed.

(** X20: whatever the configuration holds, the template data that
    [populateTemplateData] returns has only [True] values, no key twice, and
    only keys among the thirteen names the page template knows. *)
Theorem X20_template_data_is_well_formed :
  forall (config : Conf) (templateData : list (string * bool)),
    populateTemplateData config = Loaded templateData ->
    (forall k b, In (k, b) templateData -> b = true)
    /\ NoDup (Dict.keys templateData)
    /\ incl (Dict.keys templateData) template_keys.
Proof.
  intros config td. rewrite populateTemplateData_parts.
  pose proof (well_formed_flags config) as Hw.
  destruct (truthy (conf_get config "show_track_metadata" (YBool true))).
  - destruct (iterate _) as [l|r]; [|discriminate].
    intros H. exact (well_formed_loop _ _ _ H Hw).
  - intros H. injection H as <-. exact Hw.
Qed.

Lemma loop_keeps_other (l : list YamlVal) (td td' : list (string * bool)) k :
  add_metadata_types l td = Loaded td' ->
  ~ In k ["showArtist"; "showAlbum"; "showTitle"; "showGenre"] ->
  Dict.get td' k = Dict.get td k.
Proof.
  intros H Hk. revert td H. induction l as [|x l IH]; intros td.
  - intros H. now injection H as <-.
  - destruct (add_metadata_types_step x l td)
      as [[_ (r & ->)]|[_ [(name & k' & _ & G & ->)|[_ ->]]]].
    + discriminate.
    + intros H. rewrite (IH _ H). apply Dict_get_set_other.
      intros ->. apply Hk. now apply (known_core_shown name).
    + apply IH.
Qed.

Lemma populate_keeps_flags (config : Conf) (td : list (string * bool)) k :
  populateTemplateData config = Loaded td ->
  ~ In k ["showArtist"; "showAlbum"; "showTitle"; "showGenre"] ->
  Dict.get td k = Dict.get (template_flags config) k.
Proof.
  rewrite populateTemplateData_parts.
  destruct (truthy (conf_get config "show_track_metadata" (YBool true))).
  - destruct (iterate _) as [l|r]; [|discriminate].
    intros H Hk. exact (loop_keeps_other _ _ _ _ H Hk).
  - intros H _. now injection H as <-.
Qed.

Ltac not_in_list :=
  simpl; intros H; repeat (destruct H as [H|H]; [discriminate H|]); exact H.

Lemma flags_player_option (config : Conf) (k : string) :
  In k ["showPlayerExtended"; "showPlayerShuffle"; "showPlayerSeeking";
        "showPlayerStop"] ->
  Dict.get (template_flags config) k = Some true ->
  truthy (conf_get config "show_player" (YBool true)) = true
  /\ Dict.get (template_flags config) "showPlayer" = Some true.
Proof.
  intros Hk. unfold template_flags. rewrite !get_flag.
  simpl in Hk.
  destruct (truthy (conf_get config "show_player" (YBool true))) eqn:P.
  - intros _. split; [reflexivity|].
    cbn [String.eqb Ascii.eqb Bool.eqb andb].
    rewrite !get_flag. cbn [String.eqb Ascii.eqb Bool.eqb andb].
    apply Dict_get_set_same.
  - repeat (destruct Hk as [<-|Hk];
            [cbn [String.eqb Ascii.eqb Bool.eqb andb Dict.get]; discriminate|]).
    contradiction.
Qed.

(** X21: the extended, shuffle, seeking and stop controls of the player are
    offered only together with the player itself: when one of their keys is
    set in the template data, [show_player] is on (or missing) in the
    configuration and showPlayer is set too. *)
Theorem X21_player_options_need_the_player :
  forall (config : Conf) (templateData : list (string * bool)) (k : string),
    populateTemplateData config = Loaded templateData ->
    In k ["showPlayerExtended"; "showPlayerShuffle"; "showPlayerSeeking";
          "showPlayerStop"] ->
    shown templateData k = true ->
    truthy (conf_get config "show_player" (YBool true)) = true
    /\ shown templateData "showPlayer" = true.
Proof.
  intros config td k Hp Hk Hs. unfold shown in *.
  assert (Hk' : ~ In k ["showArtist"; "showAlbum"; "showTitle"; "showGenre"]).
  { simpl in Hk. repeat (destruct Hk as [<-|Hk]; [not_in_list|]).
    contradiction. }
  rewrite (populate_keeps_flags config td k Hp Hk') in Hs.
  rewrite (populate_keeps_flags config td "showPlayer" Hp ltac:(not_in_list)).
  destruct (Dict.get (template_flags config) k) as [[|]|] eqn:G;
    try discriminate.
  destruct (flags_player_option config k Hk G) as [H1 H2].
  now rewrite H2.
Qed.

Lemma populate_showCoverArt (config : Conf) (td : list (string * bool)) :
  populateTemplateData config = Loaded td ->
  shown td "showCoverArt"
  = truthy (conf_get config "show_artwork" (YBool true)).
Proof.
  intros Hp. unfold shown.
  rewrite (populate_keeps_flags config td "showCoverArt" Hp
             ltac:(not_in_list)).
  unfold template_flags. rewrite !get_flag.
  cbn [String.eqb Ascii.eqb Bool.eqb andb].
  destruct (truthy (conf_get config "show_artwork" (YBool true)));
    [reflexivity|].
  destruct (truthy (conf_get config "show_player" (YBool true)));
    [|reflexivity].
  rewrite !get_flag. reflexivity.
Qed.

(** X22: artwork is shown unless the configuration says otherwise: the
    template data that [populateTemplateData] returns has showCoverArt set
    exactly when [show_artwork] is missing from the configuration or holds
    a true value; neither the other flags nor the track metadata change
    that. *)
Theorem X22_cover_art_follows_show_artwork :
  forall (config : Conf) (templateData : list (string * bool)),
    populateTemplateData config = Loaded templateData ->
    shown templateData "showCoverArt"
    = truthy (conf_get config "show_artwork" (YBool true))
    /\ (Dict.get config "show_artwork" = None ->
        shown templateData "showCoverArt" = true).
Proof.
  intros config td Hp.
  pose proof (populate_showCoverArt config td Hp) as E.
  split; [exact E|].
  intros Hnone. rewrite E. unfold conf_get. now rewrite Hnone.
Qed.

(** X23: a configuration that has none of the keys the function reads gets
    the defaults: the player, the update information, the cover art and the
    artist, album and title lines are shown, in this order, and nothing
    else (no canvas, no rounded corners, no genre, no player options). *)
Theorem X23_template_defaults :
  forall config : Conf,
    (forall k, In k flag_config_keys -> Dict.get config k = None) ->
    populateTemplateData config
    = Loaded [("showPlayer", true); ("showUpdateInfo", true);
              ("showCoverArt", true); ("showArtist", true);
              ("showAlbum", true); ("showTitle", true)].
Proof.
  intros config H. unfold populateTemplateData, flag, conf_get.
  rewrite !H by in_list. reflexivity.
Qed.

Lemma flags_no_metadata (config : Conf) (k : string) :
  In k ["showArtist"; "showAlbum"; "showTitle"; "showGenre"] ->
  Dict.get (template_flags config) k = None.
Proof.
  intros Hk. unfold template_flags. rewrite !get_flag. simpl in Hk.
  destruct (truthy (conf_get config "show_player" (YBool true)));
    repeat (destruct Hk as [<-|Hk];
            [cbn [String.eqb Ascii.eqb Bool.eqb andb];
             rewrite ?get_flag; reflexivity|]);
    contradiction.
Qed.

Lemma known_core_entry (name k : string) :
  Dict.get known_core_metadata_types name = Some k ->
  In (name, k) known_core_metadata_types.
Proof.
  unfold known_core_metadata_types, Dict.get.
  destruct (String.eqb_spec "artist" name) as [<-|_];
    [intros H; injection H as <-; in_list|].
  destruct (String.eqb_spec "album" name) as [<-|_];
    [intros H; injection H as <-; in_list|].
  destruct (String.eqb_spec "title" name) as [<-|_];
    [intros H; injection H as <-; in_list|].
  destruct (String.eqb_spec "genre" name) as [<-|_];
    [intros H; injection H as <-; in_list|].
  discriminate.
Qed.

Lemma known_core_inj (name name' k : string) :
  Dict.get known_core_metadata_types name = Some k ->
  Dict.get known_core_metadata_types name' = Some k ->
  name = name'.
Proof.
  intros H H'. apply known_core_entry in H, H'.
  unfold known_core_metadata_types in H, H'. simpl in H, H'.
  repeat (destruct H as [H|H]; [injection H as <- <-|]); try contradiction;
    repeat (destruct H' as [H'|H']; [injection H' as <-|]);
    try contradiction; try reflexivity; discriminate.
Qed.

Lemma loop_sets (l : list YamlVal) (td td' : list (string * bool)) k :
  add_metadata_types l td = Loaded td' ->
  (Dict.get td' k = Some true
   <-> Dict.get td k = Some true
       \/ exists name, In (YStr name) l
                       /\ Dict.get known_core_metadata_types name = Some k).
Proof.
  revert td. induction l as [|x l IH]; intros td.
  - intros H. injection H as <-. split; [now left|].
    intros [H|(name & [] & _)]. exact H.
  - destruct (add_metadata_types_step x l td)
      as [[_ (r & ->)]|[_ [(name & k' & -> & G & ->)|[Hnot ->]]]].
    + discriminate.
    + intros H. rewrite (IH _ H). split.
      * intros [Hget|(name' & Hin & G')].
        -- destruct (String.eqb_spec k' k) as [->|Hne].
           ++ right. exists name. split; [now left|exact G].
           ++ left. now rewrite Dict_get_set_other in Hget.
        -- right. exists name'. split; [now right|exact G'].
      * intros [Hget|(name' & [E|Hin] & G')].
        -- left. destruct (String.eqb_spec k' k) as [->|Hne].
           ++ apply Dict_get_set_same.
           ++ now rewrite Dict_get_set_other.
        -- injection E as <-. left. rewrite G in G'. injection G' as ->.
           apply Dict_get_set_same.
        -- right. eauto.
    + intros H. rewrite (IH _ H). split.
      * intros [Hget|(name' & Hin & G')]; [now left|].
        right. exists name'. split; [now right|exact G'].
      * intros [Hget|(name' & [E|Hin] & G')]; [now left| |right; eauto].
        rewrite (Hnot name' E) in G'. discriminate.
Qed.

(** X24: a track metadata line is shown exactly when it is asked for: for
    each of artist, album, title and genre, its key is set in the template
    data if and only if [show_track_metadata] is on (or missing) and the
    name is among the elements of [track_metadata] (by default artist,
    album and title). Names that are not known are passed over. *)
Theorem X24_track_metadata_shown_iff_listed :
  forall (config : Conf) (templateData : list (string * bool))
         (name k : string),
    populateTemplateData config = Loaded templateData ->
    Dict.get known_core_metadata_types name = Some k ->
    (shown templateData k = true
     <-> truthy (conf_get config "show_track_metadata" (YBool true)) = true
         /\ exists metadata_types,
              iterate (conf_get config "track_metadata" default_track_metadata)
              = Loaded metadata_types
              /\ In (YStr name) metadata_types).
Proof.
  intros config td name k Hp G.
  assert (Hk : In k ["showArtist"; "showAlbum"; "showTitle"; "showGenre"])
    by now apply (known_core_shown name).
  assert (Hs : shown td k = true <-> Dict.get td k = Some true).
  { unfold shown. destruct (Dict.get td k) as [[|]|]; split; congruence. }
  rewrite Hs. clear Hs. revert Hp. rewrite populateTemplateData_parts.
  destruct (truthy (conf_get config "show_track_metadata" (YBool true))).
  - destruct (iterate _) as [l|r]; [|discriminate].
    intros H. rewrite (loop_sets l _ td k H).
    rewrite (flags_no_metadata config k Hk). split.
    + intros [Hget|(name' & Hin & G')]; [discriminate|].
      split; [reflexivity|]. exists l. split; [reflexivity|].
      now rewrite (known_core_inj name name' k G G').
    + intros (_ & l' & E & Hin). injection E as <-. right. eauto.
  - intros H. injection H as <-.
    rewrite (flags_no_metadata config k Hk). split; [discriminate|].
    intros [H _]. discriminate.
Qed.

Lemma loop_raises (l : list YamlVal) (td : list (string * bool)) :
  (exists r, add_metadata_types l td = TypeError r)
  <-> exists x, In x l /\ unhashable x = true.
Proof.
  revert td. induction l as [|x l IH]; intros td.
  - split; [intros (r & H); discriminate|intros (x & [] & _)].
  - destruct (add_metadata_types_step x l td)
      as [[Hu (r & ->)]|[Hu [(name & k' & _ & _ & ->)|[_ ->]]]].
    + split; [intros _; exists x; split; [now left|exact Hu]|eauto].
    + rewrite IH. split.
      * intros (y & Hy & Hyu). exists y. split; [now right|exact Hyu].
      * intros (y & [<-|Hy] & Hyu); [congruence|eauto].
    + rewrite IH. split.
      * intros (y & Hy & Hyu). exists y. split; [now right|exact Hyu].
      * intros (y & [<-|Hy] & Hyu); [congruence|eauto].
Qed.

Lemma loop_passes (l : list YamlVal) (td : list (string * bool)) :
  Forall (fun x => unhashable x = false) l ->
  exists td', add_metadata_types l td = Loaded td'.
Proof.
  intros Hall.
  destruct (add_metadata_types l td) as [td'|r] eqn:E; [eauto|].
  destruct (proj1 (loop_raises l td) (ex_intro _ r E)) as (x & Hx & Hu).
  rewrite Forall_forall in Hall. rewrite (Hall x Hx) in Hu. discriminate.
Qed.

(** X25: when [populateTemplateData] raises a TypeError and when it does
    not. It returns the template data when [show_track_metadata] is off,
    whatever [track_metadata] holds; when track metadata is shown, it
    returns them when [track_metadata] is missing, a string, a binary
    value or a mapping, and when it is a sequence or a set whose elements
    are all scalars (none is a sequence, a mapping or a set). It raises
    TypeError when track metadata is shown and [track_metadata] is null, a
    boolean, a number or a timestamp, none of which can be iterated, or a
    sequence with an element that is a sequence, a mapping or a set, which
    cannot be hashed. *)
Theorem X25_template_data_type_errors :
  forall config : Conf,
    (truthy (conf_get config "show_track_metadata" (YBool true)) = false ->
     exists templateData, populateTemplateData config = Loaded templateData)
    /\ (truthy (conf_get config "show_track_metadata" (YBool true)) = true ->
        (Dict.get config "track_metadata" = None ->
         exists templateData,
           populateTemplateData config = Loaded templateData)
        /\ match conf_get config "track_metadata" default_track_metadata with
           | YStr _ | YBytes _ | YDict _ =>
             exists templateData,
               populateTemplateData config = Loaded templateData
           | YList items | YSet items =>
             (Forall (fun x => unhashable x = false) items ->
              exists templateData,
                populateTemplateData config = Loaded templateData)
             /\ ((exists x, In x items /\ unhashable x = true) ->
                 exists reason,
                   populateTemplateData config = TypeError reason)
           | YNull | YBool _ | YInt _ | YFloat _ | YDate _ =>
             exists reason, populateTemplateData config = TypeError reason
           end).
Proof.
  intros config. rewrite populateTemplateData_parts.
  destruct (truthy (conf_get config "show_track_metadata" (YBool true))).
  2:{ split; [eauto|discriminate]. }
  split; [discriminate|]. intros _. split.
  - intros Hnone. unfold conf_get. rewrite Hnone.
    apply loop_passes. repeat constructor.
  - destruct (conf_get config "track_metadata" default_track_metadata)
      as [| b | n | f | s | octets | iso | items | entries | elements];
      cbn [iterate]; eauto.
    + apply loop_passes, Forall_forall. intros x Hx.
      apply in_map_iff in Hx. now destruct Hx as (c & <- & _).
    + apply loop_passes, Forall_forall. intros x Hx.
      apply in_map_iff in Hx. now destruct Hx as (c & <- & _).
    + split; [apply loop_passes|apply loop_raises].
    + apply loop_passes, Forall_forall. intros x Hx.
      apply in_map_iff in Hx. now destruct Hx as (c & <- & _).
    + split; [apply loop_passes|apply loop_raises].
Qed.

(** X26: what [on_connect] subscribes to depends on the configuration only
    through [show_artwork]: when the web UI configuration can be read, the
    subscriptions are those of [on_connect] with the cover topic included
    exactly when [show_artwork] is missing or true; when reading it raises,
    [on_connect] raises as well and subscribes to nothing. *)
Theorem X26_on_connect_reads_show_artwork :
  forall (TOPIC_ROOT : string) (WEBUI_CONF : Conf),
    (forall templateData,
        populateTemplateData WEBUI_CONF = Loaded templateData ->
        on_connect_from TOPIC_ROOT WEBUI_CONF
        = Loaded (on_connect TOPIC_ROOT
                    (truthy (conf_get WEBUI_CONF "show_artwork" (YBool true)))))
    /\ (forall reason,
           populateTemplateData WEBUI_CONF = TypeError reason ->
           on_connect_from TOPIC_ROOT WEBUI_CONF = TypeError reason).
Proof.
  intros root conf. split.
  - intros td Hp. unfold on_connect_from, on_connect. rewrite Hp.
    now rewrite (populate_showCoverArt conf td Hp).
  - intros r Hp. unfold on_connect_from. now rewrite Hp.
Qed.

(** * Concrete runs of the further properties *)

Lemma X1_on_message_is_atomic_witness :
  snd (on_message demo_root demo_image
         (mkMessage (demo_root ++ "/artist") [xff]) initial_world)
  = Raise (UnicodeDecodeError "utf-8")
  /\ fst (on_message demo_root demo_image
            (mkMessage (demo_root ++ "/artist") [xff]) initial_world)
     = initial_world.
Proof.
  assert (H : snd (on_message demo_root demo_image
                     (mkMessage (demo_root ++ "/artist") [xff])
                     initial_world)
              = Raise (UnicodeDecodeError "utf-8")) by reflexivity.
  split; [exact H|].
  exact (proj2 (proj2 (X1_on_message_is_atomic demo_root demo_image
                         (mkMessage (demo_root ++ "/artist") [xff])
                         initial_world)) _ H).
Defined.

Lemma X2_on_message_raises_iff_witness :
  snd (on_message demo_root demo_image (demo_message "volume" "abc")
         initial_world)
  = Raise (ValueError "not enough values to unpack (expected 4, got 1)").
Proof.
  apply (proj2 (X2_on_message_raises_iff demo_root demo_image
                  (demo_message "volume" "abc") initial_world _)).
  right. split; reflexivity.
Defined.

Lemma X4_cached_entries_were_sent_witness :
  In ("playing_artist", PText "Queen")
     (SAVED_INFO (run demo_root demo_image initial_world
                    [Mqtt (demo_message "artist" "Queen");
                     Mqtt (demo_message "play_start" "--")]))
  /\ In (mkEmit "playing_artist" (PText "Queen") None)
        (emitted (run demo_root demo_image initial_world
                    [Mqtt (demo_message "artist" "Queen");
                     Mqtt (demo_message "play_start" "--")])).
Proof.
  assert (H : In ("playing_artist", PText "Queen")
                 (SAVED_INFO (run demo_root demo_image initial_world
                                [Mqtt (demo_message "artist" "Queen");
                                 Mqtt (demo_message "play_start" "--")])))
    by (left; reflexivity).
  split; [exact H|].
  exact (X4_cached_entries_were_sent demo_root demo_image _ _ _ H).
Defined.

Lemma X5_second_update_overwrites_witness :
  Dict.keys
    (SAVED_INFO
       (step demo_root demo_image
          (step demo_root demo_image initial_world
             (Mqtt (demo_message "artist" "Queen")))
          (Mqtt (demo_message "artist" "Abba"))))
  = Dict.keys
      (SAVED_INFO
         (step demo_root demo_image initial_world
            (Mqtt (demo_message "artist" "Queen"))))
  /\ Dict.get
       (SAVED_INFO
          (step demo_root demo_image
             (step demo_root demo_image initial_world
                (Mqtt (demo_message "artist" "Queen")))
             (Mqtt (demo_message "artist" "Abba"))))
       "playing_artist"
     = Some (PText "Abba").
Proof.
  apply (X5_second_update_overwrites demo_root demo_image initial_world
           (demo_message "artist" "Queen") (demo_message "artist" "Abba")
           "playing_artist" (PText "Queen") (PText "Abba")).
  - left; reflexivity.
  - reflexivity.
  - reflexivity.
Defined.

Lemma X7_remote_requests_keep_clients_and_cache_witness :
  "remote_play" <> "myevent"
  /\ emitted (step demo_root demo_image initial_world
                (Client 1%nat "remote_play" []))
     = []
  /\ step demo_root demo_image initial_world (Client 1%nat "remote_dance" [])
     = initial_world.
Proof.
  assert (H : "remote_play" <> "myevent") by discriminate.
  split; [exact H|]. split.
  - exact (proj1 (proj1 (X7_remote_requests_keep_clients_and_cache
                           demo_root demo_image 1%nat "remote_play" []
                           initial_world) H)).
  - exact (proj2 (X7_remote_requests_keep_clients_and_cache
                    demo_root demo_image 1%nat "remote_dance" []
                    initial_world) eq_refl).
Defined.

Lemma X8_on_connect_subscribes_once_witness :
  In (demo_root ++ "/cover") (on_connect demo_root true)
  /\ In (demo_root ++ "/volume") (on_connect demo_root false).
Proof.
  split.
  - apply (proj2 (proj1 (proj2 (proj2 (X8_on_connect_subscribes_once
                                         demo_root true))) "cover")).
    right; right. split; reflexivity.
  - apply (proj2 (proj2 (proj2 (X8_on_connect_subscribes_once
                                  demo_root false))) "volume").
    + unfold handled_subtopics. simpl. in_list.
    + discriminate.
Defined.

Lemma X9_volume_in_range_gives_percentage_witness :
  (-30 <= -15)%Q /\ (-15 <= 0)%Q
  /\ exists p : Z,
       on_message demo_root demo_image
         (demo_message "volume" "-15.0,0.0,0.0,0.0") initial_world
       = (sent_only initial_world "volume" (PPercent p), Ok tt)
       /\ (0 <= p <= 100)%Z
       /\ ((-15 == -30)%Q -> p = 0%Z)
       /\ ((-15 == 0)%Q -> p = 100%Z).
Proof.
  assert (H1 : (-30 <= -15)%Q) by discriminate.
  assert (H2 : (-15 <= 0)%Q) by discriminate.
  split; [exact H1|]. split; [exact H2|].
  exact (X9_volume_in_range_gives_percentage demo_root demo_image
           (list_byte_of_string "-15.0,0.0,0.0,0.0") "-15.0,0.0,0.0,0.0"
           "-15.0" "0.0" "0.0" "0.0" (-15) initial_world
           eq_refl eq_refl eq_refl H1 H2).
Defined.

Lemma X10_volume_percentage_is_monotone_witness :
  (1 <= 2)%Q /\ (103 <= 106)%Z /\ ((1 <= 1)%Q -> (103 <= 103)%Z).
Proof.
  assert (H : (1 <= 2)%Q) by discriminate.
  split; [exact H|].
  split.
  - exact (proj1 (X10_volume_percentage_is_monotone 1 2 103 106
                    eq_refl eq_refl H)).
  - exact (proj2 (X10_volume_percentage_is_monotone 1 1 103 103
                    eq_refl eq_refl (Qle_refl 1))).
Defined.

Lemma X11_volume_nan_and_infinity_raise_witness :
  on_message demo_root demo_image (demo_message "volume" "nan,0,0,0")
    initial_world
  = (initial_world, Raise (ValueError "cannot convert float NaN to integer"))
  /\ on_message demo_root demo_image (demo_message "volume" "-inf,0,0,0")
       initial_world
     = (initial_world,
        Raise (OverflowError "cannot convert float infinity to integer")).
Proof.
  split.
  - exact (proj1 (X11_volume_nan_and_infinity_raise demo_root demo_image
                    (list_byte_of_string "nan,0,0,0") "nan,0,0,0"
                    "nan" "0" "0" "0" initial_world eq_refl eq_refl)
             eq_refl).
  - exact (proj2 (X11_volume_nan_and_infinity_raise demo_root demo_image
                    (list_byte_of_string "-inf,0,0,0") "-inf,0,0,0"
                    "-inf" "0" "0" "0" initial_world eq_refl eq_refl)
             true eq_refl).
Defined.

Lemma X12_volume_needs_four_fields_witness :
  exists reason : string,
    on_message demo_root demo_image (demo_message "volume" "-20.0,0.0")
      initial_world
    = (initial_world, Raise (ValueError reason)).
Proof.
  apply (X12_volume_needs_four_fields demo_root demo_image
           (list_byte_of_string "-20.0,0.0") "-20.0,0.0" initial_world
           eq_refl).
  discriminate.
Defined.

Lemma X13_volume_needs_ascii_witness :
  on_message demo_root demo_image
    (mkMessage (demo_root ++ "/volume") [x2d; x35; x2c; xe9]) initial_world
  = (initial_world, Raise (UnicodeDecodeError "ascii")).
Proof.
  apply (X13_volume_needs_ascii demo_root demo_image
           [x2d; x35; x2c; xe9] xe9 initial_world).
  - right; right; right; left; reflexivity.
  - discriminate.
Defined.



Lemma X16_interpolator_follows_the_destination_order_witness :
  (-30 < 0)%Q /\ (-20 <= -10)%Q /\ (-1 # 2 <= 100)%Q
  /\ PyFloat.fle (volume_scaler_binary64 (Fin (-20)))
                 (volume_scaler_binary64 (Fin (-10))).
Proof.
  assert (H1 : (-30 < 0)%Q) by reflexivity.
  assert (H2 : (-20 <= -10)%Q) by discriminate.
  assert (H3 : (-1 # 2 <= 100)%Q) by discriminate.
  assert (N1 : volume_scaler_binary64 (Fin (-20)) <> NaN)
    by (intros E; vm_compute in E; discriminate E).
  assert (N2 : volume_scaler_binary64 (Fin (-10)) <> NaN)
    by (intros E; vm_compute in E; discriminate E).
  split; [exact H1|]. split; [exact H2|]. split; [exact H3|].
  exact (proj1 (X16_interpolator_follows_the_destination_order
                  (-30) 0 (-1 # 2) 100 volume_scaler_binary64 (-20) (-10)
                  H1 volume_scaler_binary64_built H2 N1 N2) H3).
Defined.

Lemma X18_guessImageMime_by_prefix_witness :
  _guessImageMime [xff; xd8; xff; xe0] = "image/jpeg"
  /\ (forall rest, [x47; x49; x46] <> (jpeg_magic ++ rest)%list).
Proof.
  split.
  - apply (proj2 (proj1 (X18_guessImageMime_by_prefix [xff; xd8; xff; xe0]))).
    exists [xff; xe0]. reflexivity.
  - apply (proj1 (proj2 (proj2 (X18_guessImageMime_by_prefix
                                  [x47; x49; x46])))).
    reflexivity.
Defined.

Lemma X20_template_data_is_well_formed_witness :
  NoDup
    (Dict.keys
       [("showPlayer", true); ("showPlayerStop", true); ("showCanvas", true);
        ("showUpdateInfo", true); ("showCoverArt", true);
        ("showGenre", true)]).
Proof.
  exact (proj1 (proj2 (X20_template_data_is_well_formed
                         [("show_player_stop", YBool true);
                          ("show_canvas", YInt 1);
                          ("track_metadata", YList [YStr "genre"; YInt 7;
                                                    YStr "genre"])]
                         _ eq_refl))).
Defined.

Lemma X21_player_options_need_the_player_witness :
  truthy (conf_get [("show_player_stop", YStr "yes")] "show_player"
            (YBool true)) = true
  /\ shown [("showPlayer", true); ("showPlayerStop", true);
            ("showUpdateInfo", true); ("showCoverArt", true);
            ("showArtist", true); ("showAlbum", true); ("showTitle", true)]
           "showPlayer" = true.
Proof.
  apply (X21_player_options_need_the_player
           [("show_player_stop", YStr "yes")] _ "showPlayerStop" eq_refl).
  - right; right; right; left; reflexivity.
  - reflexivity.
Defined.

Lemma X22_cover_art_follows_show_artwork_witness :
  shown [("showPlayer", true); ("showUpdateInfo", true); ("showArtist", true);
         ("showAlbum", true); ("showTitle", true)] "showCoverArt"
  = truthy (conf_get [("show_artwork", YBool false)] "show_artwork"
              (YBool true)).
Proof.
  exact (proj1 (X22_cover_art_follows_show_artwork
                  [("show_artwork", YBool false)] _ eq_refl)).
Defined.

Lemma X23_template_defaults_witness :
  populateTemplateData [("theme", YStr "dark")]
  = Loaded [("showPlayer", true); ("showUpdateInfo", true);
            ("showCoverArt", true); ("showArtist", true);
            ("showAlbum", true); ("showTitle", true)].
Proof.
  apply X23_template_defaults.
  intros k Hk. unfold flag_config_keys in Hk. simpl in Hk.
  repeat (destruct Hk as [<-|Hk]; [reflexivity|]). contradiction.
Defined.

Lemma X24_track_metadata_shown_iff_listed_witness :
  shown [("showPlayer", true); ("showUpdateInfo", true);
         ("showCoverArt", true); ("showGenre", true)] "showGenre" = true.
Proof.
  apply (proj2 (X24_track_metadata_shown_iff_listed
                  [("track_metadata", YList [YStr "genre"; YStr "composer"])]
                  _ "genre" "showGenre" eq_refl eq_refl)).
  split; [reflexivity|].
  exists [YStr "genre"; YStr "composer"]. split; [reflexivity|].
  left; reflexivity.
Defined.

Lemma X25_template_data_type_errors_witness :
  (exists reason,
      populateTemplateData [("track_metadata", YDate "2024-01-01")]
      = TypeError reason)
  /\ (exists reason,
         populateTemplateData
           [("track_metadata", YList [YStr "artist"; YList []])]
         = TypeError reason)
  /\ (exists templateData,
         populateTemplateData
           [("show_track_metadata", YBool false); ("track_metadata", YInt 3)]
         = Loaded templateData)
  /\ (exists templateData,
         populateTemplateData [("track_metadata", YBytes [x61; x62])]
         = Loaded templateData).
Proof.
  repeat apply conj.
  - exact (proj2 (proj2 (X25_template_data_type_errors
                           [("track_metadata", YDate "2024-01-01")])
                    eq_refl)).
  - apply (proj2 (proj2 (proj2 (X25_template_data_type_errors
                                  [("track_metadata",
                                    YList [YStr "artist"; YList []])])
                           eq_refl))).
    exists (YList []). split; [right; left; reflexivity|reflexivity].
  - exact (proj1 (X25_template_data_type_errors
                    [("show_track_metadata", YBool false);
                     ("track_metadata", YInt 3)])
             eq_refl).
  - exact (proj2 (proj2 (X25_template_data_type_errors
                           [("track_metadata", YBytes [x61; x62])])
                    eq_refl)).
Defined.

Lemma X26_on_connect_reads_show_artwork_witness :
  on_connect_from demo_root [("show_artwork", YBool false)]
  = Loaded (on_connect demo_root false)
  /\ on_connect_from demo_root [("track_metadata", YNull)]
     = TypeError "object is not iterable".
Proof.
  split.
  - exact (proj1 (X26_on_connect_reads_show_artwork demo_root
                    [("show_artwork", YBool false)]) _ eq_refl).
  - exact (proj2 (X26_on_connect_reads_show_artwork demo_root
                    [("track_metadata", YNull)]) _ eq_refl).
Defined.
